(** * A verification model of the YouTube assistant pipeline

    Shallow embedding of the transcription merge, the audio segment
    planner, the progress tracker, the per-video derived state (caches,
    vector collections, conversation histories), the question endpoint and
    the long-video orchestrator, followed by the properties established
    about them.

    Conventions.
    - Python [str] values are [string]s over 8-bit [ascii]; the character
      classes ([isspace], [islower], word characters, digits) are Python's
      for the ASCII range, every byte above 127 is in none of them, so
      the normalisations are the code's on ASCII text ([isascii]), and
      the properties that depend on them are stated for such text.
      Non-ASCII literals of the source are kept as their UTF-8 bytes.
    - Python [dict]s are [gmap]s; files are entries of per-directory maps.
    - Durations and offsets are exact rationals [Q] (every float is one; the
      planner only divides by an integer and truncates, or takes a
      remainder, which is exact on the values involved); the
      progress percentage, which rounds twice, is computed on binary64.
    - Remote capabilities (speech-to-text, language detection, chat
      completion, embeddings, the transcoder, the downloader) are
      fields of a [Services] record; [None] stands for a raised exception. *)

From Stdlib Require Import ZArith QArith Qround Floats Ascii String List Bool Lia Lqa.
From stdpp Require Import gmap strings list fin_maps pretty.

Local Open Scope Z_scope.

(** ** Python text primitives *)

Module Text.

Definition code (c : ascii) : nat := nat_of_ascii c.

Definition between (lo hi n : nat) : bool := (lo <=? n)%nat && (n <=? hi)%nat.

(** [str.isspace] on one character. *)
Definition isspace (c : ascii) : bool :=
  between 9 13 (code c) || between 28 32 (code c).

(** [str.islower] on one character. *)
Definition islower (c : ascii) : bool := between 97 122 (code c).

Definition isupper (c : ascii) : bool := between 65 90 (code c).

Definition isdigit (c : ascii) : bool := between 48 57 (code c).

(** The class [\w] of [re]. *)
Definition isword (c : ascii) : bool :=
  islower c || isupper c || isdigit c || Ascii.eqb c "_".

Definition lower_char (c : ascii) : ascii :=
  if isupper c then ascii_of_nat (code c + 32) else c.

Fixpoint lower (s : string) : string :=
  match s with
  | EmptyString => EmptyString
  | String c s' => String (lower_char c) (lower s')
  end.

(** [str.isascii]: every character is an ASCII character.  On such a
    text the classes and the case mapping above are exactly Python's; a
    character beyond ASCII is here a run of bytes above 127, which Python
    classifies by its code point, so the properties that depend on the
    class or the case of the characters are stated for ASCII text. *)
Fixpoint isascii (s : string) : bool :=
  match s with
  | EmptyString => true
  | String c s' => (code c <? 128)%nat && isascii s'
  end.

(** Truthiness of a [str]. *)
Definition nonempty (s : string) : bool :=
  match s with EmptyString => false | String _ _ => true end.

Fixpoint lstrip (s : string) : string :=
  match s with
  | EmptyString => EmptyString
  | String c s' => if isspace c then lstrip s' else s
  end.

Fixpoint rstrip (s : string) : string :=
  match s with
  | EmptyString => EmptyString
  | String c s' =>
      let r := rstrip s' in
      if isspace c && negb (nonempty r) then EmptyString else String c r
  end.

Definition strip (s : string) : string := rstrip (lstrip s).

(** [s[0]] and [s[-1]]. *)
Definition first_char (s : string) : option ascii :=
  match s with EmptyString => None | String c _ => Some c end.

Fixpoint last_char (s : string) : option ascii :=
  match s with
  | EmptyString => None
  | String c EmptyString => Some c
  | String _ s' => last_char s'
  end.

Fixpoint mem_char (c : ascii) (s : string) : bool :=
  match s with
  | EmptyString => false
  | String d s' => Ascii.eqb c d || mem_char c s'
  end.

Fixpoint startswith (p s : string) : bool :=
  match p, s with
  | EmptyString, _ => true
  | String a p', String b s' => Ascii.eqb a b && startswith p' s'
  | String _ _, EmptyString => false
  end.

(** [needle in hay]. *)
Fixpoint contains (needle hay : string) : bool :=
  startswith needle hay ||
  match hay with
  | EmptyString => false
  | String _ hay' => contains needle hay'
  end.

Definition cons_head (c : ascii) (parts : list string) : list string :=
  match parts with
  | [] => [String c EmptyString]
  | p :: ps => String c p :: ps
  end.

(** [s.split(sep)] for a non-empty separator: [skip] counts the characters
    of a separator occurrence still to be passed over. *)
Fixpoint split_from (sep : string) (skip : nat) (s : string) : list string :=
  match s with
  | EmptyString => [EmptyString]
  | String c s' =>
      match skip with
      | S k => split_from sep k s'
      | O =>
          if startswith sep s
          then EmptyString :: split_from sep (String.length sep - 1) s'
          else cons_head c (split_from sep 0 s')
      end
  end.

Definition split (sep s : string) : list string := split_from sep 0 s.

(** [sep.join(parts)]. *)
Fixpoint join (sep : string) (parts : list string) : string :=
  match parts with
  | [] => EmptyString
  | [p] => p
  | p :: ps => p +:+ sep +:+ join sep ps
  end.

(** [s[:n]]. *)
Fixpoint str_take (n : nat) (s : string) : string :=
  match n, s with
  | S k, String c s' => String c (str_take k s')
  | _, _ => EmptyString
  end.

Definition NL : string := String (ascii_of_nat 10) EmptyString.

(** [x if x else None]: the value of an optional text that passes an
    [if x:] test. *)
Definition truthy (x : option string) : option string :=
  match x with
  | Some (String c rest) => Some (String c rest)
  | _ => None
  end.

(** Every character is white space: [not s.strip()]. *)
Fixpoint blank (s : string) : bool :=
  match s with
  | EmptyString => true
  | String c s' => isspace c && blank s'
  end.

End Text.

Import Text.

(** ** transcription.py *)

Module transcription.

(** The remote capabilities the transcription orchestrator calls. *)
Record Services := {
  (** [os.path.exists] on a segment file *)
  segment_exists : string -> bool;
  (** the speech-to-text call on a segment file, with the pinned language *)
  speech_to_text : string -> option string -> option string;
  (** [langdetect.detect] *)
  detect : string -> option string
}.

(** Truthiness of an optional language code. *)
Definition language_given (language : option string) : bool :=
  match language with Some l => nonempty l | None => false end.

Definition is_ar (language : option string) : bool :=
  match language with Some l => String.eqb l "ar" | None => false end.

(** U+202B, as its UTF-8 bytes. *)
Definition RTL_MARK : string :=
  String (ascii_of_nat 226) (String (ascii_of_nat 128)
    (String (ascii_of_nat 171) EmptyString)).

Section Transcribe.
Context (W : Services).

Definition transcribe_single_segment
    (whisper_language : option string) (segment : string) : string :=
  if negb (segment_exists W segment) then ""
  else
    let lang := if language_given whisper_language
                then whisper_language else None in
    match speech_to_text W segment lang with
    | Some text => text
    | None => ""
    end.

(** One iteration of the joining loop on fragment [i]. *)
Definition join_fragment (i : nat) (transcript segment_text : string) : string :=
  if negb (nonempty segment_text) then transcript
  else if (0 <? i)%nat && nonempty segment_text then
    if match first_char segment_text with
       | Some c => islower c
       | None => false
       end
       && nonempty transcript
       && match last_char transcript with
          | Some c => negb (mem_char c ".!?")
          | None => false
          end
    then rstrip transcript +:+ " " +:+ segment_text
    else transcript +:+ segment_text +:+ NL
  else transcript +:+ segment_text +:+ NL.

(** The loop body with its test on [i] taken as passed. *)
Definition join_next (transcript segment_text : string) : string :=
  join_fragment 1 transcript segment_text.

Fixpoint join_fragments (i : nat) (transcript : string) (results : list string)
    : string :=
  match results with
  | [] => transcript
  | segment_text :: rest =>
      join_fragments (S i) (join_fragment i transcript segment_text) rest
  end.

(** Dropping the blank lines. *)
Definition clean_lines (transcript : string) : string :=
  join NL (List.filter (fun line => nonempty (strip line)) (split NL transcript)).

(** The text assembled from the positional results, before the
    right-to-left mark. *)
Definition merge_results (results : list string) : string :=
  clean_lines (join_fragments 0 "" results).

Definition add_rtl_marker (language : option string) (transcript : string)
    : string :=
  if is_ar language then RTL_MARK +:+ transcript
  else if negb (language_given language) then
    match detect W (str_take (Nat.min 500 (String.length transcript)) transcript) with
    | Some l => if String.eqb l "ar" then RTL_MARK +:+ transcript else transcript
    | None => transcript
    end
  else transcript.

Definition transcribe_segments (segments : list string) (language : option string)
    : string :=
  match segments with
  | [] => ""
  | _ =>
      let results := List.map (transcribe_single_segment language) segments in
      add_rtl_marker language (merge_results results)
  end.

End Transcribe.

End transcription.


(** ** Numbers: Python's [int()] on a float, and decimal formatting *)

Module Num.

Definition Qltb (x y : Q) : bool := negb (Qle_bool y x).

(** [int(x)]: truncation toward zero. *)
Definition int_of_Q (x : Q) : Z :=
  if Qle_bool 0 x then Qfloor x else Qceiling x.

(** [x // y] and [x % y] for a positive integer [y]. *)
Definition Qfloordiv (x : Q) (y : Z) : Z := Qfloor (x / inject_Z y).
Definition Qmod (x : Q) (y : Z) : Q := (x - inject_Z (y * Qfloordiv x y))%Q.

Fixpoint zeros (n : nat) : string :=
  match n with O => EmptyString | S k => String "0" (zeros k) end.

(** [f"{n:0wd}"] for a non-negative [n]. *)
Definition zero_pad (width : nat) (n : Z) : string :=
  let s := pretty n in zeros (width - String.length s) +:+ s.

End Num.

Import Num.

(** ** audio_processing.py *)

Module audio_processing.

Definition SEGMENTS_DIR : string := "data/segments".

Record Services := {
  (** [utils.check_ffmpeg()] *)
  check_ffmpeg : bool;
  (** [os.path.exists] *)
  path_exists : string -> bool;
  (** [os.path.getsize] *)
  getsize : string -> Z;
  (** the duration [ffprobe] prints, parsed; [None] when the call or the
      parse raises *)
  ffprobe : string -> option Q;
  (** [os.cpu_count()] *)
  cpu_count : option Z;
  (** the transcoder extracting [length] seconds from [start] of [input]
      into [output], with the quality profile of the flag; [false] when
      the subprocess fails *)
  ffmpeg_segment : string -> Z -> Z -> bool -> string -> bool
}.

(** A planned segment: what [process_segment index] asks of the transcoder. *)
Record Segment := {
  seg_index : nat;
  seg_start : Z;
  seg_length : Z;
  seg_path : string
}.

(** The media instants a segment holds: [-ss start -t length]. *)
Definition covers (g : Segment) (t : Q) : Prop :=
  (inject_Z (seg_start g) <= t)%Q /\ (t < inject_Z (seg_start g + seg_length g))%Q.

(** [os.path.basename]. *)
Fixpoint basename (path : string) : string :=
  match path with
  | EmptyString => EmptyString
  | String c rest =>
      if contains "/" rest then basename rest
      else if Ascii.eqb c "/" then rest else path
  end.

(** [segment_indices[i:i+size]] for [i] in [range(0, len, size)]. *)
Fixpoint batches {A} (fuel size : nat) (l : list A) : list (list A) :=
  match fuel with
  | O => []
  | S f =>
      match l with
      | [] => []
      | _ => take size l :: batches f size (drop size l)
      end
  end.

Section Split.
Context (W : Services).

Definition get_audio_duration (input_file : string) : Q :=
  if negb (path_exists W input_file) then 0%Q
  else match ffprobe W input_file with
       | Some d => d
       | None => 0%Q
       end.

(** The size-based promotion to the long-video profile. *)
Definition detect_long_video (input_file : string) (is_long_video : bool) : bool :=
  if negb is_long_video && (50 * 1024 * 1024 <? getsize W input_file)
  then true else is_long_video.

Definition effective_max_seconds
    (duration : Q) (max_seconds : Z) (is_long_video : bool) : Z :=
  if is_long_video then
    if Qltb 7200 duration then Z.max max_seconds 180
    else if Qltb 3600 duration then Z.max max_seconds 120
    else max_seconds
  else max_seconds.

Definition segments_count (duration : Q) (max_seconds : Z) : Z :=
  Z.max 1 (int_of_Q (duration / inject_Z max_seconds)).

Definition max_workers (is_long_video : bool) (count : Z) : Z :=
  let cpu := match cpu_count W with
             | Some n => if n =? 0 then 2 else n
             | None => 2
             end in
  if is_long_video && (100 <? count) then Z.min cpu 4 else Z.min cpu 8.

Definition segments_dir (input_file : string) : string :=
  SEGMENTS_DIR +:+ "/" +:+
  match split "." (basename input_file) with
  | file_hash :: _ => file_hash
  | [] => ""
  end.

Definition plan_segment (dir : string) (max_seconds : Z) (index : nat) : Segment :=
  {| seg_index := index;
     seg_start := Z.of_nat index * max_seconds;
     seg_length := max_seconds;
     seg_path := dir +:+ "/segment_" +:+ zero_pad 3 (Z.of_nat index) +:+ ".mp3" |}.

Definition process_segment
    (input_file dir : string) (max_seconds : Z) (is_long_video : bool)
    (index : nat) : string :=
  let g := plan_segment dir max_seconds index in
  if ffmpeg_segment W input_file (seg_start g) (seg_length g) is_long_video (seg_path g)
  then seg_path g else "".

Definition valid_paths (paths : list string) : list string :=
  List.filter (fun path => nonempty path && path_exists W path) paths.

(** The segments [split_audio] plans for a file of the given duration. *)
Definition planned_segments
    (input_file : string) (duration : Q) (max_seconds : Z) (is_long_video : bool)
    : list Segment :=
  let m := effective_max_seconds duration max_seconds is_long_video in
  List.map (plan_segment (segments_dir input_file) m)
           (seq 0 (Z.to_nat (segments_count duration m))).

(** [split_audio]; [None] is the [ZeroDivisionError] of a zero segment
    length. *)
Definition split_audio
    (input_file : string) (max_seconds : Z) (is_long_video : bool)
    : option (list string) :=
  if negb (check_ffmpeg W) then Some []
  else if negb (path_exists W input_file) then Some []
  else
    let is_long_video := detect_long_video input_file is_long_video in
    let dir := segments_dir input_file in
    let duration := get_audio_duration input_file in
    if Qle_bool duration 0 then Some []
    else
      let max_seconds := effective_max_seconds duration max_seconds is_long_video in
      if max_seconds =? 0 then None
      else
        let count := segments_count duration max_seconds in
        let segment_indices := seq 0 (Z.to_nat count) in
        let run := List.map (process_segment input_file dir max_seconds is_long_video) in
        if is_long_video && (50 <? count) then
          Some (List.concat
                  (List.map (fun batch_indices => valid_paths (run batch_indices))
                            (batches (length segment_indices) 20 segment_indices)))
        else Some (valid_paths (run segment_indices)).

End Split.

End audio_processing.

(** ** Binary64 arithmetic for the progress percentage *)

Module F64.

(** The float nearest to an integer. *)
Definition of_Z (z : Z) : float :=
  SF2Prim (SpecFloat.binary_normalize FloatOps.prec FloatOps.emax z 0 false).

(** [int(f)] for a finite float; infinities and NaN raise in Python. *)
Definition to_int (f : float) : option Z :=
  match Prim2SF f with
  | SpecFloat.S754_zero _ => Some 0
  | SpecFloat.S754_finite s m e =>
      let a := if 0 <=? e then Z.pos m * 2 ^ e else Z.pos m / 2 ^ (- e) in
      Some (if s then - a else a)
  | _ => None
  end.

(** [int((a / b) * 100)] on two integers, [b] not zero. *)
Definition percent (a b : Z) : option Z :=
  to_int (PrimFloat.mul (PrimFloat.div (of_Z a) (of_Z b)) (of_Z 100)).

End F64.

(** ** app.py: the progress tracker *)

Module progress.

Record Status := {
  message : string;
  percentage : Z;
  video_id : option string;
  processing_type : string;
  chunks_total : Z;
  chunks_completed : Z;
  estimated_time_remaining : option string;
  started_at : option Q
}.

(** The module-level initial value of [progress_status]. *)
Definition initial : Status :=
  {| message := "Ready";
     percentage := 0;
     video_id := None;
     processing_type := "standard";
     chunks_total := 0;
     chunks_completed := 0;
     estimated_time_remaining := None;
     started_at := None |}.

Definition set_message v (s : Status) : Status :=
  {| message := v; percentage := percentage s; video_id := video_id s;
     processing_type := processing_type s; chunks_total := chunks_total s;
     chunks_completed := chunks_completed s;
     estimated_time_remaining := estimated_time_remaining s;
     started_at := started_at s |}.

Definition set_percentage v (s : Status) : Status :=
  {| message := message s; percentage := v; video_id := video_id s;
     processing_type := processing_type s; chunks_total := chunks_total s;
     chunks_completed := chunks_completed s;
     estimated_time_remaining := estimated_time_remaining s;
     started_at := started_at s |}.

Definition set_video_id v (s : Status) : Status :=
  {| message := message s; percentage := percentage s; video_id := Some v;
     processing_type := processing_type s; chunks_total := chunks_total s;
     chunks_completed := chunks_completed s;
     estimated_time_remaining := estimated_time_remaining s;
     started_at := started_at s |}.

Definition set_processing_type v (s : Status) : Status :=
  {| message := message s; percentage := percentage s; video_id := video_id s;
     processing_type := v; chunks_total := chunks_total s;
     chunks_completed := chunks_completed s;
     estimated_time_remaining := estimated_time_remaining s;
     started_at := started_at s |}.

Definition set_chunks_total v (s : Status) : Status :=
  {| message := message s; percentage := percentage s; video_id := video_id s;
     processing_type := processing_type s; chunks_total := v;
     chunks_completed := chunks_completed s;
     estimated_time_remaining := estimated_time_remaining s;
     started_at := started_at s |}.

Definition set_chunks_completed v (s : Status) : Status :=
  {| message := message s; percentage := percentage s; video_id := video_id s;
     processing_type := processing_type s; chunks_total := chunks_total s;
     chunks_completed := v;
     estimated_time_remaining := estimated_time_remaining s;
     started_at := started_at s |}.

Definition set_eta v (s : Status) : Status :=
  {| message := message s; percentage := percentage s; video_id := video_id s;
     processing_type := processing_type s; chunks_total := chunks_total s;
     chunks_completed := chunks_completed s;
     estimated_time_remaining := Some v;
     started_at := started_at s |}.

Definition set_started_at v (s : Status) : Status :=
  {| message := message s; percentage := percentage s; video_id := video_id s;
     processing_type := processing_type s; chunks_total := chunks_total s;
     chunks_completed := chunks_completed s;
     estimated_time_remaining := estimated_time_remaining s;
     started_at := Some v |}.

(** [if arg is not None: update]. *)
Definition when_given {A} (arg : option A) (f : A -> Status -> Status)
    (s : Status) : Status :=
  match arg with Some v => f v s | None => s end.

(** The arguments of one [update_progress] call. *)
Record Update := {
  u_message : string;
  u_percentage : option Z;
  u_video_id : option string;
  u_processing_type : option string;
  u_chunks_total : option Z;
  u_chunks_completed : option Z;
  u_started_at : option Q
}.

(** The percentage derived from the chunk counters: taken only when the
    call itself carries a non-zero [chunks_total]. *)
Definition derive_percentage (u : Update) (completed : Z) (s : Status) : Status :=
  match u_chunks_total u with
  | Some total =>
      if negb (total =? 0) && (completed <=? total) then
        match F64.percent completed total with
        | Some p => set_percentage p s
        | None => s
        end
      else s
  | None => s
  end.

(** The estimate of the remaining time, formatted. *)
Definition estimate (now : Q) (s : Status) : Status :=
  match started_at s with
  | Some t0 =>
      if negb (Qeq_bool t0 0) && (0 <? chunks_completed s) && (0 <? chunks_total s)
      then
        let elapsed := (now - t0)%Q in
        let time_per_chunk := (elapsed / inject_Z (chunks_completed s))%Q in
        let remaining_chunks := chunks_total s - chunks_completed s in
        let est_time_remaining := (time_per_chunk * inject_Z remaining_chunks)%Q in
        let minutes := Qfloordiv est_time_remaining 60 in
        let seconds := int_of_Q (Qmod est_time_remaining 60) in
        set_eta (pretty minutes +:+ "m " +:+ pretty seconds +:+ "s") s
      else s
  | None => s
  end.

(** [update_progress], [now] being the clock read for the estimate. *)
Definition update_progress (now : Q) (u : Update) (s : Status) : Status :=
  let s := set_message (u_message u) s in
  let s := when_given (u_percentage u) set_percentage s in
  let s := when_given (u_video_id u) set_video_id s in
  let s := when_given (u_processing_type u) set_processing_type s in
  let s := when_given (u_chunks_total u) set_chunks_total s in
  let s := when_given (u_chunks_completed u)
             (fun completed s =>
                derive_percentage u completed (set_chunks_completed completed s)) s in
  let s := when_given (u_started_at u) set_started_at s in
  estimate now s.

(** Positional and keyword forms of the calls in the source. *)
Definition upd (msg : string) (pct : option Z) (vid : string) : Update :=
  {| u_message := msg; u_percentage := pct; u_video_id := Some vid;
     u_processing_type := None; u_chunks_total := None;
     u_chunks_completed := None; u_started_at := None |}.

Definition with_processing_type v (u : Update) : Update :=
  {| u_message := u_message u; u_percentage := u_percentage u;
     u_video_id := u_video_id u; u_processing_type := Some v;
     u_chunks_total := u_chunks_total u;
     u_chunks_completed := u_chunks_completed u;
     u_started_at := u_started_at u |}.

Definition with_chunks_total v (u : Update) : Update :=
  {| u_message := u_message u; u_percentage := u_percentage u;
     u_video_id := u_video_id u; u_processing_type := u_processing_type u;
     u_chunks_total := Some v;
     u_chunks_completed := u_chunks_completed u;
     u_started_at := u_started_at u |}.

Definition with_chunks_completed v (u : Update) : Update :=
  {| u_message := u_message u; u_percentage := u_percentage u;
     u_video_id := u_video_id u; u_processing_type := u_processing_type u;
     u_chunks_total := u_chunks_total u;
     u_chunks_completed := Some v;
     u_started_at := u_started_at u |}.

Definition with_started_at v (u : Update) : Update :=
  {| u_message := u_message u; u_percentage := u_percentage u;
     u_video_id := u_video_id u; u_processing_type := u_processing_type u;
     u_chunks_total := u_chunks_total u;
     u_chunks_completed := u_chunks_completed u;
     u_started_at := Some v |}.

End progress.

(** ** [hashlib.md5(...).hexdigest()] *)

Module MD5.

Definition mask32 (x : Z) : Z := Z.land x 4294967295.

Definition not32 (x : Z) : Z := Z.lxor x 4294967295.

Definition add32 (x y : Z) : Z := mask32 (x + y).

Definition rotl32 (x c : Z) : Z :=
  mask32 (Z.lor (Z.shiftl x c) (Z.shiftr x (32 - c))).

Definition K : list Z :=
  [ 3614090360; 3905402710; 606105819; 3250441966;
    4118548399; 1200080426; 2821735955; 4249261313;
    1770035416; 2336552879; 4294925233; 2304563134;
    1804603682; 4254626195; 2792965006; 1236535329;
    4129170786; 3225465664; 643717713; 3921069994;
    3593408605; 38016083; 3634488961; 3889429448;
    568446438; 3275163606; 4107603335; 1163531501;
    2850285829; 4243563512; 1735328473; 2368359562;
    4294588738; 2272392833; 1839030562; 4259657740;
    2763975236; 1272893353; 4139469664; 3200236656;
    681279174; 3936430074; 3572445317; 76029189;
    3654602809; 3873151461; 530742520; 3299628645;
    4096336452; 1126891415; 2878612391; 4237533241;
    1700485571; 2399980690; 4293915773; 2240044497;
    1873313359; 4264355552; 2734768916; 1309151649;
    4149444226; 3174756917; 718787259; 3951481745 ].

Definition R : list Z :=
  [ 7; 12; 17; 22; 7; 12; 17; 22; 7; 12; 17; 22; 7; 12; 17; 22;
    5; 9; 14; 20; 5; 9; 14; 20; 5; 9; 14; 20; 5; 9; 14; 20;
    4; 11; 16; 23; 4; 11; 16; 23; 4; 11; 16; 23; 4; 11; 16; 23;
    6; 10; 15; 21; 6; 10; 15; 21; 6; 10; 15; 21; 6; 10; 15; 21 ].

Record Digest := { dA : Z; dB : Z; dC : Z; dD : Z }.

Definition init : Digest :=
  {| dA := 1732584193; dB := 4023233417; dC := 2562383102; dD := 271733878 |}.

(** One of the 64 operations on the 16-word block [M]. *)
Definition operation (M : list Z) (st : Digest) (i : nat) : Digest :=
  let '(f, g) :=
    if (i <? 16)%nat then
      (Z.lor (Z.land (dB st) (dC st)) (Z.land (not32 (dB st)) (dD st)), i)
    else if (i <? 32)%nat then
      (Z.lor (Z.land (dD st) (dB st)) (Z.land (not32 (dD st)) (dC st)),
       ((5 * i + 1) mod 16)%nat)
    else if (i <? 48)%nat then
      (Z.lxor (dB st) (Z.lxor (dC st) (dD st)), ((3 * i + 5) mod 16)%nat)
    else
      (Z.lxor (dC st) (Z.lor (dB st) (not32 (dD st))), ((7 * i) mod 16)%nat) in
  let f := add32 (add32 (add32 f (dA st)) (nth i K 0)) (nth g M 0) in
  {| dA := dD st; dB := add32 (dB st) (rotl32 f (nth i R 0));
     dC := dB st; dD := dC st |}.

Definition compress (st : Digest) (M : list Z) : Digest :=
  let r := fold_left (operation M) (seq 0 64) st in
  {| dA := add32 (dA st) (dA r); dB := add32 (dB st) (dB r);
     dC := add32 (dC st) (dC r); dD := add32 (dD st) (dD r) |}.

Fixpoint bytes_of (s : string) : list Z :=
  match s with
  | EmptyString => []
  | String c s' => Z.of_nat (nat_of_ascii c) :: bytes_of s'
  end.

(** The [n] low bytes of [x], least significant first. *)
Fixpoint le_bytes (n : nat) (x : Z) : list Z :=
  match n with
  | O => []
  | S k => Z.land x 255 :: le_bytes k (Z.shiftr x 8)
  end.

Definition padding (len : nat) : list Z :=
  let zeros := ((55 + 64 - len mod 64) mod 64)%nat in
  128 :: repeat 0 zeros ++ le_bytes 8 (8 * Z.of_nat len).

Fixpoint words (fuel : nat) (bytes : list Z) : list Z :=
  match fuel, bytes with
  | S f, b0 :: b1 :: b2 :: b3 :: rest =>
      (b0 + 256 * (b1 + 256 * (b2 + 256 * b3))) :: words f rest
  | _, _ => []
  end.

Fixpoint blocks (fuel : nat) (ws : list Z) : list (list Z) :=
  match fuel with
  | O => []
  | S f =>
      match ws with
      | [] => []
      | _ => take 16 ws :: blocks f (drop 16 ws)
      end
  end.

Definition hex_digit (n : Z) : ascii :=
  if n <? 10 then ascii_of_nat (Z.to_nat (48 + n))
  else ascii_of_nat (Z.to_nat (87 + n)).

Fixpoint hex_of_bytes (bytes : list Z) : string :=
  match bytes with
  | [] => EmptyString
  | b :: rest =>
      String (hex_digit (Z.shiftr b 4))
        (String (hex_digit (Z.land b 15)) (hex_of_bytes rest))
  end.

Definition hexdigest (s : string) : string :=
  let bytes := bytes_of s in
  let padded := bytes ++ padding (length bytes) in
  let ws := words (length padded) padded in
  let d := fold_left compress (blocks (length ws) ws) init in
  hex_of_bytes (le_bytes 4 (dA d) ++ le_bytes 4 (dB d) ++
                le_bytes 4 (dC d) ++ le_bytes 4 (dD d)).

End MD5.


(** ** The regular expressions of the source, as matchers *)

Module Re.

(** [s[n:]]. *)
Fixpoint str_drop (n : nat) (s : string) : string :=
  match n, s with
  | S k, String _ s' => str_drop k s'
  | _, _ => s
  end.

(** [w\b] anchored at the head of [s]; [w] ends in a word character. *)
Definition word_here (w s : string) : bool :=
  startswith w s &&
  match first_char (str_drop (String.length w) s) with
  | Some c => negb (isword c)
  | None => true
  end.

(** [^(w1|w2|...)\b]. *)
Definition match_start (ws : list string) (s : string) : bool :=
  existsb (fun w => word_here w s) ws.

(** [\b(w1|w2|...)\b] searched from a position whose preceding character
    is a word character or not; every [w] starts with a word character. *)
Fixpoint search_from (prev_word : bool) (ws : list string) (s : string) : bool :=
  (negb prev_word && match_start ws s) ||
  match s with
  | EmptyString => false
  | String c s' => search_from (isword c) ws s'
  end.

Definition search_words (ws : list string) (s : string) : bool :=
  search_from false ws s.

(** [re.sub(r'[^\w\s]', '', s)]. *)
Fixpoint keep_word_space (s : string) : string :=
  match s with
  | EmptyString => EmptyString
  | String c s' =>
      if isword c || isspace c then String c (keep_word_space s')
      else keep_word_space s'
  end.

(** The longest prefix of digits, and what follows it. *)
Fixpoint span_digits (s : string) : string * string :=
  match s with
  | String c s' =>
      if isdigit c then let '(d, r) := span_digits s' in (String c d, r)
      else (EmptyString, s)
  | EmptyString => (EmptyString, EmptyString)
  end.

(** [int(digits)]. *)
Definition int_of_digits (digits : string) : Z :=
  let fix go (acc : Z) (s : string) : Z :=
    match s with
    | EmptyString => acc
    | String c s' => go (10 * acc + Z.of_nat (code c - 48)) s'
    end in
  go 0 digits.

(** [\[(?:~)?(\d+):(\d+)\]] anchored at the head of [s]: the two groups
    and the length of the match. *)
Definition marker_here (s : string) : option (Z * Z * nat) :=
  match s with
  | String "[" s1 =>
      let '(tilde, s2) :=
        match s1 with
        | String "~" s2 => (1%nat, s2)
        | _ => (0%nat, s1)
        end in
      let '(d1, s3) := span_digits s2 in
      match d1, s3 with
      | String _ _, String ":" s4 =>
          let '(d2, s5) := span_digits s4 in
          match d2, s5 with
          | String _ _, String "]" _ =>
              Some (int_of_digits d1, int_of_digits d2,
                    (3 + tilde + String.length d1 + String.length d2)%nat)
          | _, _ => None
          end
      | _, _ => None
      end
  | _ => None
  end.

(** [re.search] of the marker: the groups of the leftmost match. *)
Fixpoint search_marker (s : string) : option (Z * Z) :=
  match marker_here s with
  | Some (m, sec, _) => Some (m, sec)
  | None =>
      match s with
      | EmptyString => None
      | String _ s' => search_marker s'
      end
  end.

(** [re.sub] of the marker by the empty string. *)
Fixpoint remove_markers (skip : nat) (s : string) : string :=
  match s with
  | EmptyString => EmptyString
  | String c s' =>
      match skip with
      | S k => remove_markers k s'
      | O =>
          match marker_here s with
          | Some (_, _, n) => remove_markers (n - 1) s'
          | None => String c (remove_markers 0 s')
          end
      end
  end.

(** [\s*] skipped. *)
Definition skip_spaces (s : string) : string := lstrip s.

(** [re.sub(r'(?i)^final\s+answer\s*:\s*', '', s)]. *)
Definition strip_final_answer (s : string) : string :=
  if startswith "final" (lower (str_take 5 s)) then
    let s1 := str_drop 5 s in
    let s2 := skip_spaces s1 in
    if negb (String.length s2 <? String.length s1)%nat then s
    else if startswith "answer" (lower (str_take 6 s2)) then
      let s3 := skip_spaces (str_drop 6 s2) in
      match s3 with
      | String ":" s4 => skip_spaces s4
      | _ => s
      end
    else s
  else s.

(** The text up to the first occurrence of [sep], or all of it. *)
Fixpoint before (sep s : string) : string :=
  match s with
  | EmptyString => EmptyString
  | String c s' => if startswith sep s then EmptyString else String c (before sep s')
  end.

(** What follows the first occurrence of [needle], if any. *)
Fixpoint after (needle s : string) : option string :=
  if startswith needle s then Some (str_drop (String.length needle) s)
  else match s with
       | EmptyString => None
       | String _ s' => after needle s'
       end.

End Re.

Import Re.

(** ** app.py: follow-up detection, fingerprints, time-window extraction *)

Module app_text.

(** [is_followup_question], the same in app.py and qa_system.py. *)
Definition is_followup_question (query : string) : bool :=
  let q := lower query in
  search_words ["it"; "this"; "that"; "these"; "those"] q
  || search_words ["he"; "she"; "they"] q
  || match_start ["and"; "but"; "so"; "because"] q
  || match_start ["what about"; "how about"] q
  || match_start ["why"; "when"; "where"; "how"] q.

(** [str(b)] for a [bool]. *)
Definition str_bool (b : bool) : string := if b then "True" else "False".

(** [str(x)] for an optional integer. *)
Definition str_opt_Z (x : option Z) : string :=
  match x with Some z => pretty z | None => "None" end.

(** The normalised question text: lower case, then word and white-space
    characters only.  It is the text the code computes for an ASCII
    question ([isascii]); Python lowers and classifies the characters
    beyond ASCII by their code points. *)
Definition clean_q (question : string) : string :=
  keep_word_space (lower question).

(** The text hashed for the per-question cache of [ask]. *)
Definition q_key (question language : string) (is_followup : bool) : string :=
  clean_q question +:+ "_" +:+ language +:+ "_" +:+ str_bool is_followup.

(** The fingerprint of the per-question cache of [ask]. *)
Definition q_hash (question language : string) (is_followup : bool) : string :=
  MD5.hexdigest (q_key question language is_followup).

(** The text hashed for the time-window cache of [ask]. *)
Definition time_segment_key
    (question language : string) (start_time_sec end_time_sec : option Z) : string :=
  question +:+ "_" +:+ language +:+ "_" +:+ str_opt_Z start_time_sec
  +:+ "_" +:+ str_opt_Z end_time_sec.

(** The fingerprint of the time-window cache of [ask]. *)
Definition time_segment_hash
    (question language : string) (start_time_sec end_time_sec : option Z) : string :=
  MD5.hexdigest (time_segment_key question language start_time_sec end_time_sec).

(** The text hashed by [ask_question] and [ask_question_streaming]. *)
Definition qa_key (question language : string) (use_agent : bool) : string :=
  clean_q question +:+ "_" +:+ language +:+ "_" +:+
  (if is_followup_question question then "followup" else "direct")
  +:+ "_" +:+ str_bool use_agent.

Definition qa_hash (question language : string) (use_agent : bool) : string :=
  MD5.hexdigest (qa_key question language use_agent).

(** *** [extract_transcript_segment] *)

(** The loop over the lines: the segments found so far (in order), the
    time of the running segment and its text. *)
Record Scan := {
  segments : list (Z * string);
  current_time : Z;
  current_text : string
}.

Definition flush (sc : Scan) : list (Z * string) :=
  if nonempty (current_text sc) && (0 <? current_time sc)
  then segments sc ++ [(current_time sc, strip (current_text sc))]
  else segments sc.

Definition scan_line (sc : Scan) (line : string) : Scan :=
  match search_marker line with
  | Some (minutes, seconds) =>
      {| segments := flush sc;
         current_time := minutes * 60 + seconds;
         current_text := remove_markers 0 line |}
  | None =>
      {| segments := segments sc;
         current_time := current_time sc;
         current_text := if nonempty (current_text sc)
                         then current_text sc +:+ " " +:+ line
                         else line |}
  end.

(** The timestamped segments read off a transcript. *)
Definition parse_segments (transcript : string) : list (Z * string) :=
  flush (fold_left scan_line (split NL transcript)
           {| segments := []; current_time := 0; current_text := "" |}).

Definition Qmax (a b : Q) : Q := if Qltb a b then b else a.
Definition Qmin (a b : Q) : Q := if Qltb b a then b else a.

Definition Qabs_diff (t : Z) (x : Q) : Q :=
  let d := (inject_Z t - x)%Q in if Qle_bool 0 d then d else (- d)%Q.

(** [f"[{time_sec//60}:{time_sec%60:02d}] {text}"]. *)
Definition format_segment (seg : Z * string) : string :=
  "[" +:+ pretty (fst seg / 60) +:+ ":" +:+ zero_pad 2 (fst seg mod 60)
  +:+ "] " +:+ snd seg.

(** [min(segments, key=lambda x: abs(x[0] - target))]: the first minimum. *)
Fixpoint closest_from (target : Q) (best : Z * string) (rest : list (Z * string))
    : Z * string :=
  match rest with
  | [] => best
  | x :: rest' =>
      closest_from target
        (if Qltb (Qabs_diff (fst x) target) (Qabs_diff (fst best) target)
         then x else best) rest'
  end.

Definition seg_eqb (a b : Z * string) : bool :=
  (fst a =? fst b) && String.eqb (snd a) (snd b).

(** [segments.index(x)] for an [x] of the list. *)
Fixpoint index_of (x : Z * string) (l : list (Z * string)) : nat :=
  match l with
  | [] => O
  | y :: l' => if seg_eqb y x then O else S (index_of x l')
  end.

(** [segments[lo:hi+1]]. *)
Definition slice {A} (lo hi : nat) (l : list A) : list A :=
  take (S hi - lo) (drop lo l).

Definition in_window (lo hi : Q) (seg : Z * string) : bool :=
  Qle_bool lo (inject_Z (fst seg)) && Qle_bool (inject_Z (fst seg)) hi.

Definition extract_transcript_segment
    (transcript : string) (start_time_sec end_time_sec video_duration : Q) : string :=
  if negb (nonempty transcript) then ""
  else if Qltb (end_time_sec - start_time_sec) 60 then transcript
  else
    let segs := parse_segments transcript in
    match segs with
    | [] => transcript
    | first :: others =>
        let padding := 30%Q in
        let start_with_padding := Qmax 0 (start_time_sec - padding) in
        let end_with_padding := Qmin video_duration (end_time_sec + padding) in
        let relevant_segments :=
          List.map format_segment
            (List.filter (in_window start_with_padding end_with_padding) segs) in
        let relevant_segments :=
          match relevant_segments with
          | [] =>
              let closest_start := closest_from start_time_sec first others in
              let closest_end := closest_from end_time_sec first others in
              let start_idx := index_of closest_start segs in
              let end_idx := index_of closest_end segs in
              let '(start_idx, end_idx) :=
                if (end_idx <? start_idx)%nat then (end_idx, start_idx)
                else (start_idx, end_idx) in
              List.map format_segment (slice start_idx end_idx segs)
          | _ => relevant_segments
          end in
        match relevant_segments with
        | [] => transcript
        | _ => join (NL +:+ NL) relevant_segments
        end
    end.

End app_text.

Import app_text.

(** ** The persisted and in-process state *)

Module store.

(** One [data/videos/<id>.json] record.  Keys the source reads with a
    default are fields holding that default when absent. *)
Record VideoInfo := {
  vi_video_id : string;
  vi_title : string;
  vi_duration : Q;
  vi_channel : string;
  vi_language : option string;
  vi_keywords : list string;
  vi_transcript_path : string;
  vi_is_long_video : bool;
  vi_chunks_total : Z;
  vi_chunks_completed : Z;
  vi_processing_status : option string;
  vi_error_message : option string
}.

Definition vi_set_chunks (total completed : Z) (status : option string)
    (v : VideoInfo) : VideoInfo :=
  {| vi_video_id := vi_video_id v; vi_title := vi_title v;
     vi_duration := vi_duration v; vi_channel := vi_channel v;
     vi_language := vi_language v; vi_keywords := vi_keywords v;
     vi_transcript_path := vi_transcript_path v;
     vi_is_long_video := vi_is_long_video v;
     vi_chunks_total := total; vi_chunks_completed := completed;
     vi_processing_status := status;
     vi_error_message := vi_error_message v |}.

Definition vi_set_duration (d : Q) (v : VideoInfo) : VideoInfo :=
  {| vi_video_id := vi_video_id v; vi_title := vi_title v;
     vi_duration := d; vi_channel := vi_channel v;
     vi_language := vi_language v; vi_keywords := vi_keywords v;
     vi_transcript_path := vi_transcript_path v;
     vi_is_long_video := vi_is_long_video v;
     vi_chunks_total := vi_chunks_total v;
     vi_chunks_completed := vi_chunks_completed v;
     vi_processing_status := vi_processing_status v;
     vi_error_message := vi_error_message v |}.

Definition vi_set_error (msg : string) (v : VideoInfo) : VideoInfo :=
  {| vi_video_id := vi_video_id v; vi_title := vi_title v;
     vi_duration := vi_duration v; vi_channel := vi_channel v;
     vi_language := vi_language v; vi_keywords := vi_keywords v;
     vi_transcript_path := vi_transcript_path v;
     vi_is_long_video := vi_is_long_video v;
     vi_chunks_total := vi_chunks_total v;
     vi_chunks_completed := vi_chunks_completed v;
     vi_processing_status := Some "error";
     vi_error_message := Some msg |}.

(** Directories are maps from file names; JSON cache files are maps from
    fingerprints to answers. *)
Record State := {
  (** [data/videos] *)
  video_infos : gmap string VideoInfo;
  (** [data/transcripts] *)
  transcripts : gmap string string;
  (** [data/cache] *)
  cache_files : gmap string (gmap string string);
  (** [data/audio] *)
  audio_files : gset string;
  (** [data/temp] *)
  temp_files : gmap string string;
  (** the vector store: collection name to its documents *)
  collections : gmap string (list string);
  (** [app.conversation_histories] *)
  conversation_histories : gmap string (list (string * string));
  (** [qa_system._memory_cache] *)
  memory_cache : gmap string (gmap string string);
  (** [app.progress_status] *)
  progress_status : progress.Status;
  (** every chat-completion request made so far: system and user prompt *)
  chat_log : list (string * string);
  (** the number of clock readings made so far *)
  ticks : nat
}.

Definition empty : State :=
  {| video_infos := ∅; transcripts := ∅; cache_files := ∅; audio_files := ∅;
     temp_files := ∅; collections := ∅; conversation_histories := ∅;
     memory_cache := ∅; progress_status := progress.initial;
     chat_log := []; ticks := 0 |}.

Definition set_video_infos v (s : State) : State :=
  {| video_infos := v; transcripts := transcripts s;
     cache_files := cache_files s; audio_files := audio_files s;
     temp_files := temp_files s; collections := collections s;
     conversation_histories := conversation_histories s;
     memory_cache := memory_cache s; progress_status := progress_status s;
     chat_log := chat_log s; ticks := ticks s |}.

Definition set_transcripts v (s : State) : State :=
  {| video_infos := video_infos s; transcripts := v;
     cache_files := cache_files s; audio_files := audio_files s;
     temp_files := temp_files s; collections := collections s;
     conversation_histories := conversation_histories s;
     memory_cache := memory_cache s; progress_status := progress_status s;
     chat_log := chat_log s; ticks := ticks s |}.

Definition set_cache_files v (s : State) : State :=
  {| video_infos := video_infos s; transcripts := transcripts s;
     cache_files := v; audio_files := audio_files s;
     temp_files := temp_files s; collections := collections s;
     conversation_histories := conversation_histories s;
     memory_cache := memory_cache s; progress_status := progress_status s;
     chat_log := chat_log s; ticks := ticks s |}.

Definition set_audio_files v (s : State) : State :=
  {| video_infos := video_infos s; transcripts := transcripts s;
     cache_files := cache_files s; audio_files := v;
     temp_files := temp_files s; collections := collections s;
     conversation_histories := conversation_histories s;
     memory_cache := memory_cache s; progress_status := progress_status s;
     chat_log := chat_log s; ticks := ticks s |}.

Definition set_temp_files v (s : State) : State :=
  {| video_infos := video_infos s; transcripts := transcripts s;
     cache_files := cache_files s; audio_files := audio_files s;
     temp_files := v; collections := collections s;
     conversation_histories := conversation_histories s;
     memory_cache := memory_cache s; progress_status := progress_status s;
     chat_log := chat_log s; ticks := ticks s |}.

Definition set_collections v (s : State) : State :=
  {| video_infos := video_infos s; transcripts := transcripts s;
     cache_files := cache_files s; audio_files := audio_files s;
     temp_files := temp_files s; collections := v;
     conversation_histories := conversation_histories s;
     memory_cache := memory_cache s; progress_status := progress_status s;
     chat_log := chat_log s; ticks := ticks s |}.

Definition set_conversation_histories v (s : State) : State :=
  {| video_infos := video_infos s; transcripts := transcripts s;
     cache_files := cache_files s; audio_files := audio_files s;
     temp_files := temp_files s; collections := collections s;
     conversation_histories := v;
     memory_cache := memory_cache s; progress_status := progress_status s;
     chat_log := chat_log s; ticks := ticks s |}.

Definition set_memory_cache v (s : State) : State :=
  {| video_infos := video_infos s; transcripts := transcripts s;
     cache_files := cache_files s; audio_files := audio_files s;
     temp_files := temp_files s; collections := collections s;
     conversation_histories := conversation_histories s;
     memory_cache := v; progress_status := progress_status s;
     chat_log := chat_log s; ticks := ticks s |}.

Definition set_progress_status v (s : State) : State :=
  {| video_infos := video_infos s; transcripts := transcripts s;
     cache_files := cache_files s; audio_files := audio_files s;
     temp_files := temp_files s; collections := collections s;
     conversation_histories := conversation_histories s;
     memory_cache := memory_cache s; progress_status := v;
     chat_log := chat_log s; ticks := ticks s |}.

Definition set_chat_log v (s : State) : State :=
  {| video_infos := video_infos s; transcripts := transcripts s;
     cache_files := cache_files s; audio_files := audio_files s;
     temp_files := temp_files s; collections := collections s;
     conversation_histories := conversation_histories s;
     memory_cache := memory_cache s; progress_status := progress_status s;
     chat_log := v; ticks := ticks s |}.

Definition set_ticks v (s : State) : State :=
  {| video_infos := video_infos s; transcripts := transcripts s;
     cache_files := cache_files s; audio_files := audio_files s;
     temp_files := temp_files s; collections := collections s;
     conversation_histories := conversation_histories s;
     memory_cache := memory_cache s; progress_status := progress_status s;
     chat_log := chat_log s; ticks := v |}.

(** File and collection names. *)
Definition info_file (video_id : string) : string := video_id +:+ ".json".
Definition transcript_file (video_id : string) : string := video_id +:+ ".txt".
Definition cache_file (video_id : string) : string := video_id +:+ ".json".
Definition segments_cache_file (video_id : string) : string :=
  video_id +:+ "_segments.json".
Definition audio_file (video_id : string) : string := video_id +:+ ".mp3".
Definition collection_name (video_id : string) : string :=
  "youtube_transcript_" +:+ video_id.

(** The entries of a directory whose name does not start with [prefix]. *)
Definition without_prefix {V} (prefix : string) (dir : gmap string V)
    : gmap string V :=
  filter (fun entry => startswith prefix (fst entry) = false) dir.

(** [clean_video_data]; the file system never fails here, so the result
    [True] of the source is left out. *)
Definition clean_video_data (video_id : string) (st : State) : State :=
  (* Clear transcript *)
  let st := set_transcripts (delete (transcript_file video_id) (transcripts st)) st in
  (* Clear cache *)
  let st := set_cache_files (delete (cache_file video_id) (cache_files st)) st in
  (* Audio files *)
  let st := set_audio_files (audio_files st ∖ {[audio_file video_id]}) st in
  (* Clear temporary files *)
  let st := set_temp_files (without_prefix (video_id +:+ "_") (temp_files st)) st in
  (* Clear ChromaDB collection *)
  let st := set_collections (delete (collection_name video_id) (collections st)) st in
  (* Clear conversation history *)
  set_conversation_histories
    (without_prefix (video_id +:+ "_") (conversation_histories st)) st.

End store.

Import store.

(** ** qa_system.py: the literal texts

    The prompts, messages and indicator lists of the source, byte for
    byte; [ar] selects the Arabic variant. *)

Module prompts.

Definition DQ : string := String (ascii_of_nat 34) EmptyString.

Definition video_indicators : list string :=
  ["in the video"; "the video"; "this video"; "transcript"; "in it"; "they say"; "mention"; "talk about"; "discuss"; "explain"; "show"; "demonstrate"; "what does"; "where is"; "when does"; "how many"; "why did"; "who is"; "summary"; "summarize"; "summarized"; "summry"; "summrized"; "recap"; "overview"; "sum up"; "synopsis"; "main points"; "key points"; "highlights"; "long summary"; "short summary"; "brief summary"; "detailed summary"; "full summary"; "quick summary"].

Definition casual_indicators : list string :=
  ["hello"; "hi there"; "thank you"; "thanks"; "how are you"; "good morning"; "good afternoon"; "i want"; "please get me"; "give me"; "i need"; "can i have"; "bring me"; "i would like"].

Definition exceptions : list string :=
  ["i need summary"; "i need a summary"; "i need the summary"; "i need long"; "i need a long"; "i need the long"; "i need short"; "i need a short"; "i need the short"; "give me summary"; "give me a summary"; "give me the summary"; "i want summary"; "i want a summary"; "i want the summary"].

Definition summary_terms : list string :=
  ["summary"; "summarize"; "summarized"; "summarization"; "sum up"; "brief"; "overview"; "recap"; "synopsis"; "tldr"; "main points"; "key points"; "ملخص"; "لخص"; "تلخيص"; "موجز"; "نبذة"; "أهم النقاط"].

Definition qa_system_prompt_ar : string :=
  "أنت مساعد ذكي، ومهمتك هي الإجابة على الأسئلة حول نص مقطع من فيديو بناءً على المقتطفات المقدمة من النص.
        
قواعد هامة:
1. إذا كانت المقتطفات النصية لا تحتوي على معلومات كافية للإجابة على السؤال، قل " +:+ DQ +:+ "لا أستطيع الإجابة على هذا السؤال بناءً على نص الفيديو." +:+ DQ +:+ "
2. لا تختلق إجابات أو تفترض معلومات غير موجودة في المقتطفات.
3. استند في إجاباتك فقط على محتوى المقتطفات، وليس على معرفتك الخاصة.
4. كن دقيقًا ومباشرًا في إجاباتك.
5. إذا كان السؤال خارج سياق الفيديو أو غير ذي صلة، فوضح ذلك للمستخدم بطريقة مهذبة.

سيتم تقديم مقتطفات من نص الفيديو، والمطلوب منك الإجابة عن أسئلة المستخدم اعتمادًا على هذه المقتطفات فقط.".

Definition qa_system_prompt_en : string :=
  "You are an intelligent assistant. Your task is to answer questions about a video transcript based on the provided transcript excerpts.

Important rules:
1. If the transcript excerpts don't contain enough information to answer the question, say " +:+ DQ +:+ "I cannot answer this question based on the video transcript." +:+ DQ +:+ "
2. Don't make up answers or assume information not present in the excerpts.
3. Base your answers only on the content of the excerpts, not on your own knowledge.
4. Be concise and direct in your answers.
5. If the question is outside the context of the video or irrelevant, politely clarify this to the user.

You will be given excerpts from the video transcript, and you need to answer the user's questions based solely on these excerpts.".

Definition qa_user_message_ar (question context_text conversation_context : string) : string :=
  "سؤال: " +:+ question +:+ "

مقتطفات من نص الفيديو:
" +:+ context_text +:+ "

" +:+ conversation_context +:+ "

الرجاء الإجابة على السؤال بدقة استنادًا فقط إلى مقتطفات النص المقدمة.".

Definition qa_user_message_en (question context_text conversation_context : string) : string :=
  "Question: " +:+ question +:+ "

Transcript excerpts:
" +:+ context_text +:+ "

" +:+ conversation_context +:+ "

Please answer the question accurately based only on the provided transcript excerpts.".

Definition agent_system_prompt_ar : string :=
  "أنت مساعد ذكي يستخدم نهج التفكير خطوة بخطوة. مهمتك هي الإجابة على الأسئلة حول نص مقطع فيديو.

عند تحليل السؤال، فكر أولاً في:
1. ما هي المعلومات الرئيسية المطلوبة؟
2. هل توجد هذه المعلومات في مقتطفات النص المقدمة؟
3. ما هي الأجزاء الأكثر صلة من النص للإجابة على هذا السؤال؟

من ثم قم بإنشاء إجابة:
1. استند فقط على المعلومات الموجودة في مقتطفات النص.
2. تجنب اختلاق معلومات أو افتراضات خارج النص.
3. إذا كانت المعلومات غير متوفرة، اعترف بذلك بوضوح.

استخدم هذا التنسيق:
الفكر: [تحليلك للسؤال وكيفية الإجابة عليه، وذكر الأدلة من النص]
الإجابة النهائية: [إجابتك المباشرة على السؤال]".

Definition agent_system_prompt_en : string :=
  "You are an intelligent assistant using a step-by-step reasoning approach. Your task is to answer questions about a video transcript.

When analyzing the question, first think about:
1. What key information is being asked for?
2. Is this information present in the provided transcript excerpts?
3. Which parts of the transcript are most relevant to answering this question?

Then formulate an answer:
1. Base your answer solely on information in the transcript excerpts.
2. Avoid making up information or assumptions beyond the transcript.
3. If information is not available, clearly acknowledge this.

Use this format:
Thought: [your analysis of the question and how to answer it, citing evidence from the transcript]
Final Answer: [your direct answer to the question]".

Definition agent_user_message_ar (question context_text conversation_context : string) : string :=
  "سؤال: " +:+ question +:+ "

مقتطفات من نص الفيديو:
" +:+ context_text +:+ "

" +:+ conversation_context +:+ "

الرجاء التفكير خطوة بخطوة ثم تقديم إجابتك النهائية.".

Definition agent_user_message_en (question context_text conversation_context : string) : string :=
  "Question: " +:+ question +:+ "

Transcript excerpts:
" +:+ context_text +:+ "

" +:+ conversation_context +:+ "

Please think step-by-step and then provide your final answer.".

Definition history_header_ar : string :=
  "

سياق المحادثة السابقة:
".

Definition history_header_en : string :=
  "

Previous conversation context:
".

Definition history_question_ar (i : nat) (q : string) : string :=
  "سؤال " +:+ pretty (Z.of_nat i + 1) +:+ ": " +:+ q +:+ "
".

Definition history_answer_ar (i : nat) (a : string) : string :=
  "إجابة " +:+ pretty (Z.of_nat i + 1) +:+ ": " +:+ a +:+ "

".

Definition history_question_en (i : nat) (q : string) : string :=
  "Question " +:+ pretty (Z.of_nat i + 1) +:+ ": " +:+ q +:+ "
".

Definition history_answer_en (i : nat) (a : string) : string :=
  "Answer " +:+ pretty (Z.of_nat i + 1) +:+ ": " +:+ a +:+ "

".

Definition no_transcript_ar : string :=
  "عذراً، لا يوجد نص متاح لهذا الفيديو.".

Definition no_transcript_en : string :=
  "Sorry, there is no transcript available for this video.".

Definition not_related_ar : string :=
  "الرجاء طرح سؤال متعلق بالفيديو.".

Definition not_related_en : string :=
  "Please ask a question related to the video transcript.".

Definition qa_error_ar : string :=
  "عذراً، حدث خطأ أثناء معالجة السؤال. الرجاء المحاولة مرة أخرى.".

Definition qa_error_en : string :=
  "Sorry, an error occurred while processing your question. Please try again.".

Definition summary_system_prompt_ar (summary_type : string) : string :=
  "أنت مساعد ذكي متخصص في تلخيص محتوى الفيديو. قم بإنشاء ملخص " +:+ summary_type +:+ " لنص الفيديو المقدم.
        
قواعد التلخيص:
1. ركز على النقاط والمعلومات الرئيسية.
2. تضمين العناوين الفرعية إذا كان ذلك مناسبًا.
3. الحفاظ على تسلسل منطقي للأفكار.
4. تجنب التفاصيل غير الضرورية.
5. الاختصار مع الحفاظ على المعنى الكامل.".

Definition summary_system_prompt_en (summary_type : string) : string :=
  "You are an intelligent assistant specialized in summarizing video content. Create a " +:+ summary_type +:+ " summary of the provided video transcript.
        
Summarization rules:
1. Focus on key points and information.
2. Include subheadings if appropriate.
3. Maintain a logical flow of ideas.
4. Omit unnecessary details.
5. Be concise while preserving full meaning.".

Definition too_short_ar : string :=
  "النص قصير جدًا للتلخيص.".

Definition too_short_en : string :=
  "The transcript is too short to summarize.".

Definition summary_final_prompt_ar (combined_summaries summary_type : string) : string :=
  "فيما يلي ملخصات لأجزاء مختلفة من نص الفيديو:

" +:+ combined_summaries +:+ "

قم بدمج هذه الملخصات في ملخص " +:+ summary_type +:+ " واحد متماسك للفيديو بأكمله، مع إزالة أي تكرار وضمان تدفق المعلومات بشكل منطقي.".

Definition summary_final_prompt_en (combined_summaries summary_type : string) : string :=
  "Below are summaries of different parts of the video transcript:

" +:+ combined_summaries +:+ "

Combine these summaries into one coherent " +:+ summary_type +:+ " summary of the entire video, removing any repetition and ensuring a logical flow of information.".

Definition summary_user_message_ar (transcript summary_type : string) : string :=
  "نص الفيديو:

" +:+ transcript +:+ "

قم بإنشاء ملخص " +:+ summary_type +:+ " لهذا الفيديو، مع التركيز على النقاط الرئيسية والمعلومات المهمة.".

Definition summary_user_message_en (transcript summary_type : string) : string :=
  "Video transcript:

" +:+ transcript +:+ "

Create a " +:+ summary_type +:+ " summary of this video, focusing on the main points and important information.".

Definition summary_part_message_ar (idx n_chunks : nat) (chunk : string) : string :=
  "جزء " +:+ pretty (Z.of_nat idx + 1) +:+ "/" +:+ pretty (Z.of_nat n_chunks) +:+ " من نص الفيديو:

" +:+ chunk +:+ "

قم بتلخيص هذا الجزء من النص، مع التركيز على النقاط الرئيسية والمعلومات المهمة.".

Definition summary_part_message_en (idx n_chunks : nat) (chunk : string) : string :=
  "Part " +:+ pretty (Z.of_nat idx + 1) +:+ "/" +:+ pretty (Z.of_nat n_chunks) +:+ " of the video transcript:

" +:+ chunk +:+ "

Summarize this portion of the transcript, focusing on the main points and important information.".

Definition summary_final_error_ar : string :=
  "عذراً، حدث خطأ أثناء إنشاء الملخص النهائي.".

Definition summary_final_error_en : string :=
  "Sorry, an error occurred while creating the final summary.".

Definition summary_error_ar : string :=
  "عذراً، حدث خطأ أثناء تلخيص النص. الرجاء المحاولة مرة أخرى.".

Definition summary_error_en : string :=
  "Sorry, an error occurred while summarizing the transcript. Please try again.".

Definition still_processing_ar (completion_percentage : Z) : string :=
  "جاري معالجة الفيديو (" +:+ pretty completion_percentage +:+ "% مكتمل). يرجى المحاولة لاحقًا.".

Definition still_processing_en (completion_percentage : Z) : string :=
  "Video is still processing (" +:+ pretty completion_percentage +:+ "% complete). Please try again later.".

Definition part_error_ar (idx : nat) : string :=
  "[خطأ في تلخيص الجزء " +:+ pretty (Z.of_nat idx + 1) +:+ "]".

Definition part_error_en (idx : nat) : string :=
  "[Error summarizing part " +:+ pretty (Z.of_nat idx + 1) +:+ "]".

Definition ask_no_question_ar : string := "الرجاء طرح سؤال".
Definition ask_no_question_en : string := "Please ask a question.".
Definition ask_not_found_ar : string := "فيديو غير موجود".
Definition ask_not_found_en : string := "Video not found.".
Definition ask_no_transcript_ar : string := "لا يوجد نص متاح...".
Definition ask_no_transcript_en : string := "No transcript available...".

End prompts.

(** ** qa_system.py *)

Module qa_system.

Import prompts.

Record Services := {
  (** the chat-completion capability: the index of the request among all
      requests made so far, the system prompt, the user prompt; its result
      is the content of the first choice *)
  chat_completion : nat -> string -> string -> option string;
  (** embedding the question and querying a collection, given as its
      documents, for the [top_k] nearest ones *)
  query_collection : string -> list string -> nat -> option (list string)
}.

Definition ar (language : string) : bool := String.eqb language "ar".

Definition any_in (needles : list string) (hay : string) : bool :=
  existsb (fun needle => contains needle hay) needles.

(** [s.split()]: the maximal runs of characters that are not white space. *)
Fixpoint split_whitespace (s : string) : list string :=
  match s with
  | EmptyString => []
  | String c s' =>
      if isspace c then split_whitespace s'
      else match s' with
           | String d _ =>
               if isspace d then String c EmptyString :: split_whitespace s'
               else cons_head c (split_whitespace s')
           | EmptyString => [String c EmptyString]
           end
  end.

Definition is_video_related_question (question video_title : string) : bool :=
  let question_lower := lower question in
  if any_in exceptions question_lower then true
  else if any_in video_indicators question_lower then true
  else if any_in casual_indicators question_lower then
    contains "summary" question_lower || contains "summarize" question_lower
    || contains "recap" question_lower
  else if nonempty video_title
          && any_in (List.map lower
                       (List.filter (fun word => (3 <? String.length word)%nat)
                                    (split_whitespace video_title)))
                    question_lower
  then true
  else true.

Definition is_summary_request (query : string) : bool :=
  any_in summary_terms (lower query).

Section QA.
Context (W : Services).

Definition get_video_title (video_id : string) (st : State) : string :=
  match video_infos st !! info_file video_id with
  | Some info => vi_title info
  | None => "Video " +:+ video_id
  end.

Definition retrieve_relevant_context
    (question video_id : string) (top_k : nat) (st : State) : list string :=
  match collections st !! collection_name video_id with
  | None => []
  | Some documents =>
      match query_collection W question documents top_k with
      | Some found => found
      | None => []
      end
  end.

Definition memory_lookup (hash_key video_id : string) (st : State) : option string :=
  match memory_cache st !! video_id with
  | Some entries => entries !! hash_key
  | None => None
  end.

Definition memory_store (hash_key answer video_id : string) (st : State) : State :=
  set_memory_cache
    (<[video_id := <[hash_key := answer]>
                     (default ∅ (memory_cache st !! video_id))]>
       (memory_cache st)) st.

Definition get_cached_answer (hash_key video_id : string) (st : State)
    : option string * State :=
  match memory_lookup hash_key video_id st with
  | Some answer => (Some answer, st)
  | None =>
      match cache_files st !! cache_file video_id with
      | Some cache =>
          match cache !! hash_key with
          | Some answer =>
              (Some answer,
               if nonempty answer then memory_store hash_key answer video_id st
               else st)
          | None => (None, st)
          end
      | None => (None, st)
      end
  end.

Definition save_to_cache (hash_key answer video_id : string) (st : State) : State :=
  let st := memory_store hash_key answer video_id st in
  let data := default ∅ (cache_files st !! cache_file video_id) in
  set_cache_files
    (<[cache_file video_id := <[hash_key := answer]> data]> (cache_files st)) st.

(** The block of earlier turns put into the user prompt. *)
Fixpoint history_turns (language : string) (i : nat)
    (history : list (string * string)) : string :=
  match history with
  | [] => ""
  | (q, a) :: rest =>
      (if ar language
       then history_question_ar i q +:+ history_answer_ar i a
       else history_question_en i q +:+ history_answer_en i a)
      +:+ history_turns language (S i) rest
  end.

Definition conversation_context
    (language : string) (conversation_history : option (list (string * string)))
    : string :=
  match conversation_history with
  | Some (turn :: rest) =>
      (if ar language then history_header_ar else history_header_en)
      +:+ history_turns language 0 (turn :: rest)
  | _ => ""
  end.

Definition context_text (context : list string) : string :=
  join (NL +:+ NL +:+ "---" +:+ NL +:+ NL) context.

(** [generate_prompt]: the system and the user prompt. *)
Definition generate_prompt
    (question : string) (context : list string) (language : string)
    (conversation_history : option (list (string * string))) : string * string :=
  let ctx := context_text context in
  let conv := conversation_context language conversation_history in
  if ar language
  then (qa_system_prompt_ar, qa_user_message_ar question ctx conv)
  else (qa_system_prompt_en, qa_user_message_en question ctx conv).

Definition generate_agent_prompt
    (question : string) (context : list string) (language : string)
    (conversation_history : option (list (string * string))) : string * string :=
  let ctx := context_text context in
  let conv := conversation_context language conversation_history in
  if ar language
  then (agent_system_prompt_ar, agent_user_message_ar question ctx conv)
  else (agent_system_prompt_en, agent_user_message_en question ctx conv).

(** One request to the chat-completion capability, recorded in the log. *)
Definition chat (system user : string) (st : State) : option string * State :=
  (chat_completion W (length (chat_log st)) system user,
   set_chat_log (chat_log st ++ [(system, user)]) st).

(** *** [summarize_transcript] *)

(** [transcript[i:min(i + 4000, len)]] for [i] in [range(0, len, 3500)],
    stopping at the chunk that reaches the end. *)
Fixpoint summary_chunks (fuel i : nat) (transcript : string) : list string :=
  match fuel with
  | O => []
  | S f =>
      let len := String.length transcript in
      if (len <=? i)%nat then []
      else
        let end_idx := Nat.min (i + 4000) len in
        String.substring i (end_idx - i) transcript ::
        (if (end_idx =? len)%nat then []
         else summary_chunks f (i + 3500) transcript)
  end.

Fixpoint summarize_parts (system_prompt language : string) (n_chunks idx : nat)
    (chunks : list string) (st : State) : list string * State :=
  match chunks with
  | [] => ([], st)
  | chunk :: rest =>
      let user_message :=
        if ar language then summary_part_message_ar idx n_chunks chunk
        else summary_part_message_en idx n_chunks chunk in
      let '(response, st) := chat system_prompt user_message st in
      let summary :=
        match response with
        | Some content => strip content
        | None => if ar language then part_error_ar idx else part_error_en idx
        end in
      let '(summaries, st) :=
        summarize_parts system_prompt language n_chunks (S idx) rest st in
      (summary :: summaries, st)
  end.

Definition summarize_transcript
    (transcript length language : string) (st : State) : string * State :=
  if negb (nonempty transcript) || (String.length (strip transcript) <? 50)%nat
  then (if ar language then too_short_ar else too_short_en, st)
  else
    let summary_type :=
      if String.eqb length "short" then "concise"
      else if String.eqb length "long" then "comprehensive"
      else "balanced" in
    let system_prompt :=
      if ar language then summary_system_prompt_ar summary_type
      else summary_system_prompt_en summary_type in
    if 10000 <? Z.of_nat (String.length transcript) then
      let chunks := summary_chunks (String.length transcript) 0 transcript in
      let '(summaries, st) :=
        summarize_parts system_prompt language (List.length chunks) 0 chunks st in
      let combined_summaries := join (NL +:+ NL) summaries in
      let final_prompt :=
        if ar language then summary_final_prompt_ar combined_summaries summary_type
        else summary_final_prompt_en combined_summaries summary_type in
      let '(response, st) := chat system_prompt final_prompt st in
      match response with
      | Some content => (strip content, st)
      | None =>
          (if ar language then summary_final_error_ar else summary_final_error_en, st)
      end
    else
      let user_message :=
        if ar language then summary_user_message_ar transcript summary_type
        else summary_user_message_en transcript summary_type in
      let '(response, st) := chat system_prompt user_message st in
      match response with
      | Some content => (strip content, st)
      | None => (if ar language then summary_error_ar else summary_error_en, st)
      end.

(** *** The windowed split of the raw transcript *)

Record Window := {
  chunks : list string;
  current_chunk : list string;
  current_size : nat
}.

Definition max_chunk_size : nat := 1000.

(** [l[-n:]] for [0 < n]. *)
Definition last_n {A} (n : nat) (l : list A) : list A :=
  drop (List.length l - n) l.

Definition sum_lengths (lines : list string) : nat :=
  fold_right (fun line acc => (String.length line + acc)%nat) 0%nat lines.

(** The sliding window over the lines of a long transcript. *)
Definition window_line (w : Window) (line : string) : Window :=
  let w :=
    if (max_chunk_size <? current_size w + String.length line)%nat
       && negb (Nat.eqb (List.length (current_chunk w)) 0)
    then
      let overlap_size := Nat.min 3 (List.length (current_chunk w)) in
      let kept := if (0 <? overlap_size)%nat
                  then last_n overlap_size (current_chunk w) else [] in
      {| chunks := chunks w ++ [join NL (current_chunk w)];
         current_chunk := kept;
         current_size := sum_lengths kept |}
    else w in
  {| chunks := chunks w;
     current_chunk := current_chunk w ++ [line];
     current_size := (current_size w + String.length line)%nat |}.

(** The grouping of the paragraphs of a shorter transcript. *)
Definition window_paragraph (w : Window) (para : string) : Window :=
  let w :=
    if (max_chunk_size <? current_size w + String.length para)%nat
       && negb (Nat.eqb (List.length (current_chunk w)) 0)
    then {| chunks := chunks w ++ [join (NL +:+ NL) (current_chunk w)];
            current_chunk := [];
            current_size := 0 |}
    else w in
  {| chunks := chunks w;
     current_chunk := current_chunk w ++ [para];
     current_size := (current_size w + String.length para + 2)%nat |}.

Definition close_window (sep : string) (w : Window) : list string :=
  match current_chunk w with
  | [] => chunks w
  | _ => chunks w ++ [join sep (current_chunk w)]
  end.

Definition start_window : Window :=
  {| chunks := []; current_chunk := []; current_size := 0 |}.

Definition transcript_windows (transcript : string) : list string :=
  let chunks :=
    if 10000 <? Z.of_nat (String.length transcript) then
      close_window NL
        (fold_left window_line (split NL transcript) start_window)
    else
      close_window (NL +:+ NL)
        (fold_left window_paragraph (split (NL +:+ NL) transcript) start_window) in
  (* max_chunks = 5: chunks[:5 // 2] + chunks[-5 // 2:] *)
  if (5 <? List.length chunks)%nat
  then take 2 chunks ++ last_n 3 chunks
  else chunks.

(** *** [ask_question] *)

(** [not conversation_history]. *)
Definition no_history (conversation_history : option (list (string * string)))
    : bool :=
  match conversation_history with
  | Some (_ :: _) => false
  | _ => true
  end.

(** The condition under which [ask_question] consults and fills the
    answer cache. *)
Definition caches (question : string)
    (conversation_history : option (list (string * string))) : bool :=
  negb (is_followup_question question) || no_history conversation_history.

(** The final answer taken out of an agent-format completion. *)
Definition final_answer (use_agent : bool) (answer : string) : string :=
  if use_agent && contains "Final Answer:" answer then
    match after "Final Answer:" answer with
    | Some tail => strip (before (NL +:+ NL) tail)
    | None => answer
    end
  else answer.

Definition ask_question
    (question transcript video_id language : string) (use_agent : bool)
    (conversation_history : option (list (string * string)))
    (video_title : string) (st : State) : string * State :=
  let video_title :=
    if negb (nonempty video_title) && nonempty video_id
    then get_video_title video_id st else video_title in
  if (no_history conversation_history || negb (is_followup_question question))
     && negb (is_video_related_question question video_title)
  then (if ar language then not_related_ar else not_related_en, st)
  else if negb (nonempty transcript) || (String.length (strip transcript) <? 10)%nat
  then (if ar language then no_transcript_ar else no_transcript_en, st)
  else if is_summary_request question
  then summarize_transcript transcript "medium" language st
  else
    let q_hash := qa_hash question language use_agent in
    let '(cached_answer, st) :=
      if caches question conversation_history
      then get_cached_answer q_hash video_id st
      else (None, st) in
    match truthy cached_answer with
    | Some answer => (answer, st)
    | None =>
        let context :=
          if nonempty video_id
          then retrieve_relevant_context question video_id 5 st else [] in
        let context :=
          match context with
          | [] => transcript_windows transcript
          | _ => context
          end in
        let '(system, user) :=
          if use_agent
          then generate_agent_prompt question context language conversation_history
          else generate_prompt question context language conversation_history in
        let '(response, st) := chat system user st in
        match response with
        | Some content =>
            let answer := final_answer use_agent (strip content) in
            let st :=
              if caches question conversation_history
              then save_to_cache q_hash answer video_id st else st in
            (answer, st)
        | None => (if ar language then qa_error_ar else qa_error_en, st)
        end
    end.

End QA.

End qa_system.

(** ** app.py: the question endpoint *)

Module app.

Import prompts.

(** Everything outside the process. *)
Record World := {
  (** [time.time()] at the n-th reading *)
  clock : nat -> Q;
  (** [youtube_handler.extract_video_id] *)
  extract_video_id : string -> string;
  (** [youtube_handler.get_video_info]: title, duration, channel *)
  get_video_info : string -> string * Q * string;
  (** [youtube_handler.download_audio] leaving the file at the given path *)
  download_audio : string -> string -> bool;
  audio : audio_processing.Services;
  speech : transcription.Services;
  qa : qa_system.Services;
  (** the transcoder cutting a super-chunk: input, start, end, output *)
  ffmpeg_chunk : string -> Q -> Q -> string -> bool;
  (** [rag_pipeline.split_text] with its chunk size and overlap *)
  split_text : string -> Z -> Z -> list string;
  (** [rag_pipeline.extract_keywords] *)
  extract_keywords : string -> Z -> list string;
  (** whether [rag_pipeline.create_embeddings] returns one vector per text *)
  create_embeddings : list string -> bool
}.

(** The JSON body and the session cookie of a question request. *)
Record AskRequest := {
  query : option string;
  language : string;
  use_agent : bool;
  start_time : option Z;
  end_time : option Z;
  is_followup : option bool;
  session_id : option string
}.

Record Response := {
  answer : string;
  cached : option bool;
  processing_status : option string;
  status_code : Z;
  (** the session id the response cookie carries *)
  session : option string
}.

Definition plain (msg : string) (req : AskRequest) : Response :=
  {| answer := msg; cached := None; processing_status := None;
     status_code := 200; session := session_id req |}.

Definition answered (msg : string) (hit : bool) (sid : string) : Response :=
  {| answer := msg; cached := Some hit; processing_status := None;
     status_code := 200; session := Some sid |}.

(** [x or 0] / [x or default]. *)
Definition or_else (x : option Z) (default : Q) : Q :=
  match x with
  | Some z => if z =? 0 then default else inject_Z z
  | None => default
  end.

Definition is_ar (language : string) : bool := String.eqb language "ar".

Section Ask.
Context (W : World).

Definition read_clock (st : State) : Q * State :=
  (clock W (ticks st), set_ticks (S (ticks st)) st).

(** [get_conversation_history]: the session id and the state in which the
    session has a history. *)
Definition get_conversation_history (req : AskRequest) (video_id : string)
    (st : State) : string * State :=
  let '(sid, st) :=
    match session_id req with
    | Some sid => if nonempty sid then (sid, st)
                  else let '(now, st) := read_clock st in
                       (video_id +:+ "_" +:+ pretty (int_of_Q now), st)
    | None => let '(now, st) := read_clock st in
              (video_id +:+ "_" +:+ pretty (int_of_Q now), st)
    end in
  match conversation_histories st !! sid with
  | Some _ => (sid, st)
  | None =>
      (sid, set_conversation_histories (<[sid := []]> (conversation_histories st)) st)
  end.

Definition history_of (sid : string) (st : State) : list (string * string) :=
  default [] (conversation_histories st !! sid).

(** [conversation_history.append(turn)], then [pop(0)] beyond ten turns. *)
Definition remember (sid : string) (turn : string * string) (st : State) : State :=
  let h := history_of sid st ++ [turn] in
  let h := if (10 <? length h)%nat then tail h else h in
  set_conversation_histories (<[sid := h]> (conversation_histories st)) st.

Definition time_prefix (start_q end_q : Q) : string :=
  "[" +:+ pretty (Qfloordiv start_q 60)
  +:+ ":" +:+ zero_pad 2 (int_of_Q (Qmod start_q 60))
  +:+ " - " +:+ pretty (Qfloordiv end_q 60)
  +:+ ":" +:+ zero_pad 2 (int_of_Q (Qmod end_q 60)) +:+ "] ".

(** The branch of [ask] for a question with a time window. *)
Definition ask_time_window
    (video_id question : string) (req : AskRequest) (info : VideoInfo)
    (full_transcript sid : string) (followup : bool) (st : State)
    : Response * State :=
  let start_q := or_else (start_time req) 0 in
  let end_q := or_else (end_time req) (vi_duration info) in
  let segment_transcript :=
    extract_transcript_segment full_transcript start_q end_q (vi_duration info) in
  let h := time_segment_hash question (language req) (start_time req) (end_time req) in
  let cached_answer :=
    match cache_files st !! segments_cache_file video_id with
    | Some entries => entries !! h
    | None => None
    end in
  match truthy cached_answer with
  | Some hit =>
      let st := remember sid (question, hit) st in
      (answered hit true sid, st)
  | None =>
      let '(ans, st) :=
        qa_system.ask_question (qa W) question segment_transcript video_id
          (language req) (use_agent req)
          (if followup then Some (history_of sid st) else None)
          (vi_title info) st in
      let ans := time_prefix start_q end_q +:+ ans in
      let segment_cache :=
        default ∅ (cache_files st !! segments_cache_file video_id) in
      let st :=
        set_cache_files
          (<[segments_cache_file video_id := <[h := ans]> segment_cache]>
             (cache_files st)) st in
      let st := remember sid (question, ans) st in
      (answered ans false sid, st)
  end.

(** The branch of [ask] for a question on the whole transcript. *)
Definition ask_full
    (video_id question : string) (req : AskRequest) (info : VideoInfo)
    (transcript sid : string) (followup : bool) (st : State)
    : Response * State :=
  let h := q_hash question (language req) followup in
  let cached_answer :=
    match cache_files st !! cache_file video_id with
    | Some entries => if negb followup then entries !! h else None
    | None => None
    end in
  match truthy cached_answer with
  | Some hit =>
      let st := remember sid (question, hit) st in
      (answered hit true sid, st)
  | None =>
      let '(ans, st) :=
        qa_system.ask_question (qa W) question transcript video_id
          (language req) (use_agent req)
          (if followup then Some (history_of sid st) else None)
          (vi_title info) st in
      let ans := if is_ar (language req) && use_agent req
                 then strip (strip_final_answer ans) else ans in
      let st :=
        if negb followup then
          let data_cache := default ∅ (cache_files st !! cache_file video_id) in
          set_cache_files
            (<[cache_file video_id := <[h := ans]> data_cache]> (cache_files st)) st
        else st in
      let st := remember sid (question, ans) st in
      (answered ans false sid, st)
  end.

(** A long video whose record is not complete and whose counters say
    that super-chunks are missing. *)
Definition still_processing (info : VideoInfo) : bool :=
  vi_is_long_video info
  && negb (match vi_processing_status info with
           | Some status => String.eqb status "complete"
           | None => false
           end)
  && (vi_chunks_completed info <? vi_chunks_total info).

(** The follow-up status of a question: the flag of the request, or the
    wording of the question once the session has a history. *)
Definition followup_status (req : AskRequest) (question : string)
    (history : list (string * string)) : bool :=
  match is_followup req with
  | Some flag => flag
  | None => is_followup_question question && (0 <? length history)%nat
  end.

(** [start_time_sec is not None or end_time_sec is not None]. *)
Definition has_window (req : AskRequest) : bool :=
  match start_time req, end_time req with
  | None, None => false
  | _, _ => true
  end.

(** [POST /videos/{video_id}/question]. *)
Definition ask (video_id : string) (req : AskRequest) (st : State)
    : Response * State :=
  let lang_ar := is_ar (language req) in
  match query req with
  | None | Some EmptyString =>
      (plain (if lang_ar then ask_no_question_ar else ask_no_question_en) req, st)
  | Some question =>
      match video_infos st !! info_file video_id with
      | None =>
          (plain (if lang_ar then ask_not_found_ar else ask_not_found_en) req, st)
      | Some info =>
          if still_processing info then
            match (if vi_chunks_total info =? 0 then None
                   else F64.percent (vi_chunks_completed info) (vi_chunks_total info))
            with
            | Some completion_percentage =>
                ({| answer := if lang_ar
                              then still_processing_ar completion_percentage
                              else still_processing_en completion_percentage;
                    cached := None;
                    processing_status := Some "in_progress";
                    status_code := 200;
                    session := session_id req |}, st)
            | None =>
                ({| answer := "Error: division by zero";
                    cached := None; processing_status := None;
                    status_code := 500; session := session_id req |}, st)
            end
          else
            match transcripts st !! transcript_file video_id with
            | None =>
                (plain (if lang_ar then ask_no_transcript_ar
                        else ask_no_transcript_en) req, st)
            | Some transcript =>
                let '(sid, st) := get_conversation_history req video_id st in
                let followup := followup_status req question (history_of sid st) in
                if has_window req
                then ask_time_window video_id question req info transcript sid
                       followup st
                else ask_full video_id question req info transcript sid followup st
            end
      end
  end.

End Ask.

(** *** Processing a video *)

Record ProcessRequest := {
  url : option string;
  p_language : option string;
  force_chunked : bool
}.

(** The arguments of the background task [process_long_video]. *)
Record Job := {
  j_url : string;
  j_video_id : string;
  j_audio_path : string;
  j_transcript_path : string;
  j_language : option string;
  j_title : string;
  j_duration : Q;
  j_channel : string
}.

Inductive ProcessResponse :=
| HTTPError (code : Z) (detail : string)
| Started (video_id title : string) (duration : Q)
| Processed (video_id title transcript_preview : string)
            (language : option string) (keywords : list string).

Definition AUDIO_DIR : string := "data/audio".
Definition TRANSCRIPT_DIR : string := "data/transcripts".
Definition TEMP_DIR : string := "data/temp".

Section Process.
Context (W : World).

Definition progress_update (u : progress.Update) (st : State) : State :=
  let '(now, st) := read_clock W st in
  set_progress_status (progress.update_progress now u (progress_status st)) st.

(** [rag_pipeline.embed_and_store]: the batches whose embeddings were
    created are added to the collection, which is created when missing. *)
Definition embed_and_store (chunks : list string) (name : string) (st : State)
    : State :=
  match chunks with
  | [] => st
  | _ =>
      let existing := default [] (collections st !! name) in
      let batch_size := Nat.min 50 (length chunks) in
      let stored :=
        List.concat
          (List.filter (create_embeddings W)
             (audio_processing.batches (length chunks) batch_size chunks)) in
      set_collections (<[name := existing ++ stored]> (collections st)) st
  end.

(** The language recorded for a transcript. *)
Definition detected_language (language : option string) (transcript : string)
    : option string :=
  if transcription.language_given language then language
  else match transcription.detect (speech W) (str_take 500 transcript) with
       | Some l => Some l
       | None => Some "en"
       end.

(** [total_chunks]: [max(1, int(d / c) + (1 if d % c > 0 else 0))]. *)
Definition total_chunks_of (duration : Q) (chunk_duration : Z) : Z :=
  Z.max 1 (int_of_Q (duration / inject_Z chunk_duration)
           + (if Qltb 0 (Qmod duration chunk_duration) then 1 else 0)).

Definition chunk_duration_of (duration : Q) : Z :=
  if Qltb 7200 duration then 1800 else 1200.

(** The tail of the direct path, from the transcript on. *)
Definition finish_direct
    (video_id title channel : string) (video_duration : Q)
    (language : option string) (video_transcript_path transcript : string)
    (st : State) : ProcessResponse * State :=
  let lang := detected_language language transcript in
  let st := set_transcripts
              (<[transcript_file video_id := transcript]> (transcripts st)) st in
  let keywords := extract_keywords W transcript 10 in
  let chunk_size :=
    if 200000 <? Z.of_nat (String.length transcript) then 500 else 350 in
  let st := progress_update
              (progress.upd "Building semantic index..." (Some 80) video_id) st in
  let chunks := split_text W transcript chunk_size 50 in
  let st := embed_and_store chunks (collection_name video_id) st in
  let video_info :=
    {| vi_video_id := video_id; vi_title := title;
       vi_duration := video_duration; vi_channel := channel;
       vi_language := lang; vi_keywords := keywords;
       vi_transcript_path := video_transcript_path;
       vi_is_long_video := false;
       vi_chunks_total := 0; vi_chunks_completed := 0;
       vi_processing_status := None;
       vi_error_message := None |} in
  let st := set_video_infos
              (<[info_file video_id := video_info]> (video_infos st)) st in
  let st := progress_update
              (progress.upd "Processing complete!" (Some 100) video_id) st in
  (Processed video_id title
     (if (500 <? String.length transcript)%nat
      then str_take 500 transcript +:+ "..." else transcript)
     lang keywords,
   st).

(** The direct path: download, split, transcribe, then the tail. *)
Definition process_direct
    (the_url video_id title channel : string) (video_duration : Q)
    (language : option string) (st : State) : ProcessResponse * State :=
  let video_audio_path := AUDIO_DIR +:+ "/" +:+ audio_file video_id in
  let video_transcript_path :=
    TRANSCRIPT_DIR +:+ "/" +:+ transcript_file video_id in
  let st := progress_update
              (progress.upd "Downloading audio..." (Some 25) video_id) st in
  if negb (download_audio W the_url video_audio_path)
  then (HTTPError 500 "Failed to download audio", st)
  else
    let st := set_audio_files (audio_files st ∪ {[audio_file video_id]}) st in
    let max_segment_seconds := if Qltb 3600 video_duration then 60 else 120 in
    let st := progress_update
                (progress.upd "Processing audio..." (Some 40) video_id) st in
    match audio_processing.split_audio (audio W) video_audio_path
            max_segment_seconds false with
    | None => (HTTPError 500 "Processing error: float division by zero", st)
    | Some [] => (HTTPError 500 "Failed to split audio", st)
    | Some segments =>
        let st := progress_update
                    (progress.upd "Transcribing audio..." (Some 60) video_id) st in
        let transcript :=
          transcription.transcribe_segments (speech W) segments language in
        if negb (nonempty (strip transcript))
        then (HTTPError 500 "Failed to transcribe audio", st)
        else finish_direct video_id title channel video_duration language
               video_transcript_path transcript st
    end.

(** The record written before the background task is scheduled. *)
Definition initial_video_info
    (video_id title channel : string) (video_duration : Q)
    (language : option string) : VideoInfo :=
  {| vi_video_id := video_id; vi_title := title;
     vi_duration := video_duration; vi_channel := channel;
     vi_language := language; vi_keywords := [];
     vi_transcript_path := TRANSCRIPT_DIR +:+ "/" +:+ transcript_file video_id;
     vi_is_long_video := true;
     vi_chunks_total := 0; vi_chunks_completed := 0;
     vi_processing_status := Some "initializing";
     vi_error_message := None |}.

(** The state in which [process] has reset the tracker and cleaned the
    data of the video: the new run has started. *)
Definition process_started (video_id : string) (st : State) : State :=
  let '(now, st) := read_clock W st in
  let st := progress_update
              (progress.with_started_at now
                 (progress.upd "Starting process..." (Some 0) video_id)) st in
  clean_video_data video_id st.

(** [POST /videos/process]: the response, the state and the background
    task it schedules. *)
Definition process (req : ProcessRequest) (st : State)
    : ProcessResponse * State * option Job :=
  match url req with
  | None | Some EmptyString => (HTTPError 400 "Missing URL", st, None)
  | Some the_url =>
      let video_id := extract_video_id W the_url in
      if negb (nonempty video_id) then (HTTPError 400 "Invalid YouTube URL", st, None)
      else
        let language := p_language req in
        let st := process_started video_id st in
        let st := progress_update
                    (progress.upd "Getting video information..." (Some 10) video_id)
                    st in
        let '(title, video_duration, channel) := get_video_info W the_url in
        let is_long_video := Qltb 1800 video_duration || force_chunked req in
        if is_long_video then
          let st := set_video_infos
                      (<[info_file video_id :=
                           initial_video_info video_id title channel
                             video_duration language]> (video_infos st))
                      st in
          (Started video_id title video_duration, st,
           Some {| j_url := the_url; j_video_id := video_id;
                   j_audio_path := AUDIO_DIR +:+ "/" +:+ audio_file video_id;
                   j_transcript_path :=
                     TRANSCRIPT_DIR +:+ "/" +:+ transcript_file video_id;
                   j_language := language; j_title := title;
                   j_duration := video_duration; j_channel := channel |})
        else
          let '(response, st) :=
            process_direct the_url video_id title channel video_duration
              language st in
          (response, st, None)
  end.

End Process.

(** *** The background task for long videos *)

(** A step that returns or raises, with the state it leaves. *)
Inductive Outcome (A : Type) :=
| Returned (a : A) (st : State)
| Raised (msg : string) (st : State).
Arguments Returned {A} a st.
Arguments Raised {A} msg st.

Definition bind {A B} (m : Outcome A) (k : A -> State -> Outcome B) : Outcome B :=
  match m with
  | Returned a st => k a st
  | Raised msg st => Raised msg st
  end.

Notation "'do' x 'at' st <- m ; k" := (bind m (fun x st => k))
  (at level 10, x name, st name, m at level 100, k at level 200).

Definition state_of {A} (m : Outcome A) : State :=
  match m with Returned _ st => st | Raised _ st => st end.

Section LongVideo.
Context (W : World).

(** Reading [data/videos/<id>.json]; a missing file raises. *)
Definition read_info (video_id : string) (st : State) : Outcome VideoInfo :=
  match video_infos st !! info_file video_id with
  | Some info => Returned info st
  | None => Raised "No such file or directory" st
  end.

Definition write_info (video_id : string) (info : VideoInfo) (st : State) : State :=
  set_video_infos (<[info_file video_id := info]> (video_infos st)) st.

Definition chunk_file (video_id : string) (chunk_idx : nat) : string :=
  video_id +:+ "_chunk_" +:+ pretty (Z.of_nat chunk_idx) +:+ ".mp3".

Definition temp_transcript_file (video_id : string) (chunk_idx : nat) : string :=
  video_id +:+ "_transcript_" +:+ pretty (Z.of_nat chunk_idx) +:+ ".txt".

(** [f"[{minutes:02d}:{seconds:02d}]"] of an integer offset. *)
Definition timestamp (chunk_start : Z) : string :=
  "[" +:+ zero_pad 2 (chunk_start / 60) +:+ ":"
  +:+ zero_pad 2 (chunk_start mod 60) +:+ "]".

(** The first stage: the chunk plan from the declared duration. *)
Definition plv_plan (job : Job) (st : State) : Outcome (Z * Z) :=
  let video_id := j_video_id job in
  let duration := j_duration job in
  let chunk_duration := chunk_duration_of duration in
  let total_chunks := total_chunks_of duration chunk_duration in
  let st := progress_update W
              (progress.with_chunks_completed 0
                 (progress.with_chunks_total total_chunks
                    (progress.with_processing_type "chunked"
                       (progress.upd "Starting chunked processing for long video..."
                          (Some 5) video_id)))) st in
  do current_info at st <- read_info video_id st;
  let st := write_info video_id
              (vi_set_chunks total_chunks 0 (Some "downloading") current_info) st in
  Returned (chunk_duration, total_chunks) st.

(** The second stage: the download and the plan from the actual duration. *)
Definition plv_download (job : Job) (chunk_duration total_chunks : Z) (st : State)
    : Outcome (Q * Z) :=
  let video_id := j_video_id job in
  let st := progress_update W
              (progress.with_chunks_total total_chunks
                 (progress.upd "Downloading audio..." (Some 10) video_id)) st in
  if negb (download_audio W (j_url job) (j_audio_path job))
  then Raised "Failed to download audio for long video" st
  else
    let st := set_audio_files (audio_files st ∪ {[audio_file video_id]}) st in
    let actual_duration :=
      audio_processing.get_audio_duration (audio W) (j_audio_path job) in
    if Qltb 0 actual_duration then
      let total_chunks := total_chunks_of actual_duration chunk_duration in
      let st := progress_update W
                  (progress.with_chunks_total total_chunks
                     (progress.upd "Audio downloaded, processing in chunks..."
                        (Some 15) video_id)) st in
      do current_info at st <- read_info video_id st;
      let st := write_info video_id
                  (vi_set_duration actual_duration
                     (vi_set_chunks total_chunks (vi_chunks_completed current_info)
                        (Some "transcribing") current_info)) st in
      Returned (actual_duration, total_chunks) st
    else Returned (actual_duration, total_chunks) st.

(** The guarded body of one iteration, from the extraction on. *)
Definition plv_chunk_body
    (job : Job) (chunk_duration total_chunks : Z) (actual_duration : Q)
    (chunk_idx : nat) (all_transcripts : list string) (st : State)
    : Outcome (list string) :=
  let video_id := j_video_id job in
  let chunk_start := Z.of_nat chunk_idx * chunk_duration in
  let chunk_end :=
    Qmin (inject_Z ((Z.of_nat chunk_idx + 1) * chunk_duration)) actual_duration in
  let chunk_path := TEMP_DIR +:+ "/" +:+ chunk_file video_id chunk_idx in
  if negb (ffmpeg_chunk W (j_audio_path job) (inject_Z chunk_start) chunk_end chunk_path)
  then Raised "Command returned non-zero exit status" st
  else
    let st := set_temp_files (<[chunk_file video_id chunk_idx := ""]> (temp_files st))
                st in
    match audio_processing.split_audio (audio W) chunk_path 60 true with
    | None => Raised "float division by zero" st
    | Some segments =>
        let chunk_transcript :=
          transcription.transcribe_segments (speech W) segments (j_language job) in
        let st := set_temp_files
                    (<[temp_transcript_file video_id chunk_idx := chunk_transcript]>
                       (temp_files st)) st in
        let all_transcripts :=
          all_transcripts ++ [timestamp chunk_start +:+ " " +:+ chunk_transcript] in
        let st := progress_update W
                    (progress.with_chunks_completed (Z.of_nat chunk_idx + 1)
                       (progress.upd
                          ("Completed chunk " +:+ pretty (Z.of_nat chunk_idx + 1)
                           +:+ "/" +:+ pretty total_chunks) None video_id)) st in
        match video_infos st !! info_file video_id with
        | None =>
            (* the read raises after the append: the guard keeps both *)
            Returned all_transcripts st
        | Some current_info =>
            let st := write_info video_id
                        (vi_set_chunks (vi_chunks_total current_info)
                           (Z.of_nat chunk_idx + 1)
                           (vi_processing_status current_info) current_info) st in
            let st := set_temp_files
                        (delete (chunk_file video_id chunk_idx) (temp_files st)) st in
            Returned all_transcripts st
        end
    end.

(** One iteration of the loop over the super-chunks: a failure inside
    the guarded body is logged and the loop goes on. *)
Definition plv_chunk
    (job : Job) (chunk_duration total_chunks : Z) (actual_duration : Q)
    (acc : list string * State) (chunk_idx : nat) : list string * State :=
  let '(all_transcripts, st) := acc in
  let st := progress_update W
              (progress.with_chunks_completed (Z.of_nat chunk_idx)
                 (progress.upd
                    ("Processing chunk " +:+ pretty (Z.of_nat chunk_idx + 1)
                     +:+ "/" +:+ pretty total_chunks +:+ "...") None
                    (j_video_id job))) st in
  match plv_chunk_body job chunk_duration total_chunks actual_duration chunk_idx
          all_transcripts st with
  | Returned all_transcripts st => (all_transcripts, st)
  | Raised _ st => (all_transcripts, st)
  end.

(** The third stage: the loop over [range(total_chunks)]. *)
Definition plv_chunks
    (job : Job) (chunk_duration total_chunks : Z) (actual_duration : Q) (st : State)
    : list string * State :=
  fold_left (plv_chunk job chunk_duration total_chunks actual_duration)
    (seq 0 (Z.to_nat total_chunks)) ([], st).

(** The last stage: the transcript, the index and the final record. *)
Definition plv_finalize
    (job : Job) (total_chunks : Z) (actual_duration : Q)
    (all_transcripts : list string) (st : State) : State :=
  let video_id := j_video_id job in
  let full_transcript := join (NL +:+ NL) all_transcripts in
  let st := set_transcripts
              (<[transcript_file video_id := full_transcript]> (transcripts st)) st in
  let keywords := extract_keywords W full_transcript 10 in
  let st := progress_update W
              (progress.with_chunks_completed total_chunks
                 (progress.upd "Building semantic index..." (Some 90) video_id)) st in
  let chunks := split_text W full_transcript 750 30 in
  let st := embed_and_store W chunks (collection_name video_id) st in
  let lang := detected_language W (j_language job) full_transcript in
  let final_info :=
    {| vi_video_id := video_id; vi_title := j_title job;
       vi_duration := actual_duration; vi_channel := j_channel job;
       vi_language := lang; vi_keywords := keywords;
       vi_transcript_path := j_transcript_path job;
       vi_is_long_video := true;
       vi_chunks_total := total_chunks; vi_chunks_completed := total_chunks;
       vi_processing_status := Some "complete";
       vi_error_message := None |} in
  let st := write_info video_id final_info st in
  progress_update W
    (progress.with_chunks_completed total_chunks
       (progress.upd "Processing complete!" (Some 100) video_id)) st.

(** The handler of the outer [try]: the error is recorded when the
    record still exists. *)
Definition plv_handle (job : Job) (msg : string) (st : State) : State :=
  match video_infos st !! info_file (j_video_id job) with
  | Some current_info => write_info (j_video_id job) (vi_set_error msg current_info) st
  | None => st
  end.

(** The state in which the loop over the super-chunks has ended and the
    final stage has not begun, when the task gets that far. *)
Definition plv_transcribed (job : Job) (st : State)
    : Outcome (Z * Q * list string) :=
  do plan at st <- plv_plan job st;
  let '(chunk_duration, total_chunks) := plan in
  do dl at st <- plv_download job chunk_duration total_chunks st;
  let '(actual_duration, total_chunks) := dl in
  let '(all_transcripts, st) :=
    plv_chunks job chunk_duration total_chunks actual_duration st in
  Returned (total_chunks, actual_duration, all_transcripts) st.

(** [process_long_video]. *)
Definition process_long_video (job : Job) (st : State) : State :=
  match plv_transcribed job st with
  | Returned (total_chunks, actual_duration, all_transcripts) st =>
      plv_finalize job total_chunks actual_duration all_transcripts st
  | Raised msg st => plv_handle job msg st
  end.

End LongVideo.

End app.

(** ** The specification's wording, for comparison with the code *)

Module spec_words.

Definition starts_lower (fragment : string) : bool :=
  match first_char fragment with Some c => islower c | None => false end.

Definition ends_terminal (fragment : string) : bool :=
  match last_char fragment with Some c => mem_char c ".!?" | None => false end.

(** The join as the specification words it: a space before a fragment that
    starts in lower case after one that does not end in [.], [!] or [?],
    a newline before any other. *)
Fixpoint spec_join_after (previous : string) (fragments : list string) : string :=
  match fragments with
  | [] => ""
  | fragment :: rest =>
      (if starts_lower fragment && negb (ends_terminal previous) then " " else NL)
      +:+ fragment +:+ spec_join_after fragment rest
  end.

Definition spec_join (fragments : list string) : string :=
  match fragments with
  | [] => ""
  | fragment :: rest => fragment +:+ spec_join_after fragment rest
  end.

(** A transcript that holds one entry per segment, the empty marker
    exactly at the ordinals whose segment gave no text. *)
Definition markers_at_failed_ordinals (results : list string) (transcript : string)
    : Prop :=
  let entries := split NL transcript in
  length entries = length results /\
  forall i r, results !! i = Some r -> (entries !! i = Some "" <-> r = "").

(** The percentage the specification derives from known counters. *)
Definition spec_percentage (completed total : Z) : Z := completed * 100 / total.

End spec_words.

(** ** Observations on the state, used to state the properties *)

Module views.

Import Text Num app_text audio_processing app.

(** The record of the video keeps its plan and its status. *)
Definition planned (video_id : string) (total : Z) (status : option string)
    (st : State) : Prop :=
  exists info, video_infos st !! info_file video_id = Some info
               /\ vi_chunks_total info = total
               /\ vi_processing_status info = status.

(** The record of the video holds the plan, the counter of completed
    super-chunks and the status. *)
Definition recorded (video_id : string) (total completed : Z)
    (status : option string) (st : State) : Prop :=
  exists info, video_infos st !! info_file video_id = Some info
               /\ vi_chunks_total info = total
               /\ vi_chunks_completed info = completed
               /\ vi_processing_status info = status.

(** The transcoder cuts the super-chunk of the given index out of the
    downloaded audio: the call of the loop of [process_long_video]. *)
Definition cut (W : World) (job : Job) (chunk_duration : Z) (actual_duration : Q)
    (chunk_idx : nat) : bool :=
  ffmpeg_chunk W (j_audio_path job)
    (inject_Z (Z.of_nat chunk_idx * chunk_duration))
    (Qmin (inject_Z ((Z.of_nat chunk_idx + 1) * chunk_duration)) actual_duration)
    (TEMP_DIR +:+ "/" +:+ chunk_file (j_video_id job) chunk_idx).

(** The ordinal of the last super-chunk that was cut among the first
    [total], 0 when none was. *)
Definition last_cut (W : World) (job : Job) (chunk_duration : Z)
    (actual_duration : Q) (total : Z) : Z :=
  fold_left
    (fun done chunk_idx =>
       if cut W job chunk_duration actual_duration chunk_idx
       then Z.of_nat chunk_idx + 1 else done)
    (seq 0 (Z.to_nat total)) 0.

(** The number of super-chunks the task settles on. *)
Definition settled_total (W : World) (job : Job) : Z :=
  let chunk_duration := chunk_duration_of (j_duration job) in
  let actual := get_audio_duration (audio W) (j_audio_path job) in
  if Qltb 0 actual then total_chunks_of actual chunk_duration
  else total_chunks_of (j_duration job) chunk_duration.

(** A direct job: [process] on a request for a source of at most 1800
    seconds, not forced into chunks, whose download succeeds and whose
    audio [split_audio] cuts into [segments]. *)
Definition direct_job (W : World) (req : ProcessRequest)
    (u title channel : string) (d : Q) (segments : list string) : Prop :=
  url req = Some u /\ nonempty u = true
  /\ nonempty (extract_video_id W u) = true
  /\ get_video_info W u = (title, d, channel)
  /\ Qltb 1800 d = false /\ force_chunked req = false
  /\ download_audio W u (AUDIO_DIR +:+ "/" +:+ audio_file (extract_video_id W u))
     = true
  /\ split_audio (audio W)
       (AUDIO_DIR +:+ "/" +:+ audio_file (extract_video_id W u)) 120 false
     = Some segments.

(** A segment whose transcription yields no text. *)
Definition fails_to_transcribe (S : transcription.Services)
    (language : option string) (segment : string) : Prop :=
  transcription.segment_exists S segment = false
  \/ transcription.speech_to_text S segment
       (if transcription.language_given language then language else None) = None.

(** The records and the transcripts are those of [st]. *)
Definition same_sources (st st' : State) : Prop :=
  video_infos st' = video_infos st /\ transcripts st' = transcripts st.

(** The request sent again, under whatever session cookie. *)
Definition with_session (sid : option string) (req : AskRequest) : AskRequest :=
  {| query := query req; language := language req; use_agent := use_agent req;
     start_time := start_time req; end_time := end_time req;
     is_followup := is_followup req; session_id := sid |}.

(** A question that is a follow-up neither by its flag nor, without a
    flag, by its wording. *)
Definition not_a_followup (req : AskRequest) : Prop :=
  is_followup req = Some false
  \/ (is_followup req = None
      /\ forall question, query req = Some question ->
                          is_followup_question question = false).

End views.

(** ** Concrete services and states, for the worked instances *)

Module examples.

Import transcription audio_processing qa_system app.

(** A transcoder that always succeeds; the probe reports [d] for the
    downloaded file and 1200 seconds for a super-chunk file. *)
Definition demo_audio (d : Q) : audio_processing.Services :=
  {| check_ffmpeg := true;
     path_exists := fun _ => true;
     getsize := fun _ => 1000;
     ffprobe := fun path => if contains "_chunk_" path then Some 1200%Q else Some d;
     cpu_count := Some 4;
     ffmpeg_segment := fun _ _ _ _ _ => true |}.

(** A speech service that fails on the fourth and the eighth segment. *)
Definition two_fail (path : string) : bool :=
  contains "segment_003" path || contains "segment_007" path.

Definition demo_speech : transcription.Services :=
  {| segment_exists := fun _ => true;
     speech_to_text := fun path _ =>
       if two_fail path then None
       else Some ("Fragment " +:+ basename path +:+ ".");
     detect := fun _ => Some "en" |}.

(** A chat service answering the n-th request with [reply n]. *)
Definition demo_qa (reply : nat -> option string) : qa_system.Services :=
  {| chat_completion := fun n _ _ => reply n;
     query_collection := fun _ documents top_k => Some (take top_k documents) |}.

Definition demo_world (d : Q) (reply : nat -> option string) : World :=
  {| clock := fun n => inject_Z (1000 + Z.of_nat n);
     extract_video_id := fun _ => "v1";
     get_video_info := fun _ => ("Demo", d, "Channel");
     download_audio := fun _ _ => true;
     audio := demo_audio d;
     speech := demo_speech;
     qa := demo_qa reply;
     ffmpeg_chunk := fun _ _ _ _ => true;
     split_text := fun text _ _ => [text];
     extract_keywords := fun _ _ => [];
     create_embeddings := fun _ => true |}.

Definition numbered (n : nat) : option string := Some ("Answer " +:+ pretty (Z.of_nat n)).

Definition demo_request (force : bool) : ProcessRequest :=
  {| url := Some "https://youtu.be/v1"; p_language := Some "en";
     force_chunked := force |}.

(** The ten segments of a 1200-second file cut every 120 seconds, and
    their positional results. *)
Definition ten_segments : list string :=
  default [] (split_audio (demo_audio 1200) "data/audio/v1.mp3" 120 false).

Definition ten_results : list string :=
  List.map (transcription.transcribe_single_segment demo_speech (Some "en"))
    ten_segments.

(** A 5400-second source, not forced into chunks: the response of
    [process], the state it leaves and the task it schedules. *)
Definition long_world : World := demo_world 5400 numbered.

Definition long_run : ProcessResponse * State * option Job :=
  process long_world (demo_request false) store.empty.

Definition long_started : State := snd (fst long_run).

Definition long_job : Job :=
  {| j_url := "https://youtu.be/v1"; j_video_id := "v1";
     j_audio_path := "data/audio/v1.mp3";
     j_transcript_path := "data/transcripts/v1.txt";
     j_language := Some "en"; j_title := "Demo";
     j_duration := 5400; j_channel := "Channel" |}.

(** The state of that task when its loop over the super-chunks has ended. *)
Definition long_transcribed : State :=
  state_of (plv_transcribed long_world long_job long_started).

(** The transcript of a 3600-second source whose second super-chunk was
    lost: the markers are those [process_long_video] writes. *)
Definition gap_transcript : string :=
  "[00:00] opening words" +:+ NL +:+ NL +:+ "[40:00] closing words".

(** A transcript with markers around the tenth minute. *)
Definition marked_transcript : string :=
  "[09:20] one" +:+ NL +:+ "[09:30] two" +:+ NL +:+ "[10:30] three" +:+ NL
  +:+ "[11:30] four" +:+ NL +:+ "[11:40] five".

(** The transcript of a 3600-second source, all three super-chunks done. *)
Definition hour_transcript : string :=
  "[00:00] first part" +:+ NL +:+ NL +:+ "[20:00] second part" +:+ NL +:+ NL
  +:+ "[40:00] third part".

(** A first run on a 1200-second source, then two questions, then a
    second run for the same source. *)
Definition short_world : World := demo_world 1200 numbered.

Definition first_run : State :=
  snd (fst (process short_world (demo_request false) store.empty)).

Definition plain_question : AskRequest :=
  {| query := Some "What is Python?"; language := "en"; use_agent := false;
     start_time := None; end_time := None; is_followup := None;
     session_id := None |}.

Definition window_question : AskRequest :=
  {| query := Some "What is Python?"; language := "en"; use_agent := false;
     start_time := Some 60; end_time := Some 180; is_followup := None;
     session_id := None |}.



Definition asked : State :=
  snd (ask short_world "v1" window_question
         (snd (ask short_world "v1" plain_question first_run))).

(** The second run at the point where it has cleaned the data of the
    video, and when it has finished. *)
Definition rerun_started : State := process_started short_world "v1" asked.

Definition rerun_done : State :=
  snd (fst (process short_world (demo_request false) asked)).

(** A chat service whose completions are empty, and a question flagged
    as not being a follow-up, asked twice. *)
Definition silent_world : World := demo_world 1200 (fun _ => Some "").

Definition flagged_question (flag : bool) : AskRequest :=
  {| query := Some "What is Python?"; language := "en"; use_agent := false;
     start_time := None; end_time := None; is_followup := Some flag;
     session_id := None |}.

Definition silent_once : Response * State :=
  ask silent_world "v1" (flagged_question false) first_run.

Definition silent_twice : Response * State :=
  ask silent_world "v1" (flagged_question false) (snd silent_once).

(** A session with one turn, then two questions flagged as follow-ups
    whose wording is not that of a follow-up. *)
Definition first_asked : Response * State :=
  ask short_world "v1" plain_question first_run.

Definition flagged_followup (question : string) : AskRequest :=
  {| query := Some question; language := "en"; use_agent := false;
     start_time := None; end_time := None; is_followup := Some true;
     session_id := session (fst first_asked) |}.

Definition followup_repeated : Response * State :=
  ask short_world "v1" (flagged_followup "What is Python?") (snd first_asked).

Definition followup_new : Response * State :=
  ask short_world "v1" (flagged_followup "Who made Python?") (snd first_asked).

End examples.

(** ** rag_pipeline.py: cleaning, chunking and keywords

    Lengths are counted in characters of the byte string, which is
    Python's [len] on ASCII text. *)

Module rag_pipeline.

Import qa_system.

Definition CHUNK_SIZE : Z := 500.
Definition CHUNK_OVERLAP : Z := 100.

(** [re.sub(r'\s+', ' ', text)]; [in_run] tells that the preceding
    character was white space, already replaced. *)
Fixpoint collapse_whitespace (in_run : bool) (text : string) : string :=
  match text with
  | EmptyString => EmptyString
  | String c rest =>
      if isspace c then
        if in_run then collapse_whitespace true rest
        else String " " (collapse_whitespace true rest)
      else String c (collapse_whitespace false rest)
  end.

Definition is_mark (c : ascii) : bool := mem_char c ".,?!;:".

(** [re.sub(r'([.,?!;:])\s*', r'\1 ', text)]; [after_mark] tells that the
    white space met here belongs to the match of the preceding mark. *)
Fixpoint space_after_marks (after_mark : bool) (text : string) : string :=
  match text with
  | EmptyString => EmptyString
  | String c rest =>
      if after_mark && isspace c then space_after_marks true rest
      else if is_mark c
      then String c (String " " (space_after_marks true rest))
      else String c (space_after_marks false rest)
  end.

Definition clean_text (text : string) : string :=
  if negb (nonempty text) then ""
  else strip (space_after_marks false (collapse_whitespace false text)).

Definition ends_sentence (c : ascii) : bool := mem_char c ".!?".

(** [re.split(r'(?<=[.!?])\s+', text)]; [after_end] tells that the
    preceding character ends a sentence, [skipping] that a separator is
    being passed over. *)
Fixpoint split_sentences (after_end skipping : bool) (text : string)
    : list string :=
  match text with
  | EmptyString => [EmptyString]
  | String c rest =>
      if isspace c then
        if skipping then split_sentences false true rest
        else if after_end then EmptyString :: split_sentences false true rest
        else cons_head c (split_sentences false false rest)
      else cons_head c (split_sentences (ends_sentence c) false rest)
  end.

(** One iteration of the loop of [split_text]: the chunks closed so far
    and the chunk being filled. *)
Definition add_paragraph (chunk_size overlap : Z)
    (acc : list string * string) (paragraph : string) : list string * string :=
  let '(chunks, current_chunk) := acc in
  let paragraph := strip paragraph in
  if negb (nonempty paragraph) then (chunks, current_chunk)
  else if chunk_size <? Z.of_nat (String.length current_chunk)
                        + Z.of_nat (String.length paragraph)
  then
    let chunks := if nonempty current_chunk
                  then chunks ++ [strip current_chunk] else chunks in
    let current_chunk :=
      if nonempty current_chunk
         && (overlap <? Z.of_nat (String.length current_chunk))
      then
        let words := split_whitespace current_chunk in
        if (5 <? length words)%nat
        then join " " (last_n 5 words) +:+ " " +:+ paragraph
        else paragraph
      else paragraph in
    (chunks, current_chunk)
  else
    (chunks,
     if nonempty current_chunk then current_chunk +:+ " " +:+ paragraph
     else paragraph).

(** The loop over the paragraphs, the final chunk and the last filter. *)
Definition pack (chunk_size overlap : Z) (paragraphs : list string)
    : list string :=
  let '(chunks, current_chunk) :=
    fold_left (add_paragraph chunk_size overlap) paragraphs ([], "") in
  let chunks := if nonempty current_chunk
                then chunks ++ [strip current_chunk] else chunks in
  List.filter (fun c => nonempty (strip c)) chunks.

Definition split_text (text : string) (chunk_size overlap : Z) : list string :=
  if negb (nonempty text) then []
  else
    let text := clean_text text in
    let paragraphs := split (NL +:+ NL) text in
    let paragraphs :=
      if (length paragraphs <=? 1)%nat
      then split_sentences false false text else paragraphs in
    pack chunk_size overlap paragraphs.

(** [re.findall(r'\b\w+\b', text)]: the maximal runs of word characters. *)
Fixpoint word_runs (text : string) : list string :=
  match text with
  | EmptyString => []
  | String c rest =>
      if isword c then
        match rest with
        | String d _ =>
            if isword d then cons_head c (word_runs rest)
            else String c EmptyString :: word_runs rest
        | EmptyString => [String c EmptyString]
        end
      else word_runs rest
  end.

(** [word_counts[word] += 1], a new word entering at the end. *)
Fixpoint count_word (word : string) (counts : list (string * nat))
    : list (string * nat) :=
  match counts with
  | [] => [(word, 1%nat)]
  | (w, n) :: rest =>
      if String.eqb w word then (w, S n) :: rest
      else (w, n) :: count_word word rest
  end.

(** The dictionary of the words longer than three characters, in the
    order of their first occurrence. *)
Definition word_counts (words : list string) : list (string * nat) :=
  fold_left
    (fun counts word =>
       if (3 <? String.length word)%nat then count_word word counts else counts)
    words [].

Definition stop_words : list string :=
  ["the"; "and"; "but"; "not"; "what"; "where"; "when"; "who"; "how"; "why";
   "this"; "that"; "these"; "those"; "with"; "from"; "have"; "will"; "would"].

Definition is_stop_word (word : string) : bool :=
  existsb (String.eqb word) stop_words.

(** The place of an entry in a list sorted by decreasing count, before the
    entries that do not count more. *)
Fixpoint insert_by_count (e : string * nat) (sorted : list (string * nat))
    : list (string * nat) :=
  match sorted with
  | [] => [e]
  | x :: rest =>
      if (snd e <? snd x)%nat then x :: insert_by_count e rest
      else e :: sorted
  end.

(** [sorted(items, key=lambda x: x[1], reverse=True)]: stable. *)
Definition sort_by_count (counts : list (string * nat)) : list (string * nat) :=
  fold_right insert_by_count [] counts.

(** [l[:k]]. *)
Definition py_take {A} (k : Z) (l : list A) : list A :=
  if 0 <=? k then take (Z.to_nat k) l
  else take (length l - Z.to_nat (- k)) l.

Definition extract_keywords (text : string) (max_keywords : Z) : list string :=
  let clean := lower (clean_text text) in
  let words := word_runs clean in
  let counts :=
    List.filter (fun e => negb (is_stop_word (fst e))) (word_counts words) in
  List.map fst (py_take max_keywords (sort_by_count counts)).

End rag_pipeline.
(** ** utils.py: the size of a file, formatted *)

Module utils.

Definition units : list string := ["B"; "KB"; "MB"; "GB"; "TB"].

(** The loop [while size_bytes >= 1024 and unit_index < len(units) - 1]:
    [steps_left] is [len(units) - 1 - unit_index].  The size is divided as
    a float; below [2^53] bytes every quotient by 1024 is exact, and the
    exact rational is the float. *)
Fixpoint scale (steps_left : nat) (size : Q) : Q * nat :=
  match steps_left with
  | O => (size, O)
  | S k =>
      if Qle_bool 1024 size then scale k (size / 1024)%Q
      else (size, steps_left)
  end.

(** The integer nearest to a non-negative rational, ties going to the
    even one. *)
Definition round_half_even (x : Q) : Z :=
  let f := Qfloor x in
  let r := (x - inject_Z f)%Q in
  if Qltb r (1 # 2) then f
  else if Qltb (1 # 2) r then f + 1
  else if Z.even f then f else f + 1.

(** [f"{x:.1f}"] for a non-negative [x]. *)
Definition format_1f (x : Q) : string :=
  let tenths := round_half_even (x * 10) in
  pretty (tenths / 10) +:+ "." +:+ pretty (tenths mod 10).

Definition format_file_size (size_bytes : Z) : string :=
  if size_bytes <? 0 then "0 B"
  else
    let '(size, steps_left) := scale 4 (inject_Z size_bytes) in
    format_1f size +:+ " " +:+ nth (4 - steps_left) units "".

End utils.

(** ** app.py: the routes on the stored videos *)

Module routes.

Import app.

Definition VIDEO_INFO_DIR : string := "data/videos".
Definition CACHE_DIR : string := "data/cache".

(** The name a path has in a directory, when it lies directly in it. *)
Definition name_in (dir path : string) : option string :=
  if startswith (dir +:+ "/") path
  then Some (str_drop (String.length dir + 1) path) else None.

(** [os.path.exists] on the directories of the application: a path
    outside them names no file. *)
Definition path_exists (path : string) (st : State) : bool :=
  match name_in TRANSCRIPT_DIR path with
  | Some name => bool_decide (is_Some (transcripts st !! name))
  | None =>
  match name_in VIDEO_INFO_DIR path with
  | Some name => bool_decide (is_Some (video_infos st !! name))
  | None =>
  match name_in CACHE_DIR path with
  | Some name => bool_decide (is_Some (cache_files st !! name))
  | None =>
  match name_in AUDIO_DIR path with
  | Some name => bool_decide (name ∈ audio_files st)
  | None =>
  match name_in TEMP_DIR path with
  | Some name => bool_decide (is_Some (temp_files st !! name))
  | None => false
  end end end end end.

(** What the file system tells beyond the modelled state: the size of
    the files whose content the state does not hold as text. *)
Record Files := {
  size_of : string -> Z
}.

(** [os.path.getsize] of an existing file. *)
Definition getsize (F : Files) (path : string) (st : State) : Z :=
  match name_in TRANSCRIPT_DIR path with
  | Some name =>
      match transcripts st !! name with
      | Some text => Z.of_nat (String.length text)
      | None => size_of F path
      end
  | None =>
  match name_in TEMP_DIR path with
  | Some name =>
      match temp_files st !! name with
      | Some text => Z.of_nat (String.length text)
      | None => size_of F path
      end
  | None => size_of F path
  end end.

(** [GET /progress]. *)
Definition get_progress (st : State) : progress.Status := progress_status st.

(** The body of [GET /videos/{video_id}/status] when the record of the
    video is read; the key [processed_at] is left out. *)
Record StoredStatus := {
  s_status : string;
  s_video_id : string;
  s_title : string;
  s_duration : Q;
  s_is_long_video : bool;
  s_chunks_total : Z;
  s_chunks_completed : Z;
  s_transcript_available : bool;
  s_transcript_size : string;
  s_chunks_indexed : nat;
  s_language : option string
}.

Inductive StatusResponse :=
| Tracker (status : progress.Status)
| Stored (status : StoredStatus)
| NotFound (video_id : string).

Section Routes.
Context (F : Files).

(** [GET /videos/{video_id}/status]. *)
Definition get_video_status (video_id : string) (st : State) : StatusResponse :=
  if bool_decide (progress.video_id (progress_status st) = Some video_id)
  then Tracker (progress_status st)
  else
    match video_infos st !! info_file video_id with
    | Some info =>
        let transcript_path := vi_transcript_path info in
        let has_transcript := path_exists transcript_path st in
        let transcript_size :=
          if has_transcript then getsize F transcript_path st else 0 in
        let chunks_count :=
          match collections st !! collection_name video_id with
          | Some documents => length documents
          | None => O
          end in
        Stored
          {| s_status :=
               match vi_processing_status info with
               | Some status => status
               | None => if has_transcript then "complete" else "unknown"
               end;
             s_video_id := video_id;
             s_title := vi_title info;
             s_duration := vi_duration info;
             s_is_long_video := vi_is_long_video info;
             s_chunks_total := vi_chunks_total info;
             s_chunks_completed := vi_chunks_completed info;
             s_transcript_available := has_transcript;
             s_transcript_size := utils.format_file_size transcript_size;
             s_chunks_indexed := chunks_count;
             s_language := vi_language info |}
    | None => NotFound video_id
    end.

(** One entry of [GET /videos]: the record with its status overwritten,
    and the two keys added to it. *)
Record Listed := {
  l_info : VideoInfo;
  l_transcript_size : option string;
  l_completion_percentage : option Z
}.

Definition vi_set_status (status : string) (v : VideoInfo) : VideoInfo :=
  vi_set_chunks (vi_chunks_total v) (vi_chunks_completed v) (Some status) v.

(** [read_video_file]; [None] is the entry dropped because reading it
    raised. *)
Definition read_video_file (info : VideoInfo) (st : State) : option Listed :=
  let transcript_path := vi_transcript_path info in
  let transcript_size :=
    if path_exists transcript_path st
    then Some (utils.format_file_size (getsize F transcript_path st))
    else None in
  if vi_is_long_video info && (vi_chunks_completed info <? vi_chunks_total info)
  then
    match (if vi_chunks_total info =? 0 then None
           else F64.percent (vi_chunks_completed info) (vi_chunks_total info))
    with
    | Some percentage =>
        Some {| l_info := vi_set_status "in_progress" info;
                l_transcript_size := transcript_size;
                l_completion_percentage := Some percentage |}
    | None => None
    end
  else
    Some {| l_info := vi_set_status "complete" info;
            l_transcript_size := transcript_size;
            l_completion_percentage := None |}.

(** [name.endswith(suffix)]. *)
Definition endswith (suffix name : string) : bool :=
  (String.length suffix <=? String.length name)%nat
  && String.eqb (str_drop (String.length name - String.length suffix) name) suffix.

(** [GET /videos]: the entries in the order in which the directory is
    listed. *)
Definition list_videos (st : State) : list Listed :=
  omap (fun entry : string * VideoInfo =>
          if endswith ".json" (fst entry) then read_video_file (snd entry) st
          else None)
       (map_to_list (video_infos st)).

Inductive Reply :=
| Success (message : string)
| Failure (code : Z) (detail : string).

(** [DELETE /videos/{video_id}]. *)
Definition delete_video (video_id : string) (st : State) : Reply * State :=
  match video_infos st !! info_file video_id with
  | None => (Failure 404 "Video not found", st)
  | Some _ =>
      let st := clean_video_data video_id st in
      let st := set_video_infos (delete (info_file video_id) (video_infos st)) st in
      (Success ("Video " +:+ video_id +:+ " deleted successfully"), st)
  end.



End Routes.

End routes.
(** ** qa_system.py: the streamed answer *)

Module qa_streaming.

Import prompts qa_system.

(** One streamed completion: the [delta.content] of its chunks in order,
    and whether the iteration over them ends or raises after the last. *)
Record Stream := {
  deltas : list (option string);
  completes : bool
}.

Record Services := {
  base : qa_system.Services;
  (** the chat-completion capability called with [stream=True], with the
      index of the request among all requests made so far; [None] when
      the call raises *)
  stream_completion : nat -> string -> string -> option Stream
}.

(** [s.replace(old, "")] for a non-empty [old]; [skip] counts the
    characters of an occurrence still to be passed over. *)
Fixpoint remove_all (skip : nat) (old s : string) : string :=
  match s with
  | EmptyString => EmptyString
  | String c s' =>
      match skip with
      | S k => remove_all k old s'
      | O =>
          if startswith old s then remove_all (String.length old - 1) old s'
          else String c (remove_all 0 old s')
      end
  end.

(** ["".join(parts)]. *)
Definition concat_all (parts : list string) : string :=
  fold_right append EmptyString parts.

(** The state of the loop over the chunks: the messages collected, the
    flag [in_final_answer], and what has been yielded. *)
Record Progress := {
  collected_messages : list string;
  in_final_answer : bool;
  yielded : list string
}.

Definition stream_step (use_agent : bool) (p : Progress) (delta : option string)
    : Progress :=
  match truthy delta with
  | None => p
  | Some content =>
      let collected := collected_messages p ++ [content] in
      let marked := use_agent && contains "Final Answer:" content in
      let in_final := in_final_answer p || marked in
      let content :=
        if marked then remove_all 0 "Final Answer:" content else content in
      {| collected_messages := collected;
         in_final_answer := in_final;
         yielded := if use_agent
                    then if in_final then yielded p ++ [content] else yielded p
                    else yielded p ++ [content] |}
  end.

Definition consume (use_agent : bool) (stream : Stream) : Progress :=
  fold_left (stream_step use_agent) (deltas stream)
    {| collected_messages := []; in_final_answer := false; yielded := [] |}.

Section Streaming.
Context (W : Services).

(** [ask_question_streaming], consumed to its end: what it yields, and
    the state it leaves. *)
Definition ask_question_streaming
    (question transcript video_id language : string) (use_agent : bool)
    (conversation_history : option (list (string * string)))
    (video_title : string) (st : State) : list string * State :=
  let video_title :=
    if negb (nonempty video_title) && nonempty video_id
    then get_video_title video_id st else video_title in
  if (no_history conversation_history || negb (is_followup_question question))
     && negb (is_video_related_question question video_title)
  then ([if ar language then not_related_ar else not_related_en], st)
  else if negb (nonempty transcript) || (String.length (strip transcript) <? 10)%nat
  then ([if ar language then no_transcript_ar else no_transcript_en], st)
  else
    let context :=
      if nonempty video_id
      then retrieve_relevant_context (base W) question video_id 5 st else [] in
    let context :=
      match context with
      | [] => transcript_windows transcript
      | _ => context
      end in
    let '(system, user) :=
      if use_agent
      then generate_agent_prompt question context language conversation_history
      else generate_prompt question context language conversation_history in
    let response := stream_completion W (length (chat_log st)) system user in
    let st := set_chat_log (chat_log st ++ [(system, user)]) st in
    let failed := if ar language then qa_error_ar else qa_error_en in
    match response with
    | None => ([failed], st)
    | Some stream =>
        let p := consume use_agent stream in
        if completes stream then
          let q_hash := qa_hash question language use_agent in
          let st :=
            if caches question conversation_history && nonempty video_id
            then save_to_cache q_hash (concat_all (collected_messages p)) video_id st
            else st in
          (yielded p, st)
        else (yielded p ++ [failed], st)
    end.

End Streaming.

End qa_streaming.
(** ** Further observations, used to state the properties *)

Module observations.

Import app.

(** The line feed. *)
Definition LF : ascii := ascii_of_nat 10.


(** White space reduced to single blanks: every white-space character of
    the text is a blank, and no two of them are adjacent; [prev_space]
    tells that a blank precedes the text. *)
Fixpoint single_spaced (prev_space : bool) (s : string) : bool :=
  match s with
  | EmptyString => true
  | String c rest =>
      if isspace c
      then Ascii.eqb c " " && negb prev_space && single_spaced true rest
      else single_spaced false rest
  end.

(** The number of occurrences of a word in a list of words. *)
Definition occurrences (word : string) (words : list string) : nat :=
  length (List.filter (String.eqb word) words).

(** A word long enough to be counted as a keyword. *)
Definition is_long (word : string) : bool := (3 <? String.length word)%nat.

(** The entries of a dictionary listed by decreasing count. *)
Fixpoint by_decreasing_count (l : list (string * nat)) : Prop :=
  match l with
  | [] => True
  | x :: rest =>
      Forall (fun y => (snd y <= snd x)%nat) rest /\ by_decreasing_count rest
  end.

(** The words [extract_keywords] counts: those of the cleaned text, in
    lower case. *)
Definition counted_words (text : string) : list string :=
  rag_pipeline.word_runs (lower (rag_pipeline.clean_text text)).

(** The tracker reports the same kind of processing and the same chunk
    counters in both states. *)
Definition same_counters (st st' : State) : Prop :=
  progress.processing_type (progress_status st')
  = progress.processing_type (progress_status st)
  /\ progress.chunks_total (progress_status st')
     = progress.chunks_total (progress_status st)
  /\ progress.chunks_completed (progress_status st')
     = progress.chunks_completed (progress_status st).



(** The question is turned away before any context is retrieved: it is
    taken as unrelated to the video, or the transcript is too short. *)
Definition turned_away (question transcript video_id video_title : string)
    (history : option (list (string * string))) (st : State) : bool :=
  let video_title :=
    if negb (nonempty video_title) && nonempty video_id
    then qa_system.get_video_title video_id st else video_title in
  ((qa_system.no_history history || negb (is_followup_question question))
   && negb (qa_system.is_video_related_question question video_title))
  || (negb (nonempty transcript)
      || (String.length (strip transcript) <? 10)%nat).

(** The text of a streamed completion: its non-empty pieces, and all of
    them put together. *)
Definition pieces (stream : qa_streaming.Stream) : list string :=
  omap truthy (qa_streaming.deltas stream).


(** No session holds more than ten turns. *)
Definition bounded_histories (st : State) : Prop :=
  forall sid h, conversation_histories st !! sid = Some h -> (length h <= 10)%nat.

End observations.
(** ** Further services and states, for the worked instances *)

Module more_examples.

Import transcription audio_processing qa_system app examples.

(** A world in which no download succeeds. *)
Definition offline_world : World :=
  {| clock := clock short_world;
     extract_video_id := extract_video_id short_world;
     get_video_info := get_video_info short_world;
     download_audio := fun _ _ => false;
     audio := audio short_world;
     speech := speech short_world;
     qa := qa short_world;
     ffmpeg_chunk := ffmpeg_chunk short_world;
     split_text := split_text short_world;
     extract_keywords := extract_keywords short_world;
     create_embeddings := create_embeddings short_world |}.

(** A speech service that returns no text at all. *)
Definition mute_speech : transcription.Services :=
  {| segment_exists := fun _ => true;
     speech_to_text := fun _ _ => None;
     detect := fun _ => None |}.

Definition mute_world : World :=
  {| clock := clock short_world;
     extract_video_id := extract_video_id short_world;
     get_video_info := get_video_info short_world;
     download_audio := download_audio short_world;
     audio := audio short_world;
     speech := mute_speech;
     qa := qa short_world;
     ffmpeg_chunk := ffmpeg_chunk short_world;
     split_text := split_text short_world;
     extract_keywords := extract_keywords short_world;
     create_embeddings := create_embeddings short_world |}.

Definition request_in (language : string) : ProcessRequest :=
  {| url := Some "https://youtu.be/v1"; p_language := Some language;
     force_chunked := false |}.

(** A world in which the transcoder cuts no super-chunk. *)
Definition uncut_world : World :=
  {| clock := clock long_world;
     extract_video_id := extract_video_id long_world;
     get_video_info := get_video_info long_world;
     download_audio := download_audio long_world;
     audio := audio long_world;
     speech := speech long_world;
     qa := qa long_world;
     ffmpeg_chunk := fun _ _ _ _ => false;
     split_text := split_text long_world;
     extract_keywords := extract_keywords long_world;
     create_embeddings := create_embeddings long_world |}.

(** The record a failed download leaves of the 5400-second source, and a
    state that holds nothing else. *)
Definition failed_record : VideoInfo :=
  vi_set_error "Failed to download audio for long video"
    (vi_set_chunks 5 0 (Some "downloading")
       (initial_video_info "v1" "Demo" "Channel" 5400 (Some "en"))).

Definition failed_state : State :=
  set_video_infos {[ info_file "v1" := failed_record ]} store.empty.

(** A completion in the agent format, streamed in pieces none of which
    holds the whole marker of the final answer. *)
Definition agent_stream : qa_streaming.Stream :=
  {| qa_streaming.deltas :=
       [Some "Thought: the transcript says so. "; Some "Final "; None;
        Some "Answer: Python is a language."];
     qa_streaming.completes := true |}.

Definition streaming_services (stream : qa_streaming.Stream)
    : qa_streaming.Services :=
  {| qa_streaming.base := demo_qa numbered;
     qa_streaming.stream_completion := fun _ _ _ => Some stream |}.

Definition demo_transcript : string :=
  "Python is a language. It was made by Guido van Rossum.".

End more_examples.

(** * Properties *)

Import transcription audio_processing progress qa_system app spec_words views examples.

(** ** The join of the fragments *)

(** C3, evaluated: a lower-case fragment after a fragment that ends in a
    full stop is joined with a space, where the specification's join puts
    a newline; and an upper-case fragment after a continuation is glued to
    it with no separator at all. *)
Theorem join_misses_terminal_punctuation :
  merge_results ["Hello."; "world"] = "Hello. world"
  /\ spec_join ["Hello."; "world"] = "Hello." +:+ NL +:+ "world"
  /\ merge_results ["Hello"; "world."; "Again"] = "Hello world.Again"
  /\ spec_join ["Hello"; "world."; "Again"] = "Hello world." +:+ NL +:+ "Again".
Proof. repeat split; vm_compute; reflexivity. Qed.

(** *** White space and the text primitives *)

Lemma append_empty_r (s : string) : s +:+ "" = s.
Proof.
  induction s as [|c s IH]; [reflexivity |].
  change (String c (s +:+ "") = String c s). now rewrite IH.
Qed.

Lemma append_assoc (a b c : string) : (a +:+ b) +:+ c = a +:+ (b +:+ c).
Proof.
  induction a as [|x a IH]; [reflexivity |].
  change (String x ((a +:+ b) +:+ c) = String x (a +:+ b +:+ c)). now rewrite IH.
Qed.

Lemma blank_append (a b : string) : blank (a +:+ b) = blank a && blank b.
Proof.
  induction a as [|c a IH]; [reflexivity |].
  change (isspace c && blank (a +:+ b) = isspace c && blank a && blank b).
  rewrite IH. now rewrite andb_assoc.
Qed.

Lemma rstrip_empty_blank (s : string) : nonempty (rstrip s) = negb (blank s).
Proof.
  induction s as [|c s IH]; simpl; [reflexivity |].
  rewrite IH. destruct (isspace c), (blank s); reflexivity.
Qed.

Lemma blank_rstrip (s : string) : blank (rstrip s) = blank s.
Proof.
  induction s as [|c s IH]; simpl; [reflexivity |].
  rewrite rstrip_empty_blank.
  destruct (isspace c) eqn:Hc, (blank s) eqn:Hs; simpl;
    rewrite ?Hc, ?IH, ?Hs; reflexivity.
Qed.

Lemma blank_lstrip (s : string) : blank (lstrip s) = blank s.
Proof.
  induction s as [|c s IH]; simpl; [reflexivity |].
  destruct (isspace c) eqn:Hc; simpl; [exact IH | now rewrite Hc].
Qed.

(** [not s.strip()] is [blank s]. *)
Lemma strip_nonempty (s : string) : nonempty (strip s) = negb (blank s).
Proof. unfold strip. now rewrite rstrip_empty_blank, blank_lstrip. Qed.

Lemma blank_join (sep : string) (parts : list string) :
  blank sep = true -> blank (join sep parts) = forallb blank parts.
Proof.
  intros Hsep. induction parts as [|p ps IH]; [reflexivity |].
  destruct ps as [|q ps].
  - simpl. now rewrite andb_true_r.
  - change (join sep (p :: q :: ps)) with (p +:+ sep +:+ join sep (q :: ps)).
    rewrite !blank_append, Hsep, IH. reflexivity.
Qed.

Lemma forallb_blank_cons_head (c : ascii) (parts : list string) :
  forallb blank (cons_head c parts) = isspace c && forallb blank parts.
Proof.
  destruct parts as [|p ps]; simpl.
  - now rewrite !andb_true_r.
  - now rewrite andb_assoc.
Qed.

Lemma blank_split_lines (s : string) : forallb blank (split NL s) = blank s.
Proof.
  unfold split. induction s as [|c s IH]; [reflexivity |].
  cbn [split_from]. change (startswith NL (String c s))
    with (Ascii.eqb (ascii_of_nat 10) c && startswith "" s).
  replace (startswith "" s) with true by (destruct s; reflexivity).
  rewrite andb_true_r.
  destruct (Ascii.eqb (ascii_of_nat 10) c) eqn:Hc.
  - apply Ascii.eqb_eq in Hc. subst c. simpl. exact IH.
  - rewrite forallb_blank_cons_head, IH. reflexivity.
Qed.

Lemma forallb_blank_filter (parts : list string) :
  forallb blank (List.filter (fun line => nonempty (strip line)) parts)
  = forallb blank parts.
Proof.
  induction parts as [|p ps IH]; [reflexivity |].
  simpl. rewrite strip_nonempty.
  destruct (blank p) eqn:Hp; simpl; [exact IH | now rewrite Hp].
Qed.

(** Dropping the blank lines keeps a text that is not blank from
    becoming blank. *)
Lemma blank_clean_lines (s : string) : blank (clean_lines s) = blank s.
Proof.
  unfold clean_lines.
  rewrite blank_join by reflexivity.
  now rewrite forallb_blank_filter, blank_split_lines.
Qed.

(** *** The joining loop does not look at the ordinals *)

Lemma join_fragment_index (i : nat) (transcript segment_text : string) :
  (i = 0%nat -> transcript = "") ->
  join_fragment i transcript segment_text = join_next transcript segment_text.
Proof.
  intros Hi. destruct i as [|i]; [| reflexivity].
  rewrite (Hi eq_refl). unfold join_next, join_fragment.
  destruct segment_text as [|c s]; [reflexivity |].
  cbn. now rewrite andb_false_r.
Qed.

Lemma join_fragments_fold (results : list string) :
  forall (i : nat) (transcript : string),
    (i = 0%nat -> transcript = "") ->
    join_fragments i transcript results = fold_left join_next results transcript.
Proof.
  induction results as [|r rs IH]; intros i t Hi; [reflexivity |].
  simpl. rewrite (join_fragment_index i t r Hi).
  apply IH. discriminate.
Qed.

Lemma join_next_empty (transcript : string) : join_next transcript "" = transcript.
Proof. reflexivity. Qed.

Lemma fold_join_next_skips (results : list string) :
  forall transcript : string,
    fold_left join_next results transcript
    = fold_left join_next (List.filter nonempty results) transcript.
Proof.
  induction results as [|r rs IH]; intros t; [reflexivity |].
  destruct r as [|c s]; simpl.
  - rewrite join_next_empty. apply IH.
  - apply IH.
Qed.

(** The merged text is that of the non-empty fragments alone. *)
Lemma merge_results_skips_empty (results : list string) :
  merge_results results = merge_results (List.filter nonempty results).
Proof.
  unfold merge_results.
  rewrite !join_fragments_fold by reflexivity.
  now rewrite fold_join_next_skips.
Qed.

Lemma last_char_append_newline (t : string) : last_char (t +:+ NL) = Some (ascii_of_nat 10).
Proof.
  induction t as [|c t IH]; [reflexivity |].
  change (String c t +:+ NL) with (String c (t +:+ NL)).
  cbn [last_char]. rewrite IH.
  destruct (t +:+ NL) eqn:E; [| reflexivity].
  destruct t; discriminate.
Qed.

(** After a fragment joined as a new utterance the transcript ends in a
    newline, so a fragment that starts in lower case is joined to it with
    a space whatever the transcript says before that newline. *)
Lemma join_next_after_new_utterance (t : string) (c : ascii) (rest : string) :
  islower c = true ->
  join_next (t +:+ NL) (String c rest)
  = rstrip (t +:+ NL) +:+ " " +:+ String c rest.
Proof.
  intros Hc. unfold join_next, join_fragment.
  cbn [nonempty negb first_char Nat.ltb Nat.leb andb].
  rewrite Hc, last_char_append_newline.
  replace (nonempty (t +:+ NL)) with true by (destruct t; reflexivity).
  reflexivity.
Qed.

Lemma blank_join_next (transcript segment_text : string) :
  blank (join_next transcript segment_text) = blank transcript && blank segment_text.
Proof.
  unfold join_next, join_fragment.
  destruct segment_text as [|c s]; [now rewrite andb_true_r |].
  cbn [nonempty negb Nat.ltb Nat.leb andb].
  match goal with |- blank (if ?b then _ else _) = _ => destruct b end.
  - rewrite !blank_append, blank_rstrip. reflexivity.
  - rewrite !blank_append. cbn [blank NL].
    change (isspace (ascii_of_nat 10)) with true.
    now rewrite !andb_true_r.
Qed.

Lemma blank_fold_join_next (results : list string) :
  forall transcript : string,
    blank (fold_left join_next results transcript)
    = blank transcript && forallb blank results.
Proof.
  induction results as [|r rs IH]; intros t; simpl.
  - now rewrite andb_true_r.
  - rewrite IH, blank_join_next. now rewrite andb_assoc.
Qed.

(** The merged text is blank exactly when every fragment is. *)
Lemma blank_merge_results (results : list string) :
  blank (merge_results results) = forallb blank results.
Proof.
  unfold merge_results.
  rewrite blank_clean_lines, join_fragments_fold by reflexivity.
  now rewrite blank_fold_join_next.
Qed.

Lemma blank_add_rtl_marker (W : transcription.Services)
    (language : option string) (transcript : string) :
  blank (add_rtl_marker W language transcript) = true -> blank transcript = true.
Proof.
  unfold add_rtl_marker.
  destruct (transcription.is_ar language); [discriminate |].
  destruct (negb (language_given language)); [| trivial].
  destruct (detect W _) as [l|]; [| trivial].
  destruct (String.eqb l "ar"); [discriminate | trivial].
Qed.

(** ** The long-video task reaches [complete] *)

Lemma video_infos_progress_update (W : World) (u : progress.Update) (st : State) :
  video_infos (progress_update W u st) = video_infos st.
Proof. reflexivity. Qed.

Lemma video_infos_set_audio_files (a : gset string) (st : State) :
  video_infos (set_audio_files a st) = video_infos st.
Proof. reflexivity. Qed.

Lemma video_infos_write_info (video_id : string) (info : VideoInfo) (st : State) :
  video_infos (write_info video_id info st)
  = <[info_file video_id := info]> (video_infos st).
Proof. reflexivity. Qed.

(** Reading the record back through the steps that leave it alone. *)
Ltac read_record :=
  repeat first
    [ rewrite video_infos_progress_update
    | rewrite video_infos_set_audio_files
    | rewrite video_infos_write_info ];
  rewrite ?lookup_insert_eq.

Lemma plv_chunk_body_planned (W : World) (job : Job) (cd total : Z) (actual : Q)
    (idx : nat) (acc : list string) (st : State) (T : Z) (S : option string) :
  planned (j_video_id job) T S st ->
  planned (j_video_id job) T S
    (state_of (plv_chunk_body W job cd total actual idx acc st)).
Proof.
  intros (info & Hinfo & Ht & Hs). unfold plv_chunk_body.
  destruct (ffmpeg_chunk W _ _ _ _); cbn [negb]; [| exists info; auto].
  destruct (split_audio _ _ _ _) as [segments|]; [| exists info; auto].
  cbn [state_of]. rewrite video_infos_progress_update. cbn [video_infos set_temp_files].
  rewrite Hinfo. cbn [state_of write_info set_temp_files video_infos set_video_infos].
  eexists. split; [apply lookup_insert_eq |]. cbn [vi_chunks_total vi_processing_status vi_set_chunks]. auto.
Qed.

Lemma plv_chunk_planned (W : World) (job : Job) (cd total : Z) (actual : Q)
    (acc : list string * State) (idx : nat) (T : Z) (S : option string) :
  planned (j_video_id job) T S (snd acc) ->
  planned (j_video_id job) T S (snd (plv_chunk W job cd total actual acc idx)).
Proof.
  destruct acc as [all st]. cbn [snd]. intros H. unfold plv_chunk.
  match goal with
  | |- context [plv_chunk_body W job cd total actual idx all ?s] =>
      pose proof (plv_chunk_body_planned W job cd total actual idx all s T S) as Hb;
      destruct (plv_chunk_body W job cd total actual idx all s)
  end; cbn [snd state_of] in *; apply Hb; exact H.
Qed.

Lemma plv_chunks_planned (W : World) (job : Job) (cd total : Z) (actual : Q)
    (st : State) (T : Z) (S : option string) :
  planned (j_video_id job) T S st ->
  planned (j_video_id job) T S (snd (plv_chunks W job cd total actual st)).
Proof.
  unfold plv_chunks. generalize (seq 0 (Z.to_nat total)) as idxs.
  generalize (@nil string) as all. intros all idxs. revert all st.
  induction idxs as [|i idxs IH]; intros all st H; [exact H |].
  cbn [fold_left].
  destruct (plv_chunk W job cd total actual (all, st) i) as [all' st'] eqn:E.
  apply IH. change st' with (snd (all', st')). rewrite <- E.
  now apply plv_chunk_planned.
Qed.

(** With the record in place and the download done, the loop over the
    super-chunks ends normally, whatever happens inside it. *)
Lemma plv_transcribed_returns (W : World) (job : Job) (st : State) (info : VideoInfo) :
  video_infos st !! info_file (j_video_id job) = Some info ->
  download_audio W (j_url job) (j_audio_path job) = true ->
  let actual := get_audio_duration (audio W) (j_audio_path job) in
  exists all st',
    plv_transcribed W job st = Returned (settled_total W job, actual, all) st'
    /\ planned (j_video_id job) (settled_total W job)
         (Some (if Qltb 0 actual then "transcribing" else "downloading")) st'.
Proof.
  intros Hinfo Hdl actual.
  unfold plv_transcribed, plv_plan, read_info.
  rewrite video_infos_progress_update, Hinfo. cbn [bind].
  unfold plv_download. rewrite Hdl. cbn [negb].
  fold actual. unfold settled_total. fold actual.
  destruct (Qltb 0 actual) eqn:Hact.
  - unfold read_info. read_record. cbn [bind].
    match goal with
    | |- context [plv_chunks W job ?cd ?t actual ?s] =>
        pose proof (plv_chunks_planned W job cd t actual s t (Some "transcribing")) as Hp;
        destruct (plv_chunks W job cd t actual s) as [all st'] eqn:E
    end.
    exists all, st'. split; [reflexivity |]. apply Hp.
    eexists. split; [read_record; reflexivity |]. split; reflexivity.
  - cbn [bind].
    match goal with
    | |- context [plv_chunks W job ?cd ?t actual ?s] =>
        pose proof (plv_chunks_planned W job cd t actual s t (Some "downloading")) as Hp;
        destruct (plv_chunks W job cd t actual s) as [all st'] eqn:E
    end.
    exists all, st'. split; [reflexivity |]. apply Hp.
    eexists. split; [read_record; reflexivity |]. split; reflexivity.
Qed.

(** The final record of a task whose download succeeded: complete, with
    both counters at the settled number of super-chunks. *)
Lemma process_long_video_completes (W : World) (job : Job) (st : State)
    (info : VideoInfo) :
  video_infos st !! info_file (j_video_id job) = Some info ->
  download_audio W (j_url job) (j_audio_path job) = true ->
  exists final,
    video_infos (process_long_video W job st) !! info_file (j_video_id job)
    = Some final
    /\ vi_processing_status final = Some "complete"
    /\ vi_chunks_total final = settled_total W job
    /\ vi_chunks_completed final = settled_total W job.
Proof.
  intros Hinfo Hdl.
  destruct (plv_transcribed_returns W job st info Hinfo Hdl) as (all & st' & E & _).
  unfold process_long_video. rewrite E.
  eexists. split; [apply lookup_insert_eq |]. repeat split.
Qed.

(** A failed download is the recorded error. *)
Lemma process_long_video_download_error (W : World) (job : Job) (st : State)
    (info : VideoInfo) :
  video_infos st !! info_file (j_video_id job) = Some info ->
  download_audio W (j_url job) (j_audio_path job) = false ->
  exists final,
    video_infos (process_long_video W job st) !! info_file (j_video_id job)
    = Some final
    /\ vi_processing_status final = Some "error"
    /\ vi_error_message final = Some "Failed to download audio for long video".
Proof.
  intros Hinfo Hdl.
  unfold process_long_video, plv_transcribed, plv_plan, read_info.
  rewrite video_infos_progress_update, Hinfo. cbn [bind].
  unfold plv_download. rewrite Hdl. cbn [negb bind].
  unfold plv_handle. read_record.
  eexists. split; [read_record; reflexivity |]. split; reflexivity.
Qed.

(** ** What one progress update leaves in the tracker *)

Lemma estimate_keeps (now : Q) (s : Status) :
  message (estimate now s) = message s
  /\ percentage (estimate now s) = percentage s
  /\ chunks_total (estimate now s) = chunks_total s
  /\ chunks_completed (estimate now s) = chunks_completed s.
Proof.
  unfold estimate. destruct (started_at s) as [t0|]; [| auto].
  match goal with |- context [if ?b then _ else _] => destruct b end; auto.
Qed.

Lemma update_progress_message (now : Q) (u : Update) (s : Status) :
  message (update_progress now u s) = u_message u.
Proof.
  unfold update_progress. rewrite (proj1 (estimate_keeps _ _)).
  destruct u as [m p v t ct cc sa]. cbn [u_message u_percentage u_video_id
    u_processing_type u_chunks_total u_chunks_completed u_started_at].
  destruct p, v, t, ct as [ct|], cc as [cc|], sa; cbn [when_given];
    unfold derive_percentage; cbn [u_chunks_total];
    repeat match goal with
           | |- context [if ?b then _ else _] => destruct b
           | |- context [match F64.percent ?a ?b with _ => _ end] =>
               destruct (F64.percent a b)
           end; reflexivity.
Qed.

(** An update that carries a percentage and no completed count sets it. *)
Lemma update_progress_explicit (now : Q) (u : Update) (s : Status) (p : Z) :
  u_percentage u = Some p -> u_chunks_completed u = None ->
  percentage (update_progress now u s) = p.
Proof.
  intros Hp Hc. unfold update_progress.
  rewrite (proj1 (proj2 (estimate_keeps _ _))). rewrite Hp, Hc.
  destruct (u_video_id u), (u_processing_type u), (u_chunks_total u),
    (u_started_at u); reflexivity.
Qed.

(** An update that carries neither a percentage nor a total leaves the
    percentage as it was, whatever the counters say. *)
Lemma update_progress_keeps_percentage (now : Q) (u : Update) (s : Status) :
  u_percentage u = None -> u_chunks_total u = None ->
  percentage (update_progress now u s) = percentage s.
Proof.
  intros Hp Ht. unfold update_progress.
  rewrite (proj1 (proj2 (estimate_keeps _ _))). rewrite Hp, Ht.
  unfold derive_percentage. rewrite Ht.
  destruct (u_video_id u), (u_processing_type u), (u_chunks_completed u),
    (u_started_at u); reflexivity.
Qed.

(** ** A direct job with failed segments *)

Lemma transcribe_segments_blank (S : transcription.Services)
    (segments : list string) (language : option string) :
  blank (transcribe_segments S segments language) = true ->
  forallb blank (List.map (transcribe_single_segment S language) segments) = true.
Proof.
  destruct segments as [|seg rest]; [reflexivity |].
  unfold transcribe_segments. intros H.
  apply blank_add_rtl_marker in H. now rewrite blank_merge_results in H.
Qed.


(** The tail of the direct path stores the transcript and reports the
    end of the processing. *)
Lemma finish_direct_spec (W : World) (video_id title channel : string) (d : Q)
    (language : option string) (path transcript : string) (st : State) :
  exists preview lang keywords st',
    finish_direct W video_id title channel d language path transcript st
    = (Processed video_id title preview lang keywords, st')
    /\ transcripts st' !! transcript_file video_id = Some transcript
    /\ progress.message (progress_status st') = "Processing complete!"
    /\ progress.percentage (progress_status st') = 100.
Proof.
  unfold finish_direct. do 4 eexists. split; [reflexivity |].
  split; [| split].
  - change (transcripts (progress_update W ?u ?s)) with (transcripts s).
    change (transcripts (set_video_infos ?v ?s)) with (transcripts s).
    unfold embed_and_store. destruct (split_text W _ _ _).
    + apply lookup_insert_eq.
    + change (transcripts (set_collections ?v ?s)) with (transcripts s).
      apply lookup_insert_eq.
  - apply update_progress_message.
  - now apply update_progress_explicit.
Qed.

(** The direct path of [process] ends with the transcript stored and the
    success response as soon as one fragment is not blank. *)
Lemma process_direct_completes (W : World) (req : ProcessRequest) (st : State)
    (u title channel : string) (d : Q) (segments : list string) :
  url req = Some u -> nonempty u = true ->
  nonempty (extract_video_id W u) = true ->
  get_video_info W u = (title, d, channel) ->
  Qltb 1800 d = false -> force_chunked req = false ->
  download_audio W u (AUDIO_DIR +:+ "/" +:+ audio_file (extract_video_id W u)) = true ->
  split_audio (audio W) (AUDIO_DIR +:+ "/" +:+ audio_file (extract_video_id W u))
    120 false = Some segments ->
  (exists seg, In seg segments
     /\ blank (transcribe_single_segment (speech W) (p_language req) seg) = false) ->
  exists preview lang keywords st',
    process W req st
    = (Processed (extract_video_id W u) title preview lang keywords, st', None)
    /\ transcripts st' !! transcript_file (extract_video_id W u)
       = Some (transcribe_segments (speech W) segments (p_language req))
    /\ progress.message (progress_status st') = "Processing complete!"
    /\ progress.percentage (progress_status st') = 100.
Proof.
  intros Hu Hne Hvid Hinfo Hshort Hforce Hdl Hsplit (seg & Hin & Hseg).
  unfold process. rewrite Hu. destruct u as [|c u']; [discriminate |].
  rewrite Hvid. cbn [negb].
  rewrite Hinfo, Hshort, Hforce. cbn [orb].
  generalize (progress_update W
                (upd "Getting video information..." (Some 10)
                   (extract_video_id W (String c u')))
                (process_started W (extract_video_id W (String c u')) st)).
  intros st1. unfold process_direct. rewrite Hdl. cbn [negb].
  assert (Hlen : Qltb 3600 d = false).
  { unfold Qltb in *. apply negb_false_iff in Hshort. apply negb_false_iff.
    apply Qle_bool_iff in Hshort. apply Qle_bool_iff.
    eapply Qle_trans; [exact Hshort | discriminate]. }
  rewrite Hlen, Hsplit.
  destruct segments as [|s0 rest]; [destruct Hin |].
  assert (Hnb : negb (nonempty (strip
             (transcribe_segments (speech W) (s0 :: rest) (p_language req)))) = false).
  { rewrite strip_nonempty, negb_involutive.
    destruct (blank (transcribe_segments _ _ _)) eqn:Hb; [| reflexivity].
    apply transcribe_segments_blank in Hb.
    rewrite forallb_forall in Hb.
    specialize (Hb _ (in_map _ _ _ Hin)). congruence. }
  rewrite Hnb.
  match goal with
  | |- context [finish_direct W ?v ?t ?c ?d ?l ?p ?tr ?s] =>
      destruct (finish_direct_spec W v t c d l p tr s)
        as (preview & lang & keywords & st' & E & Ht & Hm & Hp)
  end.
  rewrite E. exists preview, lang, keywords, st'. auto.
Qed.

Lemma transcribe_failed_segment (S : transcription.Services)
    (language : option string) (segment : string) :
  fails_to_transcribe S language segment ->
  transcribe_single_segment S language segment = "".
Proof.
  unfold fails_to_transcribe, transcribe_single_segment.
  intros [H | H]; rewrite H; [reflexivity |].
  destruct (segment_exists S segment); reflexivity.
Qed.

(** C1, as amended: a segment that fails to transcribe leaves the empty
    string at its ordinal of the positional results; the merge passes over
    empty results without leaving a marker, so the transcript is the merge
    of the non-empty fragments alone; and the job is not failed by them: a
    direct job with one fragment that is not blank stores that transcript
    and reports the end of the processing, and a chunked job whose
    download succeeded records [complete] whatever the speech service
    does. *)
Theorem failed_segments_are_skipped (W : World) (req : ProcessRequest) (st : State)
    (u title channel : string) (d : Q) (segments : list string) :
  direct_job W req u title channel d segments ->
  (exists seg, In seg segments
     /\ blank (transcribe_single_segment (speech W) (p_language req) seg) = false) ->
  let results :=
    List.map (transcribe_single_segment (speech W) (p_language req)) segments in
  length results = length segments
  /\ (forall i seg, segments !! i = Some seg ->
        fails_to_transcribe (speech W) (p_language req) seg ->
        results !! i = Some "")
  /\ transcribe_segments (speech W) segments (p_language req)
     = add_rtl_marker (speech W) (p_language req)
         (merge_results (List.filter nonempty results))
  /\ (exists preview lang keywords st',
        process W req st
        = (Processed (extract_video_id W u) title preview lang keywords, st', None)
        /\ transcripts st' !! transcript_file (extract_video_id W u)
           = Some (transcribe_segments (speech W) segments (p_language req))
        /\ progress.message (progress_status st') = "Processing complete!")
  /\ (forall job st0 info,
        video_infos st0 !! info_file (j_video_id job) = Some info ->
        download_audio W (j_url job) (j_audio_path job) = true ->
        exists final,
          video_infos (process_long_video W job st0) !! info_file (j_video_id job)
          = Some final
          /\ vi_processing_status final = Some "complete").
Proof.
  intros (Hu & Hne & Hvid & Hinfo & Hshort & Hforce & Hdl & Hsplit) Hsome results.
  split; [apply length_map |].
  split.
  { intros i seg Hi Hfail. subst results.
    rewrite list_lookup_fmap, Hi. cbn.
    now rewrite (transcribe_failed_segment _ _ _ Hfail). }
  split.
  { destruct Hsome as (seg & Hin & _).
    destruct segments as [|s0 rest]; [destruct Hin |].
    unfold transcribe_segments. fold results.
    now rewrite (merge_results_skips_empty results). }
  split.
  { destruct (process_direct_completes W req st u title channel d segments
                Hu Hne Hvid Hinfo Hshort Hforce Hdl Hsplit Hsome)
      as (preview & lang & keywords & st' & E & Ht & Hm & _).
    exists preview, lang, keywords, st'. auto. }
  intros job st0 info Hi Hd.
  destruct (process_long_video_completes W job st0 info Hi Hd)
    as (final & Hf & Hs & _).
  exists final. auto.
Qed.

(** The instance: ten segments, the fourth and the eighth failing. *)
Lemma failed_segments_are_skipped_witness :
  let W := demo_world 1200 numbered in
  let req := demo_request false in
  (direct_job W req "https://youtu.be/v1" "Demo" "Channel" 1200 ten_segments
   /\ exists seg, In seg ten_segments
        /\ blank (transcribe_single_segment (speech W) (p_language req) seg) = false)
  /\ length ten_results = length ten_segments
  /\ (forall i seg, ten_segments !! i = Some seg ->
        fails_to_transcribe (speech W) (p_language req) seg ->
        ten_results !! i = Some "")
  /\ transcribe_segments (speech W) ten_segments (p_language req)
     = add_rtl_marker (speech W) (p_language req)
         (merge_results (List.filter nonempty ten_results))
  /\ (exists preview lang keywords st',
        process W req store.empty
        = (Processed (extract_video_id W "https://youtu.be/v1") "Demo"
             preview lang keywords, st', None)
        /\ transcripts st' !! transcript_file (extract_video_id W "https://youtu.be/v1")
           = Some (transcribe_segments (speech W) ten_segments (p_language req))
        /\ progress.message (progress_status st') = "Processing complete!")
  /\ (forall job st0 info,
        video_infos st0 !! info_file (j_video_id job) = Some info ->
        download_audio W (j_url job) (j_audio_path job) = true ->
        exists final,
          video_infos (process_long_video W job st0) !! info_file (j_video_id job)
          = Some final
          /\ vi_processing_status final = Some "complete").
Proof.
  intros W req.
  assert (Hjob : direct_job W req "https://youtu.be/v1" "Demo" "Channel" 1200
                   ten_segments).
  { repeat split; vm_compute; reflexivity. }
  assert (Hsome : exists seg, In seg ten_segments
            /\ blank (transcribe_single_segment (speech W) (p_language req) seg)
               = false).
  { exists "data/segments/v1/segment_000.mp3". split; [| vm_compute; reflexivity].
    vm_compute. left. reflexivity. }
  split; [split; [exact Hjob | exact Hsome] |].
  exact (failed_segments_are_skipped W req store.empty "https://youtu.be/v1"
           "Demo" "Channel" 1200 ten_segments Hjob Hsome).
Defined.

(** C1, as stated, fails: with two of ten segments failing, the transcript
    holds the eight fragments on eight lines and no marker; the entry at
    the ordinal of the first failed segment is the fifth fragment. *)
Lemma no_marker_for_failed_segments :
  let transcript := transcribe_segments demo_speech ten_segments (Some "en") in
  length ten_results = 10%nat
  /\ length (List.filter (fun r => negb (nonempty r)) ten_results) = 2%nat
  /\ ten_results !! 3%nat = Some ""
  /\ length (split NL transcript) = 8%nat
  /\ split NL transcript !! 3%nat = Some "Fragment segment_004.mp3."
  /\ ~ markers_at_failed_ordinals ten_results transcript.
Proof.
  repeat split; try (vm_compute; reflexivity).
  intros [Hlen _]. vm_compute in Hlen. discriminate.
Qed.

(** ** The segment plan of [split_audio] *)

Lemma batches_concat {A} (size : nat) (l : list A) :
  forall fuel : nat,
    (0 < size)%nat -> (length l <= fuel)%nat ->
    List.concat (batches fuel size l) = l.
Proof.
  intros fuel Hsize. revert l.
  induction fuel as [|f IH]; intros l Hlen.
  - destruct l; [reflexivity | cbn in Hlen; lia].
  - destruct l as [|x l]; [reflexivity |].
    cbn [batches List.concat].
    rewrite IH.
    + apply take_drop.
    + rewrite length_drop. cbn [length] in *. lia.
Qed.

(** Extracting batch by batch gives what extracting at once gives. *)
Lemma batched_extraction (W : audio_processing.Services)
    (f : nat -> string) (bs : list (list nat)) :
  List.concat (List.map (fun b => valid_paths W (List.map f b)) bs)
  = valid_paths W (List.map f (List.concat bs)).
Proof.
  induction bs as [|b bs IH]; [reflexivity |].
  cbn [List.map List.concat]. rewrite IH.
  unfold valid_paths. now rewrite List.map_app, List.filter_app.
Qed.

(** Every path [split_audio] keeps is the file of a planned segment. *)
Lemma valid_paths_planned (W : audio_processing.Services)
    (input_file dir : string) (m : Z) (long : bool) (idxs : list nat) (p : string) :
  In p (valid_paths W (List.map (process_segment W input_file dir m long) idxs)) ->
  exists i, In i idxs /\ p = seg_path (plan_segment dir m i).
Proof.
  unfold valid_paths. rewrite filter_In, in_map_iff.
  intros [(i & Hp & Hi) Hv]. exists i. split; [exact Hi |].
  unfold process_segment in Hp.
  destruct (ffmpeg_segment W _ _ _ _ _); [now symmetry |].
  subst p. discriminate.
Qed.

Lemma inject_Z_pos (m : Z) : 0 < m -> (0 < inject_Z m)%Q.
Proof. intros H. unfold Qlt. cbn. lia. Qed.

Lemma Qfloor_div_bounds (d : Q) (m : Z) :
  0 < m ->
  (inject_Z (Qfloor (d / inject_Z m) * m) <= d)%Q
  /\ (d < inject_Z ((Qfloor (d / inject_Z m) + 1) * m))%Q.
Proof.
  intros Hm.
  assert (Hmq : (0 < inject_Z m)%Q) by (apply inject_Z_pos; exact Hm).
  assert (Hne : ~ (inject_Z m == 0)%Q).
  { intros E. rewrite E in Hmq. now apply Qlt_irrefl in Hmq. }
  rewrite !inject_Z_mult. split.
  - apply Qle_trans with ((d / inject_Z m) * inject_Z m)%Q.
    + apply Qmult_le_r; [exact Hmq | apply Qfloor_le].
    + rewrite Qmult_comm, Qmult_div_r by exact Hne. apply Qle_refl.
  - apply Qle_lt_trans with ((d / inject_Z m) * inject_Z m)%Q.
    + rewrite Qmult_comm, Qmult_div_r by exact Hne. apply Qle_refl.
    + apply Qmult_lt_r; [exact Hmq | apply Qlt_floor].
Qed.

(** For a file at least one segment long, the count is the whole number
    of segment lengths that fit. *)
Lemma segments_count_floor (d : Q) (m : Z) :
  0 < m -> (inject_Z m <= d)%Q ->
  segments_count d m = Qfloor (d / inject_Z m)
  /\ 1 <= Qfloor (d / inject_Z m).
Proof.
  intros Hm Hd.
  assert (Hmq : (0 < inject_Z m)%Q) by (apply inject_Z_pos; exact Hm).
  assert (H1 : (1 <= d / inject_Z m)%Q).
  { apply Qle_shift_div_l; [exact Hmq |]. now rewrite Qmult_1_l. }
  assert (Hf : 1 <= Qfloor (d / inject_Z m)).
  { change 1 with (Qfloor (inject_Z 1)). apply Qfloor_resp_le. exact H1. }
  split; [| exact Hf].
  unfold segments_count, int_of_Q.
  assert (Hpos : Qle_bool 0 (d / inject_Z m) = true).
  { apply Qle_bool_iff. eapply Qle_trans; [| exact H1]. discriminate. }
  rewrite Hpos. lia.
Qed.

Lemma nonempty_append_r (a : string) (c : ascii) (b : string) :
  nonempty (a +:+ String c b) = true.
Proof. destruct a; reflexivity. Qed.

(** What [split_audio] keeps of a run over some indices: the file of
    every segment whose extraction succeeded and left its file, in the
    order of the indices. *)
Lemma valid_paths_extracted (W : audio_processing.Services)
    (input_file dir : string) (m : Z) (long : bool) (idxs : list nat) :
  valid_paths W (List.map (process_segment W input_file dir m long) idxs)
  = List.map seg_path
      (List.filter
         (fun g => ffmpeg_segment W input_file (seg_start g) (seg_length g) long
                     (seg_path g)
                   && path_exists W (seg_path g))
         (List.map (plan_segment dir m) idxs)).
Proof.
  unfold valid_paths.
  induction idxs as [|i idxs IH]; [reflexivity |].
  cbn [List.map List.filter]. rewrite IH. unfold process_segment.
  assert (Hne : nonempty (seg_path (plan_segment dir m i)) = true)
    by exact (nonempty_append_r dir "/"
                ("segment_" +:+ zero_pad 3 (Z.of_nat i) +:+ ".mp3")).
  destruct (ffmpeg_segment W input_file _ _ long _); cbn [andb nonempty];
    [| reflexivity].
  rewrite Hne. cbn [andb].
  destruct (path_exists W _); reflexivity.
Qed.

(** C10: for a file of duration [d] at least one segment length [m] long,
    [split_audio] plans [max(1, floor(d / m))] segments, the i-th starting
    at [i * m] and [m] long: what it returns is exactly the list of the
    files of those segments, in that order, whose extraction ([-ss] the
    start, [-t] the length) succeeded and left its file; when [d] is not a
    whole multiple of [m], what lies after the last segment boundary, a
    tail shorter than [m], is in no segment. *)
Theorem split_audio_drops_the_tail (W : audio_processing.Services)
    (input_file : string) (max_seconds : Z) (is_long_video : bool) (d : Q) :
  check_ffmpeg W = true -> path_exists W input_file = true ->
  ffprobe W input_file = Some d ->
  let long := detect_long_video W input_file is_long_video in
  let m := effective_max_seconds d max_seconds long in
  let n := Z.max 1 (Qfloor (d / inject_Z m)) in
  let plan := planned_segments input_file d max_seconds long in
  let extracted (g : Segment) :=
    ffmpeg_segment W input_file (seg_start g) (seg_length g) long (seg_path g)
    && path_exists W (seg_path g) in
  0 < m -> (inject_Z m <= d)%Q ->
  length plan = Z.to_nat n
  /\ (forall i g, plan !! i = Some g ->
        seg_index g = i /\ seg_start g = Z.of_nat i * m /\ seg_length g = m)
  /\ split_audio W input_file max_seconds is_long_video
     = Some (List.map seg_path (List.filter extracted plan))
  /\ ((forall g, In g plan -> extracted g = true) ->
      exists paths,
        split_audio W input_file max_seconds is_long_video = Some paths
        /\ length paths = Z.to_nat n
        /\ forall i g, plan !! i = Some g -> paths !! i = Some (seg_path g))
  /\ ((forall k : Z, ~ (d == inject_Z (k * m))%Q) ->
        (inject_Z (n * m) < d)%Q
        /\ (d - inject_Z (n * m) < inject_Z m)%Q
        /\ forall t g, (inject_Z (n * m) <= t)%Q -> In g plan -> ~ covers g t).
Proof.
  intros Hff Hex Hprobe long m n plan extracted Hm Hd.
  destruct (segments_count_floor d m Hm Hd) as [Hcount Hone].
  destruct (Qfloor_div_bounds d m Hm) as [Hlo Hhi].
  assert (Hn : n = Qfloor (d / inject_Z m)) by (subst n; lia).
  assert (Hplan : plan = List.map (plan_segment (segments_dir input_file) m)
                           (seq 0 (Z.to_nat n))).
  { subst plan. unfold planned_segments. fold m. now rewrite Hcount, Hn. }
  assert (Hlen : length plan = Z.to_nat n)
    by (rewrite Hplan; now rewrite length_map, length_seq).
  assert (Hsplit : split_audio W input_file max_seconds is_long_video
                   = Some (List.map seg_path (List.filter extracted plan))).
  { assert (Hdur : get_audio_duration W input_file = d).
    { unfold get_audio_duration. now rewrite Hex, Hprobe. }
    assert (Hpos : Qle_bool d 0 = false).
    { destruct (Qle_bool d 0) eqn:E; [| reflexivity].
      apply Qle_bool_iff in E. exfalso.
      apply (Qlt_irrefl 0). eapply Qlt_le_trans; [apply (inject_Z_pos m Hm) |].
      eapply Qle_trans; [exact Hd | exact E]. }
    assert (Hm0 : (m =? 0) = false) by (apply Z.eqb_neq; lia).
    unfold split_audio. rewrite Hff, Hex. cbn [negb]. fold long.
    rewrite Hdur, Hpos. fold m. rewrite Hm0, Hcount, <- Hn.
    rewrite Hplan. subst extracted.
    destruct (long && (50 <? n)).
    - rewrite batched_extraction, batches_concat by lia.
      now rewrite valid_paths_extracted.
    - now rewrite valid_paths_extracted. }
  split; [exact Hlen |]. split.
  { intros i g Hi. rewrite Hplan, list_lookup_fmap in Hi.
    destruct (seq 0 (Z.to_nat n) !! i) as [j|] eqn:Hj; [| discriminate].
    apply lookup_seq in Hj. destruct Hj as [-> _].
    cbn in Hi. injection Hi as <-. repeat split. }
  split; [exact Hsplit |]. split.
  { intros Hall. eexists. split; [exact Hsplit |].
    assert (Hf : List.filter extracted plan = plan).
    { clear -Hall. induction plan as [|g plan IH]; [reflexivity |].
      cbn [List.filter]. rewrite (Hall g) by now left.
      f_equal. apply IH. intros g' Hg'. apply Hall. now right. }
    rewrite Hf. split; [now rewrite length_map |].
    intros i g Hi. rewrite list_lookup_fmap, Hi. reflexivity. }
  intros Hnot. rewrite Hn.
  assert (Hlt : (inject_Z (Qfloor (d / inject_Z m) * m) < d)%Q).
  { apply Qle_lt_or_eq in Hlo. destruct Hlo as [H | H]; [exact H |].
    exfalso. apply (Hnot (Qfloor (d / inject_Z m))). now symmetry. }
  split; [exact Hlt |]. split.
  { apply Qlt_minus_iff.
    apply Qlt_minus_iff in Hhi.
    rewrite Z.mul_add_distr_r, Z.mul_1_l, inject_Z_plus in Hhi.
    setoid_replace
      (inject_Z m + - (d - inject_Z (Qfloor (d / inject_Z m) * m)))%Q
      with (inject_Z (Qfloor (d / inject_Z m) * m) + inject_Z m + - d)%Q
      using relation Qeq by ring.
    exact Hhi. }
  intros t g Ht Hg [_ Hend].
  rewrite Hplan, in_map_iff in Hg. destruct Hg as (i & <- & Hi).
  apply in_seq in Hi. cbn [seg_start seg_length plan_segment] in Hend.
  apply (Qlt_irrefl t). eapply Qlt_le_trans; [exact Hend |].
  eapply Qle_trans; [| exact Ht].
  rewrite <- Zle_Qle. nia.
Qed.

(** The instance: 1250 seconds cut every 120 seconds give ten segments,
    all of them extracted by the demonstration transcoder, and the last
    50 seconds are in none of them. *)
Lemma split_audio_drops_the_tail_witness :
  let W := demo_audio 1250 in
  let plan := planned_segments "data/audio/v1.mp3" 1250 120 false in
  (check_ffmpeg W = true /\ path_exists W "data/audio/v1.mp3" = true
   /\ ffprobe W "data/audio/v1.mp3" = Some 1250%Q
   /\ 0 < 120 /\ (inject_Z 120 <= 1250)%Q
   /\ forall k : Z, ~ (1250 == inject_Z (k * 120))%Q)
  /\ length plan = 10%nat
  /\ split_audio W "data/audio/v1.mp3" 120 false = Some (List.map seg_path plan)
  /\ (inject_Z (10 * 120) < 1250)%Q
  /\ (1250 - inject_Z (10 * 120) < inject_Z 120)%Q
  /\ forall t g, (inject_Z (10 * 120) <= t)%Q -> In g plan -> ~ covers g t.
Proof.
  intros W plan.
  assert (Hmul : forall k : Z, ~ (1250 == inject_Z (k * 120))%Q).
  { intros k. unfold Qeq. cbn. lia. }
  assert (Hle : (inject_Z 120 <= 1250)%Q) by (unfold Qle; cbn; lia).
  split; [repeat split; try reflexivity; assumption |].
  destruct (split_audio_drops_the_tail W "data/audio/v1.mp3" 120 false 1250
              eq_refl eq_refl eq_refl eq_refl Hle)
    as (Hlen & _ & Hsplit & _ & Htail).
  split; [exact Hlen |].
  split; [rewrite Hsplit; vm_compute; reflexivity |]. exact (Htail Hmul).
Defined.

(** ** The progress percentage *)

(** C6, evaluated: the percentage is derived from the counters only when
    the call itself carries the total.  After the total 5 is tracked, the
    update that reports one completed super-chunk (no percentage, no total
    in the call: the calls of the loop in [process_long_video]) leaves the
    percentage at the 15 set before, where the derived value is 20; and at
    the end of that loop on a 5400-second source the tracker reads 5 of 5
    at 15 per cent. *)
Theorem percentage_not_derived_from_tracked_total :
  let s1 := update_progress 1001
              (with_chunks_total 5
                 (upd "Audio downloaded, processing in chunks..." (Some 15) "v1"))
              progress.initial in
  let s2 := update_progress 1002
              (with_chunks_completed 1 (upd "Completed chunk 1/5" None "v1")) s1 in
  (chunks_total s2 = 5 /\ chunks_completed s2 = 1
   /\ percentage s2 = 15 /\ spec_percentage 1 5 = 20)
  /\ (chunks_total (progress_status long_transcribed) = 5
      /\ chunks_completed (progress_status long_transcribed) = 5
      /\ percentage (progress_status long_transcribed) = 15
      /\ spec_percentage 5 5 = 100).
Proof. repeat split; vm_compute; reflexivity. Qed.

(** ** The 5400-second scenario *)

(** A super-chunk file is cut into segments of 60 seconds or more: the
    segment length is never zero. *)
Lemma split_audio_sixty (A : audio_processing.Services) (path : string) :
  split_audio A path 60 true <> None.
Proof.
  unfold split_audio.
  destruct (negb (check_ffmpeg A)); [discriminate |].
  destruct (negb (path_exists A path)); [discriminate |].
  destruct (Qle_bool _ 0); [discriminate |].
  change (detect_long_video A path true) with true.
  assert (Hm : forall d, (effective_max_seconds d 60 true =? 0) = false).
  { intros d. unfold effective_max_seconds.
    destruct (Qltb 7200 d); [reflexivity |].
    destruct (Qltb 3600 d); reflexivity. }
  cbv zeta. rewrite Hm.
  destruct (true && _); discriminate.
Qed.

(** One iteration of the loop writes the ordinal of its super-chunk into
    the record when the transcoder cut it, and leaves the record alone
    when it did not. *)
Lemma plv_chunk_recorded (W : World) (job : Job) (cd total : Z) (actual : Q)
    (acc : list string * State) (idx : nat) (T C : Z) (S : option string) :
  recorded (j_video_id job) T C S (snd acc) ->
  recorded (j_video_id job) T
    (if cut W job cd actual idx then Z.of_nat idx + 1 else C) S
    (snd (plv_chunk W job cd total actual acc idx)).
Proof.
  destruct acc as [all st]. cbn [snd].
  intros (info & Hinfo & Ht & Hc & Hs).
  unfold plv_chunk, plv_chunk_body, cut.
  destruct (ffmpeg_chunk W _ _ _ _); cbn [negb snd];
    [| exists info; rewrite video_infos_progress_update; auto].
  pose proof (split_audio_sixty (audio W)
                (TEMP_DIR +:+ "/" +:+ chunk_file (j_video_id job) idx)) as Hsplit.
  destruct (split_audio _ _ _ _) as [segments|]; [| contradiction].
  rewrite video_infos_progress_update. cbn [video_infos set_temp_files].
  rewrite video_infos_progress_update, Hinfo. cbn [snd].
  eexists. split; [apply lookup_insert_eq |].
  cbn [vi_chunks_total vi_chunks_completed vi_processing_status vi_set_chunks]. auto.
Qed.

Lemma plv_chunks_recorded (W : World) (job : Job) (cd total : Z) (actual : Q)
    (T : Z) (S : option string) (idxs : list nat) :
  forall (all : list string) (st : State) (C : Z),
    recorded (j_video_id job) T C S st ->
    recorded (j_video_id job) T
      (fold_left (fun done idx => if cut W job cd actual idx
                                  then Z.of_nat idx + 1 else done) idxs C) S
      (snd (fold_left (plv_chunk W job cd total actual) idxs (all, st))).
Proof.
  induction idxs as [|i idxs IH]; intros all st C H; [exact H |].
  cbn [fold_left].
  pose proof (plv_chunk_recorded W job cd total actual (all, st) i T C S H) as Hi.
  destruct (plv_chunk W job cd total actual (all, st) i) as [all' st'].
  now apply IH.
Qed.

(** With the record in place, the download done and the duration of the
    downloaded audio known, the record reads, when the loop has ended, the
    settled plan, the status [transcribing] and the ordinal of the last
    super-chunk that was cut. *)
Lemma plv_transcribed_recorded (W : World) (job : Job) (st : State) (info : VideoInfo) :
  video_infos st !! info_file (j_video_id job) = Some info ->
  download_audio W (j_url job) (j_audio_path job) = true ->
  let actual := get_audio_duration (audio W) (j_audio_path job) in
  Qltb 0 actual = true ->
  recorded (j_video_id job) (settled_total W job)
    (last_cut W job (chunk_duration_of (j_duration job)) actual (settled_total W job))
    (Some "transcribing")
    (state_of (plv_transcribed W job st)).
Proof.
  intros Hinfo Hdl actual Hact.
  unfold plv_transcribed, plv_plan, read_info.
  rewrite video_infos_progress_update, Hinfo. cbn [bind].
  unfold plv_download. rewrite Hdl. cbn [negb].
  fold actual. unfold settled_total. fold actual. rewrite Hact.
  unfold read_info. read_record. cbn [bind].
  unfold plv_chunks, last_cut.
  match goal with
  | |- context [fold_left (plv_chunk W job ?cd ?t actual) ?idxs ([], ?s)] =>
      pose proof (plv_chunks_recorded W job cd t actual t (Some "transcribing")
                    idxs [] s 0) as Hp;
      destruct (fold_left (plv_chunk W job cd t actual) idxs ([], s)) as [all st']
  end.
  cbn [state_of snd] in *. apply Hp.
  eexists. split; [read_record; reflexivity |]. repeat split.
Qed.

(** C7, as amended: a 5400-second source, not forced, is processed in
    chunked mode with super-chunks of 1200 seconds, five of them; when the
    download succeeds and the downloaded audio lasts 5400 seconds, the
    record reads, once the loop over the super-chunks has ended,
    [chunks_total = 5] with status [transcribing] and, as
    [chunks_completed], the ordinal of the last super-chunk the transcoder
    cut (0 when it cut none), hence 5 when it cut the fifth; and it reads
    [chunks_total = chunks_completed = 5] with status [complete] when the
    task has finished, whether or not every super-chunk was cut. *)
Theorem long_source_is_chunked_and_completes (W : World) (req : ProcessRequest)
    (st : State) (u title channel : string) :
  url req = Some u -> nonempty u = true ->
  nonempty (extract_video_id W u) = true ->
  get_video_info W u = (title, 5400%Q, channel) ->
  force_chunked req = false ->
  exists st1 job,
    process W req st = (Started (extract_video_id W u) title 5400, st1, Some job)
    /\ j_video_id job = extract_video_id W u
    /\ chunk_duration_of (j_duration job) = 1200
    /\ total_chunks_of (j_duration job) (chunk_duration_of (j_duration job)) = 5
    /\ (download_audio W (j_url job) (j_audio_path job) = true ->
        get_audio_duration (audio W) (j_audio_path job) = 5400%Q ->
        recorded (j_video_id job) 5 (last_cut W job 1200 5400 5) (Some "transcribing")
          (state_of (plv_transcribed W job st1))
        /\ (cut W job 1200 5400 4 = true ->
            recorded (j_video_id job) 5 5 (Some "transcribing")
              (state_of (plv_transcribed W job st1)))
        /\ exists final,
             video_infos (process_long_video W job st1) !! info_file (j_video_id job)
             = Some final
             /\ vi_processing_status final = Some "complete"
             /\ vi_chunks_total final = 5
             /\ vi_chunks_completed final = 5).
Proof.
  intros Hu Hne Hvid Hinfo Hforce.
  unfold process. rewrite Hu. destruct u as [|c u']; [discriminate |].
  rewrite Hvid. cbn [negb]. rewrite Hinfo.
  change (Qltb 1800 5400) with true. cbn [orb].
  do 2 eexists. split; [reflexivity |].
  cbn [j_video_id j_duration j_url j_audio_path].
  split; [reflexivity |]. split; [reflexivity |]. split; [reflexivity |].
  intros Hdl Hact.
  match goal with
  | |- recorded ?v _ _ _ (state_of (plv_transcribed W ?job ?s)) /\ _ =>
      assert (Hrec : video_infos s !! info_file (j_video_id job)
                     = Some (initial_video_info v title channel 5400 (p_language req)))
        by apply lookup_insert_eq;
      assert (Hset : settled_total W job = 5)
        by (unfold settled_total; cbn [j_audio_path j_duration];
            rewrite Hact; reflexivity);
      assert (Hpos : Qltb 0 (get_audio_duration (audio W) (j_audio_path job)) = true)
        by (cbn [j_audio_path]; rewrite Hact; reflexivity);
      pose proof (plv_transcribed_recorded W job s _ Hrec Hdl Hpos) as Ht;
      pose proof (process_long_video_completes W job s _ Hrec Hdl) as Hc
  end.
  cbn [j_video_id j_url j_audio_path j_duration] in *.
  rewrite Hset in Ht, Hc. rewrite Hact in Ht.
  change (chunk_duration_of 5400) with 1200 in Ht.
  split; [exact Ht |]. split; [| exact Hc].
  intros Hcut. revert Ht. unfold last_cut.
  change (Z.to_nat 5) with 5%nat. cbn [seq fold_left]. rewrite Hcut.
  trivial.
Qed.

(** The instance: the demonstration service on a 5400-second source, whose
    transcoder cuts every super-chunk. *)
Lemma long_source_is_chunked_and_completes_witness :
  (url (demo_request false) = Some "https://youtu.be/v1"
   /\ nonempty "https://youtu.be/v1" = true
   /\ nonempty (extract_video_id long_world "https://youtu.be/v1") = true
   /\ get_video_info long_world "https://youtu.be/v1" = ("Demo", 5400%Q, "Channel")
   /\ force_chunked (demo_request false) = false)
  /\ exists st1 job,
       process long_world (demo_request false) store.empty
       = (Started "v1" "Demo" 5400, st1, Some job)
       /\ total_chunks_of (j_duration job) (chunk_duration_of (j_duration job)) = 5
       /\ download_audio long_world (j_url job) (j_audio_path job) = true
       /\ get_audio_duration (audio long_world) (j_audio_path job) = 5400%Q
       /\ last_cut long_world job 1200 5400 5 = 5
       /\ recorded (j_video_id job) 5 5 (Some "transcribing")
            (state_of (plv_transcribed long_world job st1))
       /\ exists final,
            video_infos (process_long_video long_world job st1)
              !! info_file (j_video_id job) = Some final
            /\ vi_processing_status final = Some "complete"
            /\ vi_chunks_total final = 5
            /\ vi_chunks_completed final = 5.
Proof.
  split; [repeat split |].
  destruct (long_source_is_chunked_and_completes long_world (demo_request false)
              store.empty "https://youtu.be/v1" "Demo" "Channel"
              eq_refl eq_refl eq_refl eq_refl eq_refl)
    as (st1 & job & E & Hid & _ & Ht & Hfin).
  assert (Hjob : job = long_job).
  { assert (Hs : snd (process long_world (demo_request false) store.empty)
                 = Some job) by (rewrite E; reflexivity).
    vm_compute in Hs. injection Hs as <-. reflexivity. }
  exists st1, job. split; [exact E |]. split; [exact Ht |].
  assert (Hdl : download_audio long_world (j_url job) (j_audio_path job) = true)
    by reflexivity.
  assert (Hact : get_audio_duration (audio long_world) (j_audio_path job) = 5400%Q)
    by (rewrite Hjob; reflexivity).
  assert (Hlast : last_cut long_world job 1200 5400 5 = 5)
    by (rewrite Hjob; vm_compute; reflexivity).
  split; [exact Hdl |]. split; [exact Hact |]. split; [exact Hlast |].
  destruct (Hfin Hdl Hact) as (Hloop & _ & Hdone).
  rewrite Hlast in Hloop. split; [exact Hloop | exact Hdone].
Defined.

(** C7, as stated, fails: on the demonstration run the record of the video
    reads five super-chunks completed of five while its status is still
    [transcribing]; it becomes [complete] only when the index is built. *)
Lemma five_chunks_completed_before_complete :
  snd long_run = Some long_job
  /\ exists info,
       video_infos long_transcribed !! info_file "v1" = Some info
       /\ vi_chunks_total info = 5
       /\ vi_chunks_completed info = 5
       /\ vi_processing_status info = Some "transcribing".
Proof.
  split; [vm_compute; reflexivity |].
  eexists. split; [vm_compute; reflexivity |]. repeat split.
Qed.

(** ** The time window of a question *)

Lemma flush_positive (sc : Scan) :
  Forall (fun seg => 0 < fst seg) (segments sc) ->
  Forall (fun seg => 0 < fst seg) (flush sc).
Proof.
  intros H. unfold flush.
  destruct (nonempty (current_text sc) && (0 <? current_time sc)) eqn:E;
    [| exact H].
  apply andb_true_iff in E. destruct E as [_ E]. apply Z.ltb_lt in E.
  apply Forall_app. split; [exact H |]. constructor; [exact E | constructor].
Qed.

(** No fragment read off a transcript carries the time zero: what stands
    under a [00:00] marker is never a candidate of the extraction. *)
Lemma parse_segments_positive (transcript : string) :
  Forall (fun seg => 0 < fst seg) (parse_segments transcript).
Proof.
  unfold parse_segments. apply flush_positive.
  generalize (split NL transcript) as lines.
  assert (H0 : Forall (fun seg : Z * string => 0 < fst seg)
                 (segments {| segments := []; current_time := 0;
                              current_text := "" |})) by constructor.
  revert H0.
  generalize {| segments := []; current_time := 0; current_text := "" |} as sc.
  intros sc H lines. revert sc H.
  induction lines as [|line lines IH]; intros sc H; [exact H |].
  cbn [fold_left]. apply IH. unfold scan_line.
  destruct (search_marker line) as [[minutes seconds]|]; cbn [segments];
    [now apply flush_positive | exact H].
Qed.

(** When some parsed segment lies in the padded window, the extract is
    made of exactly the parsed segments in it. *)
Lemma extract_window_exact (transcript : string) (start_q end_q duration : Q) :
  nonempty transcript = true ->
  Qltb (end_q - start_q) 60 = false ->
  let window := in_window (Qmax 0 (start_q - 30)) (Qmin duration (end_q + 30)) in
  List.filter window (parse_segments transcript) <> [] ->
  extract_transcript_segment transcript start_q end_q duration
  = join (NL +:+ NL)
      (List.map format_segment (List.filter window (parse_segments transcript))).
Proof.
  intros Hne Hlong window Hsome. unfold extract_transcript_segment.
  rewrite Hne, Hlong. cbn [negb].
  destruct (parse_segments transcript) as [|first others] eqn:Hp;
    [now destruct Hsome |].
  fold window.
  destruct (List.filter window (first :: others)) as [|x xs]; [now destruct Hsome |].
  reflexivity.
Qed.

(** C9, evaluated: for [start=600], [end=660] on a 3600-second source the
    fragments marked within [570, 690] are the ones selected; but the
    fallback does not see a fragment marked [00:00]: with fragments at
    [00:00] and [40:00] only, the one nearest to both ends of the window
    is the first (600 and 660 seconds away, against 1800 and 1740), and
    the extract is the second; and on the transcript of a whole
    3600-second source the super-chunk that holds the window, marked
    [00:00], is not a candidate. *)
Theorem zero_marker_is_lost_in_fallback :
  extract_transcript_segment marked_transcript 600 660 3600
  = "[9:30] two" +:+ NL +:+ NL +:+ "[10:30] three" +:+ NL +:+ NL +:+ "[11:30] four"
  /\ parse_segments gap_transcript = [(2400, "closing words")]
  /\ Qltb (Qabs_diff 0 600) (Qabs_diff 2400 600) = true
  /\ Qltb (Qabs_diff 0 660) (Qabs_diff 2400 660) = true
  /\ extract_transcript_segment gap_transcript 600 660 3600
     = "[40:00] closing words"
  /\ parse_segments hour_transcript = [(1200, "second part"); (2400, "third part")]
  /\ extract_transcript_segment hour_transcript 600 660 3600
     = "[20:00] second part".
Proof. repeat split; vm_compute; reflexivity. Qed.

(** ** The normalised question *)

Lemma lower_char_idempotent (c : ascii) : lower_char (lower_char c) = lower_char c.
Proof. destruct c as [[] [] [] [] [] [] [] []]; reflexivity. Qed.

Lemma isword_lower_char (c : ascii) : isword (lower_char c) = isword c.
Proof. destruct c as [[] [] [] [] [] [] [] []]; reflexivity. Qed.

Lemma isspace_lower_char (c : ascii) : isspace (lower_char c) = isspace c.
Proof. destruct c as [[] [] [] [] [] [] [] []]; reflexivity. Qed.

Lemma lower_idempotent (s : string) : lower (lower s) = lower s.
Proof.
  induction s as [|c s IH]; [reflexivity |].
  cbn [lower]. now rewrite lower_char_idempotent, IH.
Qed.

Lemma keep_word_space_lower (s : string) :
  keep_word_space (lower s) = lower (keep_word_space s).
Proof.
  induction s as [|c s IH]; [reflexivity |].
  cbn [lower keep_word_space].
  rewrite isword_lower_char, isspace_lower_char.
  destruct (isword c || isspace c); cbn [lower]; now rewrite IH.
Qed.

Lemma keep_word_space_idempotent (s : string) :
  keep_word_space (keep_word_space s) = keep_word_space s.
Proof.
  induction s as [|c s IH]; [reflexivity |].
  cbn [keep_word_space].
  destruct (isword c || isspace c) eqn:E; [| exact IH].
  cbn [keep_word_space]. now rewrite E, IH.
Qed.

(** Normalising a normalised question changes nothing. *)
Lemma clean_q_idempotent (q : string) : clean_q (clean_q q) = clean_q q.
Proof.
  unfold clean_q.
  rewrite (keep_word_space_lower (keep_word_space (lower q))).
  rewrite keep_word_space_idempotent.
  now rewrite <- keep_word_space_lower, lower_idempotent.
Qed.

(** ** What a new run leaves of the previous one *)

Lemma append_inv_head (p a b : string) : p +:+ a = p +:+ b -> a = b.
Proof.
  induction p as [|c p IH]; [trivial |].
  intros H. apply IH.
  change (String c (p +:+ a) = String c (p +:+ b)) in H. now injection H.
Qed.

Lemma segments_cache_file_distinct (video_id : string) :
  cache_file video_id <> segments_cache_file video_id.
Proof.
  unfold cache_file, segments_cache_file. intros H.
  apply append_inv_head in H. discriminate.
Qed.

(** What [clean_video_data] removes: the transcript, the per-question
    cache file and the vector collection of the video. *)
Lemma clean_video_data_removes (video_id : string) (st : State) :
  transcripts (clean_video_data video_id st) !! transcript_file video_id = None
  /\ cache_files (clean_video_data video_id st) !! cache_file video_id = None
  /\ collections (clean_video_data video_id st) !! collection_name video_id = None.
Proof. repeat split; apply lookup_delete_eq. Qed.

(** What it leaves: the time-window cache file of the video and the
    in-process cache of [qa_system]. *)
Lemma clean_video_data_keeps (video_id : string) (st : State) :
  cache_files (clean_video_data video_id st) !! segments_cache_file video_id
  = cache_files st !! segments_cache_file video_id
  /\ memory_cache (clean_video_data video_id st) = memory_cache st.
Proof.
  split; [| reflexivity].
  apply lookup_delete_ne, segments_cache_file_distinct.
Qed.

(** C2, evaluated: a first run, a question on the whole transcript and one
    on a time window, then a second run for the same source.  When the
    second run has cleaned the data of the video, the transcript, the
    collection and the per-question cache file are gone, but the answer
    of the first run is still returned by [get_cached_answer] from the
    in-process cache, and the time-window cache file still holds its
    entry; when the second run has finished, the same two questions are
    answered with the answers of the first run, the first with no new
    chat-completion request, the second as a cache hit. *)
Theorem stale_answers_survive_reprocessing :
  let h := qa_hash "What is Python?" "en" false in
  let hw := time_segment_hash "What is Python?" "en" (Some 60) (Some 180) in
  (transcripts rerun_started !! transcript_file "v1" = None
   /\ collections rerun_started !! collection_name "v1" = None
   /\ cache_files rerun_started !! cache_file "v1" = None)
  /\ fst (get_cached_answer h "v1" rerun_started) = Some "Answer 0"
  /\ (cache_files rerun_started !! segments_cache_file "v1") ≫= (fun c => c !! hw)
     = Some "[1:00 - 3:00] Answer 0"
  /\ (let r := ask short_world "v1" plain_question rerun_done in
      answer (fst r) = "Answer 0" /\ chat_log (snd r) = chat_log rerun_done)
  /\ (let r := ask short_world "v1" window_question rerun_done in
      answer (fst r) = "[1:00 - 3:00] Answer 0" /\ cached (fst r) = Some true).
Proof. repeat split; vm_compute; reflexivity. Qed.

(** ** The answer cache of the question endpoint *)

Lemma same_sources_refl (st : State) : same_sources st st.
Proof. split; reflexivity. Qed.

Lemma same_sources_trans (a b c : State) :
  same_sources a b -> same_sources b c -> same_sources a c.
Proof. intros [H1 H2] [H3 H4]. split; congruence. Qed.

Create HintDb sources.
#[local] Hint Resolve same_sources_refl : sources.

Lemma chat_same_sources (Sv : qa_system.Services) (system user : string) (st : State) :
  same_sources st (snd (chat Sv system user st)).
Proof. split; reflexivity. Qed.

Lemma summarize_parts_same_sources (Sv : qa_system.Services)
    (system language : string) (n : nat) (chunks : list string) :
  forall (idx : nat) (st : State),
    same_sources st (snd (summarize_parts Sv system language n idx chunks st)).
Proof.
  induction chunks as [|chunk rest IH]; intros idx st; [apply same_sources_refl |].
  cbn [summarize_parts].
  destruct (chat Sv system _ st) as [response st1] eqn:E1.
  pose proof (chat_same_sources Sv system
                (if ar language then prompts.summary_part_message_ar idx n chunk
                 else prompts.summary_part_message_en idx n chunk) st) as H1.
  rewrite E1 in H1. cbn [snd] in H1.
  specialize (IH (S idx) st1).
  destruct (summarize_parts Sv system language n (S idx) rest st1) as [sums st2].
  cbn [snd] in *. eapply same_sources_trans; eassumption.
Qed.

Lemma summarize_transcript_same_sources (Sv : qa_system.Services)
    (transcript length language : string) (st : State) :
  same_sources st (snd (summarize_transcript Sv transcript length language st)).
Proof.
  unfold summarize_transcript.
  destruct (negb (nonempty transcript) || _); [apply same_sources_refl |].
  destruct (10000 <? _).
  - match goal with
    | |- context [summarize_parts Sv ?sys ?l ?n ?i ?c st] =>
        pose proof (summarize_parts_same_sources Sv sys l n c i st) as H1;
        destruct (summarize_parts Sv sys l n i c st) as [sums st1]
    end.
    cbn [snd] in H1.
    match goal with
    | |- context [chat Sv ?sys ?u st1] =>
        pose proof (chat_same_sources Sv sys u st1) as H2;
        destruct (chat Sv sys u st1) as [response st2]
    end.
    cbn [snd] in H2.
    destruct response; cbn [snd]; eapply same_sources_trans; eassumption.
  - match goal with
    | |- context [chat Sv ?sys ?u st] =>
        pose proof (chat_same_sources Sv sys u st) as H2;
        destruct (chat Sv sys u st) as [response st2]
    end.
    cbn [snd] in H2. destruct response; exact H2.
Qed.

Lemma get_cached_answer_same_sources (Sv : qa_system.Services)
    (hash_key video_id : string) (st : State) :
  same_sources st (snd (get_cached_answer hash_key video_id st)).
Proof.
  unfold get_cached_answer.
  destruct (memory_lookup _ _ _); [apply same_sources_refl |].
  destruct (cache_files st !! _) as [cache|]; [| apply same_sources_refl].
  destruct (cache !! hash_key) as [a|]; [| apply same_sources_refl].
  destruct (nonempty a); split; reflexivity.
Qed.

Lemma ask_question_same_sources (Sv : qa_system.Services)
    (question transcript video_id language : string) (use_agent : bool)
    (history : option (list (string * string))) (title : string) (st : State) :
  same_sources st
    (snd (ask_question Sv question transcript video_id language use_agent
            history title st)).
Proof.
  unfold ask_question.
  destruct (_ && negb (is_video_related_question _ _)); [apply same_sources_refl |].
  destruct (negb (nonempty transcript) || _); [apply same_sources_refl |].
  destruct (is_summary_request question);
    [apply summarize_transcript_same_sources |].
  assert (Hc : exists cached st1,
             (if caches question history
              then get_cached_answer (qa_hash question language use_agent) video_id st
              else (None, st)) = (cached, st1) /\ same_sources st st1).
  { destruct (caches question history).
    - pose proof (get_cached_answer_same_sources Sv
                    (qa_hash question language use_agent) video_id st) as H.
      destruct (get_cached_answer _ video_id st) as [c s1]. eauto.
    - eauto with sources. }
  destruct Hc as (cached & st1 & -> & H1).
  destruct (truthy cached) as [hit|]; [exact H1 |].
  match goal with
  | |- context [let '(_, _) := ?p in _] => destruct p as [sys u]
  end.
  match goal with
  | |- context [chat ?w ?a ?b ?s] =>
      pose proof (chat_same_sources w a b s) as H2;
      destruct (chat w a b s) as [response st2]
  end.
  cbn [snd] in *; destruct response; cbn [snd];
       [ match goal with
         | |- context [if ?b then _ else _] => destruct b
         end;
         (eapply same_sources_trans; [eassumption |];
          eapply same_sources_trans; [eassumption |]; split; reflexivity)
       | eapply same_sources_trans; eassumption ].
Qed.

Lemma get_conversation_history_keeps (W : World) (req : AskRequest)
    (video_id : string) (st : State) :
  let st' := snd (get_conversation_history W req video_id st) in
  same_sources st st' /\ cache_files st' = cache_files st
  /\ chat_log st' = chat_log st.
Proof.
  unfold get_conversation_history.
  destruct (session_id req) as [[|c sid]|]; cbn [nonempty read_clock];
    match goal with
    | |- context [conversation_histories ?s !! ?k] =>
        destruct (conversation_histories s !! k)
    end; repeat split.
Qed.

Lemma not_a_followup_status (W : World) (req : AskRequest) (question : string)
    (history : list (string * string)) :
  not_a_followup req -> query req = Some question ->
  followup_status req question history = false.
Proof.
  unfold followup_status. intros [-> | [-> H]] Hq; [reflexivity |].
  now rewrite (H _ Hq).
Qed.

(** A miss of the whole-transcript branch leaves the answer in the
    per-question cache file, under the fingerprint of the question. *)
Lemma ask_full_miss (W : World) (video_id question : string) (req : AskRequest)
    (info : VideoInfo) (transcript sid : string) (st st1 : State) (resp : Response) :
  ask_full W video_id question req info transcript sid false st = (resp, st1) ->
  cached resp = Some false ->
  same_sources st st1
  /\ exists entries,
       cache_files st1 !! cache_file video_id = Some entries
       /\ entries !! q_hash question (language req) false = Some (answer resp).
Proof.
  unfold ask_full. cbn [negb].
  match goal with
  | |- context [truthy ?c] => destruct (truthy c) as [hit|]
  end.
  { intros H. injection H as <- <-. discriminate. }
  match goal with
  | |- context [ask_question ?a ?b ?c ?d ?e ?f ?g ?h ?i] =>
      pose proof (ask_question_same_sources a b c d e f g h i) as Hs;
      destruct (ask_question a b c d e f g h i) as [ans st0]
  end.
  cbn [snd] in Hs. intros H _. injection H as <- <-.
  split; [destruct Hs; split; assumption |].
  eexists. split; apply lookup_insert_eq.
Qed.

(** A miss of the time-window branch leaves the answer in the time-window
    cache file, under the fingerprint of the question and the window. *)
Lemma ask_time_window_miss (W : World) (video_id question : string)
    (req : AskRequest) (info : VideoInfo) (transcript sid : string)
    (followup : bool) (st st1 : State) (resp : Response) :
  ask_time_window W video_id question req info transcript sid followup st
  = (resp, st1) ->
  cached resp = Some false ->
  same_sources st st1
  /\ exists entries,
       cache_files st1 !! segments_cache_file video_id = Some entries
       /\ entries !! time_segment_hash question (language req)
                       (start_time req) (end_time req) = Some (answer resp).
Proof.
  unfold ask_time_window.
  match goal with
  | |- context [truthy ?c] => destruct (truthy c) as [hit|]
  end.
  { intros H. injection H as <- <-. discriminate. }
  match goal with
  | |- context [ask_question ?a ?b ?c ?d ?e ?f ?g ?h ?i] =>
      pose proof (ask_question_same_sources a b c d e f g h i) as Hs;
      destruct (ask_question a b c d e f g h i) as [ans st0]
  end.
  cbn [snd] in Hs. intros H _. injection H as <- <-.
  split; [destruct Hs; split; assumption |].
  eexists. split; apply lookup_insert_eq.
Qed.

(** A non-empty entry of the per-question cache is returned as a hit,
    without a request to the chat-completion capability. *)
Lemma ask_full_hit (W : World) (video_id question : string) (req : AskRequest)
    (info : VideoInfo) (transcript sid : string) (st : State)
    (entries : gmap string string) (a : string) :
  cache_files st !! cache_file video_id = Some entries ->
  entries !! q_hash question (language req) false = Some a ->
  nonempty a = true ->
  exists st2,
    ask_full W video_id question req info transcript sid false st
    = (answered a true sid, st2)
    /\ chat_log st2 = chat_log st.
Proof.
  intros Hf He Ha. unfold ask_full. rewrite Hf. cbn [negb]. rewrite He.
  destruct a as [|c rest]; [discriminate |]. cbn [truthy].
  eexists. split; reflexivity.
Qed.

Lemma ask_time_window_hit (W : World) (video_id question : string)
    (req : AskRequest) (info : VideoInfo) (transcript sid : string)
    (followup : bool) (st : State) (entries : gmap string string) (a : string) :
  cache_files st !! segments_cache_file video_id = Some entries ->
  entries !! time_segment_hash question (language req)
               (start_time req) (end_time req) = Some a ->
  nonempty a = true ->
  exists st2,
    ask_time_window W video_id question req info transcript sid followup st
    = (answered a true sid, st2)
    /\ chat_log st2 = chat_log st.
Proof.
  intros Hf He Ha. unfold ask_time_window. rewrite Hf, He.
  destruct a as [|c rest]; [discriminate |]. cbn [truthy].
  eexists. split; reflexivity.
Qed.

(** C5, as amended: when a question that is not a follow-up was answered
    and not from the cache, and the answer is not the empty string, asking
    it again with the same language, mode and time window, under whatever
    session, returns that answer with the cache-hit flag, and the log of
    chat-completion requests is as it was. *)
Theorem cached_answer_is_returned (W : World) (video_id : string)
    (req : AskRequest) (st st1 : State) (resp1 : Response) (sid2 : option string) :
  ask W video_id req st = (resp1, st1) ->
  cached resp1 = Some false ->
  not_a_followup req ->
  nonempty (answer resp1) = true ->
  exists sid st2,
    ask W video_id (with_session sid2 req) st1
    = (answered (answer resp1) true sid, st2)
    /\ chat_log st2 = chat_log st1.
Proof.
  intros Hask Hmiss Hnf Hans. unfold ask in Hask |- *.
  cbn [query language with_session].
  destruct (query req) as [[|c q]|] eqn:Hq;
    try (injection Hask as <- <-; discriminate).
  destruct (video_infos st !! info_file video_id) as [info|] eqn:Hinfo;
    [| injection Hask as <- <-; discriminate].
  destruct (still_processing info) eqn:Hproc.
  { destruct (if vi_chunks_total info =? 0 then None else _);
      injection Hask as <- <-; discriminate. }
  destruct (transcripts st !! transcript_file video_id) as [transcript|] eqn:Htr;
    [| injection Hask as <- <-; discriminate].
  destruct (get_conversation_history_keeps W req video_id st) as ([Hi0 Ht0] & Hc0 & _).
  destruct (get_conversation_history W req video_id st) as [sid st0].
  cbn [snd] in Hi0, Ht0, Hc0.
  rewrite (not_a_followup_status W req (String c q) _ Hnf Hq) in Hask.
  assert (Hnf2 : not_a_followup (with_session sid2 req)) by exact Hnf.
  assert (Hsame : same_sources st0 st1
          /\ exists entries a,
               (if has_window req
                then cache_files st1 !! segments_cache_file video_id
                else cache_files st1 !! cache_file video_id) = Some entries
               /\ (if has_window req
                   then entries !! time_segment_hash (String c q) (language req)
                                     (start_time req) (end_time req)
                   else entries !! q_hash (String c q) (language req) false)
                  = Some a
               /\ a = answer resp1).
  { destruct (has_window req).
    - destruct (ask_time_window_miss _ _ _ _ _ _ _ _ _ _ _ Hask Hmiss)
        as (Hs & entries & He1 & He2). split; [exact Hs |]. eauto.
    - destruct (ask_full_miss _ _ _ _ _ _ _ _ _ _ Hask Hmiss)
        as (Hs & entries & He1 & He2). split; [exact Hs |]. eauto. }
  destruct Hsame as ([Hi1 Ht1] & entries & a & He1 & He2 & ->).
  rewrite Hi1, Hi0, Hinfo, Hproc, Ht1, Ht0, Htr.
  destruct (get_conversation_history_keeps W (with_session sid2 req) video_id st1)
    as (_ & Hc2 & Hl2).
  destruct (get_conversation_history W (with_session sid2 req) video_id st1)
    as [sid' st1'].
  cbn [snd] in Hc2, Hl2.
  rewrite (not_a_followup_status W (with_session sid2 req) (String c q) _ Hnf2 Hq).
  change (has_window (with_session sid2 req)) with (has_window req).
  exists sid'. rewrite <- Hl2. rewrite <- Hc2 in He1.
  destruct (has_window req).
  - exact (ask_time_window_hit W video_id (String c q) (with_session sid2 req)
             info transcript sid' false st1' entries _ He1 He2 Hans).
  - exact (ask_full_hit W video_id (String c q) (with_session sid2 req)
             info transcript sid' st1' entries _ He1 He2 Hans).
Qed.

(** The instance: the first question on a processed video, asked again
    under the session the first response opened. *)
Lemma cached_answer_is_returned_witness :
  let r := ask short_world "v1" plain_question first_run in
  (cached (fst r) = Some false /\ not_a_followup plain_question
   /\ nonempty (answer (fst r)) = true /\ answer (fst r) = "Answer 0")
  /\ exists sid st2,
       ask short_world "v1" (with_session (session (fst r)) plain_question) (snd r)
       = (answered (answer (fst r)) true sid, st2)
       /\ chat_log st2 = chat_log (snd r).
Proof.
  intros r.
  assert (Hnf : not_a_followup plain_question).
  { right. split; [reflexivity |]. intros q Hq. injection Hq as <-.
    vm_compute. reflexivity. }
  assert (Hmiss : cached (fst r) = Some false) by (vm_compute; reflexivity).
  assert (Hans : nonempty (answer (fst r)) = true) by (vm_compute; reflexivity).
  split; [repeat split; try assumption; vm_compute; reflexivity |].
  apply (cached_answer_is_returned short_world "v1" plain_question first_run
           (snd r) (fst r) (session (fst r)));
    [apply surjective_pairing | exact Hmiss | exact Hnf | exact Hans].
Defined.

(** C5, as stated, fails for an empty answer: the empty completion is
    cached under the fingerprint, and the same question, flagged as not a
    follow-up, is then answered with a second chat-completion request and
    without the cache-hit flag. *)
Lemma empty_answer_is_asked_again :
  let h := q_hash "What is Python?" "en" false in
  (cache_files (snd silent_once) !! cache_file "v1") ≫= (fun c => c !! h) = Some ""
  /\ length (chat_log (snd silent_once)) = 1%nat
  /\ cached (fst silent_twice) = Some false
  /\ length (chat_log (snd silent_twice)) = 2%nat.
Proof. repeat split; vm_compute; reflexivity. Qed.

(** ** The fingerprints of the answer caches *)





(** ** Follow-up questions *)

(** The history of a session never exceeds ten turns once it is within
    ten. *)
Lemma remember_at_most_ten (W : World) (sid : string) (turn : string * string)
    (st : State) :
  (length (history_of sid st) <= 10)%nat ->
  (length (history_of sid (remember sid turn st)) <= 10)%nat.
Proof.
  intros H. unfold remember, history_of at 1.
  cbn [conversation_histories set_conversation_histories].
  rewrite lookup_insert_eq. cbn [default].
  destruct (10 <? length (history_of sid st ++ [turn]))%nat eqn:E.
  - assert (Htail : forall l : list (string * string),
                      length (tail l) = (length l - 1)%nat)
      by (intros []; cbn; lia).
    unfold id. rewrite Htail, length_app. cbn [length]. lia.
  - apply Nat.ltb_ge in E. exact E.
Qed.

(** The turns handed to [ask_question] are all in the user prompt. *)
Lemma prompt_holds_the_history (question language : string)
    (context : list string) (turn : string * string)
    (history : list (string * string)) :
  let block := conversation_context language (Some (turn :: history)) in
  contains block (snd (generate_prompt question context language
                         (Some (turn :: history)))) = true
  /\ contains block (snd (generate_agent_prompt question context language
                            (Some (turn :: history)))) = true.
Proof.
  assert (Hpre : forall s t, startswith s (s +:+ t) = true).
  { induction s as [|c s IH]; intros t; [reflexivity |].
    change (Ascii.eqb c c && startswith s (s +:+ t) = true).
    rewrite IH. destruct (Ascii.eqb_spec c c); [reflexivity | congruence]. }
  assert (Hhead : forall s t, contains s (s +:+ t) = true).
  { intros s t. pose proof (Hpre s t) as Hp.
    destruct (s +:+ t); cbn [contains]; now rewrite Hp. }
  assert (Hskip : forall a s h, contains s h = true -> contains s (a +:+ h) = true).
  { induction a as [|c a IH]; intros s h Hh; [exact Hh |].
    change (String c a +:+ h) with (String c (a +:+ h)).
    cbn [contains]. rewrite (IH _ _ Hh). apply orb_true_r. }
  intros block. unfold generate_prompt, generate_agent_prompt.
  fold block.
  unfold prompts.qa_user_message_ar, prompts.qa_user_message_en,
    prompts.agent_user_message_ar, prompts.agent_user_message_en.
  split; destruct (ar language); cbn [snd];
    do 5 apply Hskip; apply Hhead.
Qed.

(** C4, evaluated: in a session with one turn, a question flagged as a
    follow-up whose wording is not that of a follow-up is answered by
    [ask_question] from the per-question cache (the answer of the first
    turn comes back and no chat-completion request is made), and a new
    question flagged the same way has its answer written into the cache
    file of the video; the prompt of that request holds the turn of the
    session. *)
Theorem flagged_followup_uses_the_cache :
  history_of "v1_1008" (snd first_asked) = [("What is Python?", "Answer 0")]
  /\ is_followup_question "What is Python?" = false
  /\ is_followup_question "Who made Python?" = false
  /\ (answer (fst followup_repeated) = "Answer 0"
      /\ chat_log (snd followup_repeated) = chat_log (snd first_asked))
  /\ (let h := qa_hash "Who made Python?" "en" false in
      (cache_files (snd first_asked) !! cache_file "v1") ≫= (fun c => c !! h) = None
      /\ answer (fst followup_new) = "Answer 1"
      /\ (cache_files (snd followup_new) !! cache_file "v1") ≫= (fun c => c !! h)
         = Some "Answer 1"
      /\ (memory_cache (snd followup_new) !! "v1") ≫= (fun c => c !! h)
         = Some "Answer 1")
  /\ (exists request,
        last (chat_log (snd followup_new)) = Some request
        /\ contains ("Question 1: What is Python?" +:+ NL +:+ "Answer 1: Answer 0")
             (snd request) = true).
Proof.
  split; [vm_compute; reflexivity |].
  split; [vm_compute; reflexivity |].
  split; [vm_compute; reflexivity |].
  split; [split; vm_compute; reflexivity |].
  split.
  { split; [vm_compute; reflexivity |].
    split; [vm_compute; reflexivity |].
    split; vm_compute; reflexivity. }
  eexists. split; vm_compute; reflexivity.
Qed.

(** * Further properties *)

Import observations more_examples.

(** ** The lines of a transcript *)










(** ** Cleaning a text before it is chunked *)

Lemma is_mark_not_space (c : ascii) :
  rag_pipeline.is_mark c = true -> isspace c = false.
Proof.
  unfold rag_pipeline.is_mark. cbn [mem_char]. intros H.
  repeat (apply orb_true_iff in H as [H | H];
          [apply Ascii.eqb_eq in H; subst c; reflexivity |]).
  discriminate.
Qed.

Lemma collapse_single_spaced (b : bool) (s : string) :
  single_spaced b (rag_pipeline.collapse_whitespace b s) = true.
Proof.
  revert b. induction s as [|c s IH]; intros b; [reflexivity |].
  cbn [rag_pipeline.collapse_whitespace]. destruct (isspace c) eqn:Hc.
  - destruct b; [apply IH |].
    cbn [single_spaced]. change (isspace " ") with true. cbn. apply IH.
  - cbn [single_spaced]. rewrite Hc. apply IH.
Qed.

Lemma space_after_marks_single_spaced (b p : bool) (s : string) :
  single_spaced p s = true ->
  single_spaced (b || p) (rag_pipeline.space_after_marks b s) = true.
Proof.
  revert b p. induction s as [|c s IH]; intros b p H; [reflexivity |].
  cbn [rag_pipeline.space_after_marks]. cbn [single_spaced] in H.
  destruct (isspace c) eqn:Hc.
  - apply andb_true_iff in H as [H Hs]. apply andb_true_iff in H as [Hb Hp].
    destruct b; cbn [andb orb].
    + apply (IH true true Hs).
    + destruct (rag_pipeline.is_mark c) eqn:Hm.
      { apply is_mark_not_space in Hm. congruence. }
      cbn [single_spaced]. rewrite Hc, Hb, Hp. cbn [andb].
      apply (IH false true Hs).
  - rewrite andb_false_r.
    destruct (rag_pipeline.is_mark c) eqn:Hm.
    + cbn [single_spaced]. rewrite Hc. change (isspace " ") with true. cbn.
      apply (IH true false H).
    + cbn [single_spaced]. rewrite Hc. apply (IH false false H).
Qed.

Lemma lstrip_single_spaced (p : bool) (s : string) :
  single_spaced p s = true -> single_spaced false (lstrip s) = true.
Proof.
  revert p. induction s as [|c s IH]; intros p H; [reflexivity |].
  cbn [lstrip]. cbn [single_spaced] in H. destruct (isspace c) eqn:Hc.
  - apply andb_true_iff in H as [_ Hs]. apply (IH true Hs).
  - cbn [single_spaced]. now rewrite Hc.
Qed.

Lemma rstrip_single_spaced (p : bool) (s : string) :
  single_spaced p s = true -> single_spaced p (rstrip s) = true.
Proof.
  revert p. induction s as [|c s IH]; intros p H; [reflexivity |].
  cbn [rstrip]. cbn [single_spaced] in H.
  destruct (isspace c && negb (nonempty (rstrip s))); [reflexivity |].
  cbn [single_spaced]. destruct (isspace c).
  - apply andb_true_iff in H as [H Hs]. rewrite H. apply (IH true Hs).
  - apply (IH false H).
Qed.

Lemma clean_text_single_spaced (text : string) :
  single_spaced false (rag_pipeline.clean_text text) = true.
Proof.
  unfold rag_pipeline.clean_text. destruct (nonempty text); [| reflexivity].
  cbn [negb]. unfold strip.
  apply rstrip_single_spaced, (lstrip_single_spaced false).
  apply (space_after_marks_single_spaced false false), collapse_single_spaced.
Qed.

Lemma single_spaced_only_blanks (p : bool) (s : string) (c : ascii) :
  single_spaced p s = true -> mem_char c s = true -> isspace c = true ->
  c = " "%char.
Proof.
  revert p. induction s as [|d s IH]; intros p H Hin Hc; [discriminate |].
  cbn [single_spaced] in H. cbn [mem_char] in Hin.
  apply orb_true_iff in Hin as [Hd | Hin].
  - apply Ascii.eqb_eq in Hd. subst d. rewrite Hc in H.
    apply andb_true_iff in H as [H _]. apply andb_true_iff in H as [H _].
    now apply Ascii.eqb_eq in H.
  - destruct (isspace d).
    + apply andb_true_iff in H as [_ H]. exact (IH true H Hin Hc).
    + exact (IH false H Hin Hc).
Qed.

Lemma single_spaced_no_double_blank (p : bool) (s : string) :
  single_spaced p s = true -> contains "  " s = false.
Proof.
  revert p. induction s as [|c s IH]; intros p H; [reflexivity |].
  cbn [contains]. apply orb_false_iff. split.
  - cbn [startswith]. destruct (Ascii.eqb_spec " " c) as [<-|]; [| reflexivity].
    cbn [andb]. destruct s as [|d s]; [reflexivity |].
    destruct (Ascii.eqb_spec " " d) as [<-|]; [| reflexivity].
    cbn in H. rewrite !andb_false_r in H. discriminate.
  - cbn [single_spaced] in H. destruct (isspace c).
    + apply andb_true_iff in H as [_ H]. exact (IH true H).
    + exact (IH false H).
Qed.

(** [strip] of a stripped text. *)
Lemma lstrip_unchanged (s : string) :
  match first_char s with Some c => isspace c = false | None => True end ->
  lstrip s = s.
Proof. destruct s as [|c s]; [reflexivity |]. cbn. now intros ->. Qed.

Lemma lstrip_first_char (s : string) :
  match first_char (lstrip s) with Some c => isspace c = false | None => True end.
Proof.
  induction s as [|c s IH]; [exact I |].
  cbn [lstrip]. destruct (isspace c) eqn:Hc; [exact IH | exact Hc].
Qed.

Lemma rstrip_first_char (s : string) :
  match first_char s with Some c => isspace c = false | None => True end ->
  match first_char (rstrip s) with Some c => isspace c = false | None => True end.
Proof.
  destruct s as [|c s]; [trivial |]. cbn [first_char rstrip]. intros Hc.
  rewrite Hc. cbn. exact Hc.
Qed.

Lemma rstrip_idempotent (s : string) : rstrip (rstrip s) = rstrip s.
Proof.
  induction s as [|c s IH]; [reflexivity |].
  cbn [rstrip]. destruct (isspace c && negb (nonempty (rstrip s))) eqn:E;
    [reflexivity |].
  cbn [rstrip]. now rewrite IH, E.
Qed.

Lemma strip_idempotent (s : string) : strip (strip s) = strip s.
Proof.
  unfold strip. rewrite lstrip_unchanged.
  - apply rstrip_idempotent.
  - apply rstrip_first_char, lstrip_first_char.
Qed.

(** A text without the separator is one part. *)
Lemma split_without_separator (sep s : string) :
  nonempty sep = true -> contains sep s = false -> split sep s = [s].
Proof.
  intros Hsep. unfold split. induction s as [|c s IH]; [reflexivity |].
  cbn [contains]. intros H. apply orb_false_iff in H as [Hst Hc].
  cbn [split_from]. rewrite Hst, (IH Hc). reflexivity.
Qed.

Lemma clean_text_no_line_feed (text : string) :
  mem_char LF (rag_pipeline.clean_text text) = false.
Proof.
  destruct (mem_char LF (rag_pipeline.clean_text text)) eqn:E; [| reflexivity].
  pose proof (single_spaced_only_blanks _ _ _
                (clean_text_single_spaced text) E eq_refl) as H.
  discriminate.
Qed.

Lemma contains_needs_first (c : ascii) (rest s : string) :
  mem_char c s = false -> contains (String c rest) s = false.
Proof.
  induction s as [|d s IH]; [reflexivity |].
  cbn [mem_char contains startswith]. intros H.
  apply orb_false_iff in H as [Hd Hs].
  rewrite Hd. cbn [andb orb]. exact (IH Hs).
Qed.

(** The cleaned text is always a single paragraph. *)
Lemma clean_text_one_paragraph (text : string) :
  split (NL +:+ NL) (rag_pipeline.clean_text text) = [rag_pipeline.clean_text text].
Proof.
  apply split_without_separator; [reflexivity |].
  apply contains_needs_first, clean_text_no_line_feed.
Qed.

(** X2.  The text [clean_text] returns has no white space but single
    blanks: every white-space character left in it is a blank, no two
    blanks are adjacent, and it neither starts nor ends with one; in
    particular it holds no line feed and no tab. *)
Theorem clean_text_leaves_single_blanks (text : string) :
  let cleaned := rag_pipeline.clean_text text in
  (forall c, mem_char c cleaned = true -> isspace c = true -> c = " "%char)
  /\ contains "  " cleaned = false
  /\ strip cleaned = cleaned.
Proof.
  cbv zeta. split; [| split].
  - intros c. apply single_spaced_only_blanks with (p := false).
    apply clean_text_single_spaced.
  - apply single_spaced_no_double_blank with (p := false).
    apply clean_text_single_spaced.
  - unfold rag_pipeline.clean_text. destruct (nonempty text); [| reflexivity].
    apply strip_idempotent.
Qed.

(** ** Chunking a text for the index *)

Lemma startswith_iff (p s : string) :
  startswith p s = true <-> exists b, s = p +:+ b.
Proof.
  revert s. induction p as [|c p IH]; intros s.
  - split; [intros _; now exists s | reflexivity].
  - destruct s as [|d s]; cbn [startswith].
    + split; [discriminate | intros [b Hb]; discriminate].
    + rewrite andb_true_iff, Ascii.eqb_eq, IH. split.
      * intros [-> [b ->]]. now exists b.
      * intros [b Hb]. change (String d s = String c (p +:+ b)) in Hb.
        injection Hb as -> ->. split; [reflexivity | now exists b].
Qed.

(** [needle in hay] says that the needle lies between two parts of the
    hay. *)
Lemma contains_iff (p s : string) :
  contains p s = true <-> exists a b, s = a +:+ p +:+ b.
Proof.
  split.
  - induction s as [|c s IH]; cbn [contains]; rewrite orb_true_iff.
    + intros [H | H]; [| discriminate].
      apply startswith_iff in H as [b Hb]. now exists "", b.
    + intros [H | H].
      * apply startswith_iff in H as [b Hb]. now exists "", b.
      * destruct (IH H) as (a & b & ->). now exists (String c a), b.
  - intros (a & b & ->). induction a as [|c a IH].
    + change ("" +:+ p +:+ b) with (p +:+ b).
      assert (H : startswith p (p +:+ b) = true) by (apply startswith_iff; now exists b).
      destruct (p +:+ b); cbn [contains]; now rewrite H.
    + change (String c a +:+ p +:+ b) with (String c (a +:+ p +:+ b)).
      cbn [contains]. rewrite IH. apply orb_true_r.
Qed.

Lemma contains_self (p : string) : contains p p = true.
Proof. apply contains_iff. exists "", "". cbn. now rewrite append_empty_r. Qed.

Lemma contains_append_r (p s t : string) :
  contains p s = true -> contains p (s +:+ t) = true.
Proof.
  rewrite !contains_iff. intros (a & b & ->). exists a, (b +:+ t).
  now rewrite !append_assoc.
Qed.

Lemma contains_append_l (p s t : string) :
  contains p s = true -> contains p (t +:+ s) = true.
Proof.
  rewrite !contains_iff. intros (a & b & ->). exists (t +:+ a), b.
  now rewrite !append_assoc.
Qed.

Lemma contains_nonempty (p s : string) :
  nonempty p = true -> contains p s = true -> nonempty s = true.
Proof.
  intros Hp H. apply contains_iff in H as (a & b & ->).
  destruct a; [| reflexivity]. destruct p; [discriminate | reflexivity].
Qed.

Lemma contains_not_blank (p s : string) :
  blank p = false -> contains p s = true -> blank s = false.
Proof.
  intros Hp H. apply contains_iff in H as (a & b & ->).
  now rewrite !blank_append, Hp, andb_false_r.
Qed.

(** A stripped text: it starts and ends with a character that is not
    white space. *)
Lemma rstrip_last_char (s : string) :
  match last_char (rstrip s) with Some c => isspace c = false | None => True end.
Proof.
  induction s as [|c s IH]; [exact I |].
  cbn [rstrip]. destruct (isspace c && negb (nonempty (rstrip s))) eqn:E; [exact I |].
  cbn [last_char]. destruct (rstrip s) as [|d r]; [| exact IH].
  cbn in E. now rewrite andb_true_r in E.
Qed.

Lemma lstrip_app_keeps (a p b : string) :
  match first_char p with Some c => isspace c = false | None => False end ->
  exists a', lstrip (a +:+ p +:+ b) = a' +:+ p +:+ b.
Proof.
  intros Hp. induction a as [|x a IH].
  - exists "". destruct p as [|c p]; [destruct Hp |]. cbn [first_char] in Hp.
    change ("" +:+ String c p +:+ b) with (String c (p +:+ b)).
    cbn [lstrip]. now rewrite Hp.
  - change (String x a +:+ p +:+ b) with (String x (a +:+ p +:+ b)).
    cbn [lstrip]. destruct (isspace x); [exact IH |]. now exists (String x a).
Qed.

Lemma rstrip_app_keeps (a p b : string) :
  match last_char p with Some c => isspace c = false | None => False end ->
  exists b', rstrip (a +:+ p +:+ b) = a +:+ p +:+ b'.
Proof.
  intros Hp.
  assert (Hbase : exists b', rstrip (p +:+ b) = p +:+ b'
                             /\ nonempty (p +:+ b') = true).
  { induction p as [|c p IH]; [destruct Hp |].
    change (String c p +:+ b) with (String c (p +:+ b)). cbn [rstrip].
    destruct p as [|d p].
    - cbn in Hp. rewrite Hp. cbn [andb]. now exists (rstrip b).
    - destruct (IH Hp) as (b' & -> & Hne). rewrite Hne, andb_false_r.
      now exists b'. }
  destruct Hbase as (b' & Hb & Hne). exists b'.
  induction a as [|x a IH]; [exact Hb |].
  change (String x a +:+ p +:+ b) with (String x (a +:+ p +:+ b)).
  cbn [rstrip]. rewrite IH.
  assert (H : nonempty (a +:+ p +:+ b') = true).
  { destruct a; [exact Hne | reflexivity]. }
  now rewrite H, andb_false_r.
Qed.

Lemma strip_ends (s : string) :
  nonempty (strip s) = true ->
  match first_char (strip s) with Some c => isspace c = false | None => False end
  /\ match last_char (strip s) with Some c => isspace c = false | None => False end.
Proof.
  intros Hne. split.
  - pose proof (rstrip_first_char (lstrip s) (lstrip_first_char s)) as H.
    unfold strip in *. destruct (rstrip (lstrip s)); [discriminate | exact H].
  - pose proof (rstrip_last_char (lstrip s)) as H.
    unfold strip in *. destruct (rstrip (lstrip s)) as [|c r]; [discriminate |].
    destruct (last_char (String c r)) eqn:E; [exact H |].
    exfalso. clear -E. revert c E. induction r as [|d r IH]; intros c E; [discriminate |].
    exact (IH d E).
Qed.

(** Stripping a text keeps the stripped texts it holds. *)
Lemma strip_keeps (q s : string) :
  nonempty (strip q) = true ->
  contains (strip q) s = true -> contains (strip q) (strip s) = true.
Proof.
  intros Hne H. destruct (strip_ends q Hne) as [Hf Hl].
  apply contains_iff in H as (a & b & ->).
  destruct (lstrip_app_keeps a (strip q) b Hf) as (a' & Ha).
  destruct (rstrip_app_keeps a' (strip q) b Hl) as (b' & Hb).
  apply contains_iff. exists a', b'.
  change (strip (a +:+ strip q +:+ b))
    with (rstrip (lstrip (a +:+ strip q +:+ b))).
  now rewrite Ha, Hb.
Qed.

(** One step of the loop keeps what is held, in a closed chunk or in the
    chunk being filled, and takes in the paragraph it is given. *)
Lemma add_paragraph_keeps (cs ov : Z) (acc : list string * string)
    (para q : string) :
  nonempty (strip q) = true ->
  (exists chunk, In chunk (fst acc) /\ contains (strip q) chunk = true)
  \/ contains (strip q) (snd acc) = true ->
  let acc' := rag_pipeline.add_paragraph cs ov acc para in
  (exists chunk, In chunk (fst acc') /\ contains (strip q) chunk = true)
  \/ contains (strip q) (snd acc') = true.
Proof.
  intros Hne H. destruct acc as [chunks cur]. cbn [fst snd] in H.
  cbv zeta. unfold rag_pipeline.add_paragraph.
  destruct (negb (nonempty (strip para))); [exact H |].
  destruct (cs <? _).
  - cbn [fst snd]. left. destruct H as [(chunk & Hin & Hc) | Hc].
    + exists chunk. split; [| exact Hc].
      destruct (nonempty cur); [apply in_or_app; now left | exact Hin].
    + rewrite (contains_nonempty _ _ Hne Hc).
      exists (strip cur). split; [apply in_or_app; right; now left |].
      now apply strip_keeps.
  - cbn [fst snd]. destruct H as [H | Hc]; [now left | right].
    rewrite (contains_nonempty _ _ Hne Hc). now apply contains_append_r.
Qed.

Lemma add_paragraph_takes (cs ov : Z) (acc : list string * string) (para : string) :
  nonempty (strip para) = true ->
  contains (strip para) (snd (rag_pipeline.add_paragraph cs ov acc para)) = true.
Proof.
  intros Hne. destruct acc as [chunks cur]. unfold rag_pipeline.add_paragraph.
  rewrite Hne. cbn [negb].
  destruct (cs <? _); cbn [snd].
  - destruct (nonempty cur && _); [| apply contains_self].
    destruct (5 <? _)%nat; [| apply contains_self].
    apply contains_append_l, contains_append_l, contains_self.
  - destruct (nonempty cur); [| apply contains_self].
    apply contains_append_l, contains_append_l, contains_self.
Qed.

Lemma fold_add_paragraph_keeps (cs ov : Z) (paras : list string)
    (acc : list string * string) (q : string) :
  nonempty (strip q) = true ->
  (In q paras
   \/ (exists chunk, In chunk (fst acc) /\ contains (strip q) chunk = true)
   \/ contains (strip q) (snd acc) = true) ->
  let acc' := fold_left (rag_pipeline.add_paragraph cs ov) paras acc in
  (exists chunk, In chunk (fst acc') /\ contains (strip q) chunk = true)
  \/ contains (strip q) (snd acc') = true.
Proof.
  intros Hne. revert acc. induction paras as [|para paras IH]; intros acc H.
  - destruct H as [[] | H]. exact H.
  - cbn [fold_left]. apply IH. destruct H as [[-> | Hin] | H].
    + right. right. now apply add_paragraph_takes.
    + now left.
    + right. now apply (add_paragraph_keeps cs ov acc para q Hne).
Qed.

Lemma pack_keeps (cs ov : Z) (paras : list string) (q : string) :
  In q paras -> blank q = false ->
  exists chunk, In chunk (rag_pipeline.pack cs ov paras)
                /\ contains (strip q) chunk = true.
Proof.
  intros Hin Hq.
  assert (Hne : nonempty (strip q) = true) by (now rewrite strip_nonempty, Hq).
  assert (Hnb : blank (strip q) = false).
  { unfold strip. now rewrite blank_rstrip, blank_lstrip. }
  pose proof (fold_add_paragraph_keeps cs ov paras ([], "") q Hne (or_introl Hin)) as H.
  cbv zeta in H. unfold rag_pipeline.pack.
  destruct (fold_left _ paras _) as [chunks cur]. cbn [fst snd] in H.
  assert (Hkeep : forall chunk l, In chunk l -> contains (strip q) chunk = true ->
            In chunk (List.filter (fun c => nonempty (strip c)) l)).
  { intros chunk l Hl Hc. apply filter_In. split; [exact Hl |].
    rewrite strip_nonempty. now rewrite (contains_not_blank _ _ Hnb Hc). }
  destruct H as [(chunk & Hc & Hcq) | Hc].
  - exists chunk. split; [| exact Hcq]. apply Hkeep; [| exact Hcq].
    destruct (nonempty cur); [apply in_or_app; now left | exact Hc].
  - rewrite (contains_nonempty _ _ Hne Hc). exists (strip cur).
    pose proof (strip_keeps q cur Hne Hc) as Hs.
    split; [| exact Hs]. apply Hkeep; [| exact Hs].
    apply in_or_app. right. now left.
Qed.

(** White space survives neither in the pieces nor in the cleaning. *)
Lemma blank_collapse (b : bool) (s : string) :
  blank (rag_pipeline.collapse_whitespace b s) = blank s.
Proof.
  revert b. induction s as [|c s IH]; intros b; [reflexivity |].
  cbn [rag_pipeline.collapse_whitespace blank]. destruct (isspace c) eqn:Hc.
  - destruct b; cbn [andb]; [apply IH |]. cbn [blank].
    change (isspace " ") with true. cbn [andb]. apply IH.
  - cbn [blank]. now rewrite Hc.
Qed.

Lemma blank_space_after_marks (b : bool) (s : string) :
  blank (rag_pipeline.space_after_marks b s) = blank s.
Proof.
  revert b. induction s as [|c s IH]; intros b; [reflexivity |].
  cbn [rag_pipeline.space_after_marks blank]. destruct (isspace c) eqn:Hc.
  - destruct b; cbn [andb]; [apply IH |].
    destruct (rag_pipeline.is_mark c) eqn:Hm.
    { apply is_mark_not_space in Hm. congruence. }
    cbn [blank]. rewrite Hc. cbn [andb]. apply IH.
  - rewrite andb_false_r. cbn [andb].
    destruct (rag_pipeline.is_mark c); cbn [blank]; now rewrite Hc.
Qed.

Lemma blank_clean_text (text : string) :
  blank (rag_pipeline.clean_text text) = blank text.
Proof.
  unfold rag_pipeline.clean_text. destruct text as [|c text]; [reflexivity |].
  cbn [nonempty negb]. unfold strip.
  now rewrite blank_rstrip, blank_lstrip, blank_space_after_marks, blank_collapse.
Qed.

Lemma blank_split_sentences (a k : bool) (s : string) :
  forallb blank (rag_pipeline.split_sentences a k s) = blank s.
Proof.
  revert a k. induction s as [|c s IH]; intros a k; [reflexivity |].
  cbn [rag_pipeline.split_sentences blank]. destruct (isspace c) eqn:Hc.
  - cbn [andb]. destruct k; [apply IH |]. destruct a.
    + cbn [forallb blank andb]. apply IH.
    + rewrite forallb_blank_cons_head, Hc. cbn [andb]. apply IH.
  - rewrite forallb_blank_cons_head, Hc. reflexivity.
Qed.

Lemma forallb_false_exists {A} (f : A -> bool) (l : list A) :
  forallb f l = false -> exists x, In x l /\ f x = false.
Proof.
  induction l as [|x l IH]; [discriminate |]. cbn [forallb].
  destruct (f x) eqn:E.
  - intros H. destruct (IH H) as (y & Hy & Hf). exists y. split; [now right | exact Hf].
  - intros _. exists x. split; [now left | exact E].
Qed.

(** X3.  [split_text] never splits by paragraphs: the cleaning has turned
    every line break into a blank before the text is searched for empty
    lines, so the text is always cut into sentences, at the white space
    that follows a full stop, an exclamation mark or a question mark. *)
Theorem split_text_cuts_at_sentences (text : string) (chunk_size overlap : Z) :
  rag_pipeline.split_text text chunk_size overlap
  = if nonempty text
    then rag_pipeline.pack chunk_size overlap
           (rag_pipeline.split_sentences false false (rag_pipeline.clean_text text))
    else [].
Proof.
  unfold rag_pipeline.split_text. destruct (nonempty text); [| reflexivity].
  cbn [negb]. now rewrite clean_text_one_paragraph.
Qed.

(** X4.  No sentence is lost or cut by the chunking: every sentence of the
    cleaned ASCII text that is not blank lies whole in one of the chunks
    [split_text] returns, whatever the chunk size and the overlap. *)
Theorem split_text_keeps_every_sentence (text : string) (chunk_size overlap : Z)
    (sentence : string) :
  isascii text = true ->
  In sentence (rag_pipeline.split_sentences false false (rag_pipeline.clean_text text)) ->
  blank sentence = false ->
  exists chunk, In chunk (rag_pipeline.split_text text chunk_size overlap)
                /\ contains (strip sentence) chunk = true.
Proof.
  intros _ Hin Hnb. unfold rag_pipeline.split_text.
  destruct text as [|c text].
  - cbn in Hin. destruct Hin as [<- | []]. discriminate.
  - cbn [nonempty negb]. rewrite clean_text_one_paragraph. cbn [length Nat.leb].
    now apply pack_keeps.
Qed.

(** X5.  For an ASCII text, [split_text] returns no chunk exactly when
    the text is empty or all white space; a text with anything else in it
    gives at least one chunk to index. *)
Theorem split_text_empty_iff_blank (text : string) (chunk_size overlap : Z) :
  isascii text = true ->
  (rag_pipeline.split_text text chunk_size overlap = [] <-> blank text = true).
Proof.
  intros _. split.
  - intros Hnil. destruct (blank text) eqn:Hb; [reflexivity | exfalso].
    pose proof (blank_split_sentences false false (rag_pipeline.clean_text text)) as Hs.
    rewrite blank_clean_text, Hb in Hs.
    unfold rag_pipeline.split_text in Hnil.
    assert (Hne : nonempty text = true) by (destruct text; [discriminate | reflexivity]).
    apply forallb_false_exists in Hs as (sentence & Hin & Hsb).
    revert Hnil. rewrite Hne. cbn [negb]. rewrite clean_text_one_paragraph.
    cbn [length Nat.leb]. intros Hnil.
    destruct (pack_keeps chunk_size overlap _ sentence Hin Hsb) as (chunk & Hc & _).
    rewrite Hnil in Hc. destruct Hc.
  - intros Hb. unfold rag_pipeline.split_text.
    destruct text as [|c text]; [reflexivity |]. cbn [nonempty negb].
    assert (E : rag_pipeline.clean_text (String c text) = "").
    { pose proof (blank_clean_text (String c text)) as H. rewrite Hb in H.
      unfold rag_pipeline.clean_text in *. cbn [nonempty negb] in *.
      pose proof (strip_nonempty
                    (rag_pipeline.space_after_marks false
                       (rag_pipeline.collapse_whitespace false (String c text)))) as Hn.
      unfold strip in H. rewrite blank_rstrip, blank_lstrip in H.
      rewrite H in Hn. now destruct (strip _). }
    rewrite E. reflexivity.
Qed.

(** The instance: two blanks and a line feed. *)
Lemma split_text_empty_iff_blank_witness :
  let text := "  " +:+ NL in
  isascii text = true
  /\ (rag_pipeline.split_text text 750 30 = [] <-> blank text = true).
Proof.
  intros text. split; [reflexivity |].
  exact (split_text_empty_iff_blank text 750 30 eq_refl).
Defined.

(** The instance: three sentences, chunks of twelve characters. *)
Lemma split_text_keeps_every_sentence_witness :
  let text := "First one. Second one!  Third" in
  (isascii text = true
   /\ In "Second one!"
        (rag_pipeline.split_sentences false false (rag_pipeline.clean_text text))
   /\ blank "Second one!" = false)
  /\ exists chunk, In chunk (rag_pipeline.split_text text 12 5)
                   /\ contains (strip "Second one!") chunk = true.
Proof.
  intros text.
  assert (Hin : In "Second one!"
                  (rag_pipeline.split_sentences false false
                     (rag_pipeline.clean_text text))).
  { vm_compute. right. left. reflexivity. }
  split; [split; [reflexivity | split; [exact Hin | reflexivity]] |].
  exact (split_text_keeps_every_sentence text 12 5 "Second one!" eq_refl Hin eq_refl).
Defined.

(** ** The keywords of a transcript *)

Lemma count_word_keys (word : string) (counts : list (string * nat)) (k : string) :
  In k (List.map fst (rag_pipeline.count_word word counts))
  <-> k = word \/ In k (List.map fst counts).
Proof.
  induction counts as [|[w n] rest IH]; cbn [rag_pipeline.count_word List.map In fst].
  - split; [intros [<- | []]; now left | intros [-> | []]; now left].
  - destruct (String.eqb_spec w word) as [->|Hne]; cbn [List.map In fst].
    + split; [intros [<- | H]; [now left | right; now right] |].
      intros [-> | [<- | H]]; [now left | now left | now right].
    + rewrite IH. split.
      * intros [<- | [-> | H]]; [right; now left | now left | right; now right].
      * intros [-> | [<- | H]]; [right; now left | now left | right; now right].
Qed.

Lemma count_word_NoDup (word : string) (counts : list (string * nat)) :
  List.NoDup (List.map fst counts) ->
  List.NoDup (List.map fst (rag_pipeline.count_word word counts)).
Proof.
  induction counts as [|[w n] rest IH]; cbn [rag_pipeline.count_word List.map fst].
  - intros _. apply NoDup_cons_iff. split; [intros [] | constructor].
  - intros H. apply NoDup_cons_iff in H as [Hw Hrest].
    destruct (String.eqb_spec w word) as [->|Hne]; cbn [List.map fst].
    + apply NoDup_cons_iff. now split.
    + apply NoDup_cons_iff. split; [| now apply IH].
      rewrite count_word_keys. intros [-> | H]; [now apply Hne | now apply Hw].
Qed.

(** The count of a word after one more occurrence. *)
Lemma count_word_entry (word : string) (counts : list (string * nat))
    (k : string) (n : nat) :
  List.NoDup (List.map fst counts) ->
  In (k, n) (rag_pipeline.count_word word counts) ->
  if String.eqb k word
  then exists m, n = S m
                 /\ (In (k, m) counts \/ (m = 0%nat /\ ~ In k (List.map fst counts)))
  else In (k, n) counts.
Proof.
  induction counts as [|[w c] rest IH]; cbn [rag_pipeline.count_word List.map fst In].
  - intros _ [H | []]. injection H as <- <-. rewrite String.eqb_refl.
    exists 0%nat. split; [reflexivity |]. right. split; [reflexivity | intros []].
  - intros Hnd. apply NoDup_cons_iff in Hnd as [Hw Hrest].
    destruct (String.eqb_spec w word) as [->|Hne]; cbn [In].
    + intros [H | H].
      * injection H as <- <-. rewrite String.eqb_refl. exists c.
        split; [reflexivity |]. left. now left.
      * destruct (String.eqb_spec k word) as [->|Hk]; [| now right].
        exfalso. apply Hw. change word with (fst (word, n)). now apply in_map.
    + intros [H | H].
      * injection H as <- <-. destruct (String.eqb_spec w word); [contradiction |].
        now left.
      * specialize (IH Hrest H). destruct (String.eqb_spec k word) as [->|Hk].
        -- destruct IH as (m & -> & [Hin | [-> Hnot]]).
           ++ exists m. split; [reflexivity |]. left. now right.
           ++ exists 0%nat. split; [reflexivity |]. right. split; [reflexivity |].
              intros [Heq | Hin]; [now apply Hne | now apply Hnot].
        -- now right.
Qed.

Lemma occurrences_cons (k w : string) (ws : list string) :
  occurrences k (w :: ws)
  = ((if String.eqb k w then 1 else 0) + occurrences k ws)%nat.
Proof. unfold occurrences. cbn [List.filter]. now destruct (String.eqb k w). Qed.

(** Among the long words, a long word occurs as often as among all. *)
Lemma occurrences_long (k : string) (ws : list string) :
  is_long k = true ->
  occurrences k (List.filter is_long ws) = occurrences k ws.
Proof.
  intros Hk. induction ws as [|w ws IH]; [reflexivity |].
  cbn [List.filter]. destruct (is_long w) eqn:Hw.
  - now rewrite !occurrences_cons, IH.
  - rewrite occurrences_cons, IH.
    destruct (String.eqb_spec k w) as [->|]; [congruence | reflexivity].
Qed.

Lemma word_counts_fold (words : list string) :
  forall acc : list (string * nat),
    List.NoDup (List.map fst acc) ->
    let counts :=
      fold_left
        (fun counts word =>
           if (3 <? String.length word)%nat
           then rag_pipeline.count_word word counts else counts)
        words acc in
    List.NoDup (List.map fst counts)
    /\ (forall k, In k (List.map fst counts) ->
          In k (List.map fst acc) \/ (In k words /\ is_long k = true))
    /\ (forall k n, In (k, n) counts ->
          exists m, n = (m + occurrences k (List.filter is_long words))%nat
                    /\ (In (k, m) acc
                        \/ (m = 0%nat /\ ~ In k (List.map fst acc)))).
Proof.
  induction words as [|w ws IH]; intros acc Hnd; cbv zeta.
  - cbn [fold_left]. split; [exact Hnd |]. split; [now left |].
    intros k n H. exists n. split; [cbn; lia | now left].
  - cbn [fold_left]. fold (is_long w). destruct (is_long w) eqn:Hw.
    + destruct (IH (rag_pipeline.count_word w acc) (count_word_NoDup w acc Hnd))
        as (H1 & H2 & H3).
      split; [exact H1 |]. split.
      * intros k Hk. destruct (H2 k Hk) as [Hin | [Hin Hl]].
        -- apply count_word_keys in Hin as [-> | Hin]; [| now left].
           right. split; [now left | exact Hw].
        -- right. split; [now right | exact Hl].
      * intros k n Hk. destruct (H3 k n Hk) as (m & -> & Hm).
        cbn [List.filter]. rewrite Hw, occurrences_cons.
        destruct Hm as [Hin | [-> Hnot]].
        -- pose proof (count_word_entry w acc k m Hnd Hin) as He.
           destruct (String.eqb k w).
           ++ destruct He as (m' & -> & Hm'). exists m'. split; [lia | exact Hm'].
           ++ exists m. split; [lia | now left].
        -- rewrite count_word_keys in Hnot.
           destruct (String.eqb_spec k w) as [->|Hne]; [exfalso; apply Hnot; now left |].
           exists 0%nat. split; [lia |]. right. split; [reflexivity |].
           intros Hin. apply Hnot. now right.
    + destruct (IH acc Hnd) as (H1 & H2 & H3).
      split; [exact H1 |]. split.
      * intros k Hk. destruct (H2 k Hk) as [Hin | [Hin Hl]]; [now left |].
        right. split; [now right | exact Hl].
      * intros k n Hk. cbn [List.filter]. rewrite Hw. exact (H3 k n Hk).
Qed.

(** The dictionary of [extract_keywords]: one entry for each long word,
    holding the number of its occurrences. *)
Lemma word_counts_spec (words : list string) :
  List.NoDup (List.map fst (rag_pipeline.word_counts words))
  /\ (forall k n, In (k, n) (rag_pipeline.word_counts words) ->
        In k words /\ is_long k = true /\ n = occurrences k words).
Proof.
  assert (Hnil : List.NoDup (List.map fst (@nil (string * nat)))) by constructor.
  destruct (word_counts_fold words [] Hnil) as (H1 & H2 & H3).
  split; [exact H1 |]. intros k n Hk.
  assert (Hkey : In k words /\ is_long k = true).
  { destruct (H2 k) as [[] | H]; [| exact H].
    change k with (fst (k, n)). now apply in_map. }
  destruct Hkey as [Hin Hl]. split; [exact Hin |]. split; [exact Hl |].
  destruct (H3 k n Hk) as (m & -> & [[] | [-> _]]).
  now rewrite occurrences_long.
Qed.

Lemma insert_by_count_In (e x : string * nat) (l : list (string * nat)) :
  In x (rag_pipeline.insert_by_count e l) <-> x = e \/ In x l.
Proof.
  induction l as [|y l IH]; cbn [rag_pipeline.insert_by_count In].
  - split; [intros [<- | []]; now left | intros [-> | []]; now left].
  - destruct (snd e <? snd y)%nat; cbn [In].
    + rewrite IH. split.
      * intros [<- | [-> | H]]; [right; now left | now left | right; now right].
      * intros [-> | [<- | H]]; [right; now left | now left | right; now right].
    + split; [intros [<- | H]; [now left | now right] |].
      intros [-> | H]; [now left | now right].
Qed.

Lemma insert_by_count_NoDup (e : string * nat) (l : list (string * nat)) :
  List.NoDup (List.map fst (e :: l)) ->
  List.NoDup (List.map fst (rag_pipeline.insert_by_count e l)).
Proof.
  induction l as [|y l IH]; cbn [rag_pipeline.insert_by_count]; [trivial |].
  destruct (snd e <? snd y)%nat; [| trivial].
  cbn [List.map]. intros H.
  apply NoDup_cons_iff in H as [He H]. apply NoDup_cons_iff in H as [Hy Hl].
  apply NoDup_cons_iff. split.
  - intros Hin. apply in_map_iff in Hin as (x & Hx & Hin).
    apply insert_by_count_In in Hin as [-> | Hin].
    + apply He. left. now symmetry.
    + apply Hy. rewrite <- Hx. now apply in_map.
  - apply IH. cbn [List.map]. apply NoDup_cons_iff. split; [| exact Hl].
    intros Hin. apply He. now right.
Qed.

Lemma insert_by_count_sorted (e : string * nat) (l : list (string * nat)) :
  by_decreasing_count l -> by_decreasing_count (rag_pipeline.insert_by_count e l).
Proof.
  induction l as [|y l IH]; cbn [rag_pipeline.insert_by_count by_decreasing_count].
  - intros _. split; [constructor | exact I].
  - intros [Hy Hl]. destruct (snd e <? snd y)%nat eqn:E.
    + cbn [by_decreasing_count]. split; [| now apply IH].
      apply List.Forall_forall. intros x Hx.
      apply insert_by_count_In in Hx as [-> | Hx].
      * apply Nat.ltb_lt in E. lia.
      * rewrite List.Forall_forall in Hy. now apply Hy.
    + apply Nat.ltb_ge in E. cbn [by_decreasing_count]. split; [| now split].
      constructor; [exact E |].
      eapply List.Forall_impl; [| exact Hy]. cbn. intros x Hx. lia.
Qed.

Lemma sort_by_count_spec (counts : list (string * nat)) :
  (forall x, In x (rag_pipeline.sort_by_count counts) <-> In x counts)
  /\ (List.NoDup (List.map fst counts) ->
      List.NoDup (List.map fst (rag_pipeline.sort_by_count counts)))
  /\ by_decreasing_count (rag_pipeline.sort_by_count counts).
Proof.
  unfold rag_pipeline.sort_by_count.
  induction counts as [|e counts (IH1 & IH2 & IH3)]; cbn [fold_right].
  - split; [reflexivity |]. split; [trivial | exact I].
  - split; [| split].
    + intros x. rewrite insert_by_count_In, IH1. cbn [In]. split.
      * intros [-> | H]; [now left | now right].
      * intros [<- | H]; [now left | now right].
    + intros H. cbn [List.map] in H. apply NoDup_cons_iff in H as [He Hl].
      apply insert_by_count_NoDup. cbn [List.map]. apply NoDup_cons_iff.
      split; [| now apply IH2].
      intros Hin. apply He. apply in_map_iff in Hin as (x & Hx & Hin).
      rewrite <- Hx. apply in_map. now apply IH1.
    + now apply insert_by_count_sorted.
Qed.

Lemma take_In {A} (n : nat) (l : list A) (x : A) : In x (take n l) -> In x l.
Proof.
  revert n. induction l as [|y l IH]; intros [|n]; cbn; try tauto.
  intros [-> | H]; [now left | right; now apply (IH n)].
Qed.

Lemma take_NoDup_keys (n : nat) (l : list (string * nat)) :
  List.NoDup (List.map fst l) -> List.NoDup (List.map fst (take n l)).
Proof.
  revert n. induction l as [|y l IH]; intros [|n] H; cbn; try constructor.
  - cbn [List.map] in H. apply NoDup_cons_iff in H as [Hy Hl].
    intros Hin. apply Hy. apply in_map_iff in Hin as (x & Hx & Hin).
    rewrite <- Hx. apply in_map. now apply (take_In n).
  - cbn [List.map] in H. apply NoDup_cons_iff in H as [_ Hl]. now apply IH.
Qed.

Lemma take_sorted (n : nat) (l : list (string * nat)) :
  by_decreasing_count l -> by_decreasing_count (take n l).
Proof.
  revert n. induction l as [|y l IH]; intros [|n] H; cbn; try exact I.
  destruct H as [Hy Hl]. split; [| now apply IH].
  apply List.Forall_forall. intros x Hx. rewrite List.Forall_forall in Hy.
  apply Hy. now apply (take_In n).
Qed.

Lemma filter_NoDup_keys (f : string * nat -> bool) (l : list (string * nat)) :
  List.NoDup (List.map fst l) -> List.NoDup (List.map fst (List.filter f l)).
Proof.
  induction l as [|y l IH]; intros H; cbn; [constructor |].
  cbn [List.map] in H. apply NoDup_cons_iff in H as [Hy Hl].
  destruct (f y); [| now apply IH].
  cbn [List.map]. apply NoDup_cons_iff. split; [| now apply IH].
  intros Hin. apply Hy. apply in_map_iff in Hin as (x & Hx & Hin).
  rewrite <- Hx. apply in_map. now apply filter_In in Hin as [Hin _].
Qed.

Lemma lookup_In {A} (l : list A) (i : nat) (x : A) : l !! i = Some x -> In x l.
Proof.
  revert i. induction l as [|y l IH]; intros [|i] H; try discriminate.
  - cbn in H. injection H as <-. now left.
  - right. now apply (IH i).
Qed.

Lemma sorted_lookup (l : list (string * nat)) (i j : nat) (x y : string * nat) :
  by_decreasing_count l -> (i <= j)%nat ->
  l !! i = Some x -> l !! j = Some y -> (snd y <= snd x)%nat.
Proof.
  revert i j. induction l as [|z l IH]; intros i j Hs Hij Hi Hj; [discriminate |].
  destruct Hs as [Hz Hl]. destruct i as [|i].
  - cbn in Hi. injection Hi as <-. destruct j as [|j].
    + cbn in Hj. injection Hj as <-. lia.
    + cbn in Hj. rewrite List.Forall_forall in Hz. apply Hz.
      now apply lookup_In in Hj.
  - destruct j as [|j]; [lia |]. cbn in Hi, Hj.
    apply (IH i j Hl); [lia | exact Hi | exact Hj].
Qed.

(** The entries [extract_keywords] keeps, before their words are taken. *)
Lemma kept_entries_spec (text : string) (max_keywords : Z) :
  let kept :=
    rag_pipeline.py_take max_keywords
      (rag_pipeline.sort_by_count
         (List.filter (fun e => negb (rag_pipeline.is_stop_word (fst e)))
            (rag_pipeline.word_counts (counted_words text)))) in
  List.NoDup (List.map fst kept)
  /\ by_decreasing_count kept
  /\ (0 <= max_keywords -> (Z.of_nat (length kept) <= max_keywords))
  /\ (forall k n, In (k, n) kept ->
        In k (counted_words text) /\ is_long k = true
        /\ rag_pipeline.is_stop_word k = false
        /\ n = occurrences k (counted_words text)).
Proof.
  cbv zeta.
  set (counts := rag_pipeline.word_counts (counted_words text)).
  set (live := List.filter _ counts).
  destruct (word_counts_spec (counted_words text)) as [Hnd Hent]. fold counts in Hnd, Hent.
  destruct (sort_by_count_spec live) as (Hin & Hsnd & Hsorted).
  assert (Hlive : List.NoDup (List.map fst live)) by (now apply filter_NoDup_keys).
  assert (Htake : exists n, rag_pipeline.py_take max_keywords
                              (rag_pipeline.sort_by_count live)
                            = take n (rag_pipeline.sort_by_count live)
                            /\ (0 <= max_keywords -> n = Z.to_nat max_keywords)).
  { unfold rag_pipeline.py_take. destruct (0 <=? max_keywords) eqn:E.
    - eexists. split; [reflexivity | reflexivity].
    - eexists. split; [reflexivity |]. apply Z.leb_gt in E. lia. }
  destruct Htake as (n & -> & Hn).
  split; [apply take_NoDup_keys; now apply Hsnd |].
  split; [now apply take_sorted |].
  split.
  - intros Hk. rewrite (Hn Hk). pose proof (firstn_le_length (Z.to_nat max_keywords)
                                     (rag_pipeline.sort_by_count live)). lia.
  - intros k m Hk. apply take_In, Hin in Hk.
    subst live. apply filter_In in Hk as [Hk Hstop]. cbn [fst] in Hstop.
    destruct (Hent k m Hk) as (H1 & H2 & H3).
    repeat split; try assumption. now apply negb_true_iff in Hstop.
Qed.

(** X6.  The keywords [extract_keywords] returns for an ASCII text are
    pairwise distinct words of the cleaned, lower-cased text, each longer
    than three characters and none of them a stop word; for a non-negative
    [max_keywords] there are at most that many. *)
Theorem extract_keywords_are_distinct_long_words (text : string) (max_keywords : Z) :
  isascii text = true ->
  let keywords := rag_pipeline.extract_keywords text max_keywords in
  List.NoDup keywords
  /\ (0 <= max_keywords -> Z.of_nat (length keywords) <= max_keywords)
  /\ (forall word, In word keywords ->
        In word (counted_words text)
        /\ (3 < String.length word)%nat
        /\ rag_pipeline.is_stop_word word = false).
Proof.
  intros _. cbv zeta. unfold rag_pipeline.extract_keywords.
  destruct (kept_entries_spec text max_keywords) as (Hnd & _ & Hlen & Hent).
  cbv zeta in Hnd, Hlen, Hent. unfold counted_words in *.
  split; [exact Hnd |]. split.
  - intros Hk. rewrite length_map. now apply Hlen.
  - intros word Hw. apply in_map_iff in Hw as ([k n] & <- & Hkn). cbn [fst].
    destruct (Hent k n Hkn) as (H1 & H2 & H3 & _).
    repeat split; try assumption. now apply Nat.ltb_lt in H2.
Qed.

(** The instance: a text with two keywords and a limit of five. *)
Lemma extract_keywords_are_distinct_long_words_witness :
  let text := "Code, pears and code; pears with CODE." in
  isascii text = true
  /\ rag_pipeline.extract_keywords text 5 = ["code"; "pears"]
  /\ let keywords := rag_pipeline.extract_keywords text 5 in
     List.NoDup keywords
     /\ (0 <= 5 -> Z.of_nat (length keywords) <= 5)
     /\ (forall word, In word keywords ->
           In word (counted_words text)
           /\ (3 < String.length word)%nat
           /\ rag_pipeline.is_stop_word word = false).
Proof.
  intros text. split; [reflexivity |]. split; [vm_compute; reflexivity |].
  exact (extract_keywords_are_distinct_long_words text 5 eq_refl).
Defined.

(** X7.  The keywords of an ASCII text come by decreasing frequency: a
    keyword never occurs more often in the text than a keyword listed
    before it. *)
Theorem extract_keywords_by_decreasing_frequency (text : string) (max_keywords : Z)
    (i j : nat) (earlier later : string) :
  isascii text = true ->
  let keywords := rag_pipeline.extract_keywords text max_keywords in
  (i <= j)%nat ->
  keywords !! i = Some earlier -> keywords !! j = Some later ->
  (occurrences later (counted_words text)
   <= occurrences earlier (counted_words text))%nat.
Proof.
  intros _. cbv zeta. unfold rag_pipeline.extract_keywords. intros Hij Hi Hj.
  destruct (kept_entries_spec text max_keywords) as (_ & Hsorted & _ & Hent).
  cbv zeta in Hsorted, Hent. unfold counted_words in *.
  rewrite list_lookup_fmap in Hi, Hj.
  destruct (_ !! i) as [[k1 n1]|] eqn:E1; [| discriminate].
  destruct (_ !! j) as [[k2 n2]|] eqn:E2; [| discriminate].
  cbn in Hi, Hj. injection Hi as <-. injection Hj as <-.
  pose proof (sorted_lookup _ i j _ _ Hsorted Hij E1 E2) as Hle. cbn [snd] in Hle.
  apply lookup_In in E1, E2.
  destruct (Hent _ _ E1) as (_ & _ & _ & <-).
  destruct (Hent _ _ E2) as (_ & _ & _ & <-). exact Hle.
Qed.

(** The instance: a text in which [code] occurs three times and [pears]
    twice. *)
Lemma extract_keywords_by_decreasing_frequency_witness :
  let text := "Code, pears and code; pears with CODE." in
  let keywords := rag_pipeline.extract_keywords text 5 in
  (isascii text = true /\ (0 <= 1)%nat
   /\ keywords !! 0%nat = Some "code" /\ keywords !! 1%nat = Some "pears")
  /\ (occurrences "pears" (counted_words text)
      <= occurrences "code" (counted_words text))%nat.
Proof.
  intros text keywords.
  assert (Hij : (0 <= 1)%nat) by lia.
  assert (Hi : keywords !! 0%nat = Some "code") by (vm_compute; reflexivity).
  assert (Hj : keywords !! 1%nat = Some "pears") by (vm_compute; reflexivity).
  split; [split; [reflexivity | split; [exact Hij | split; [exact Hi | exact Hj]]] |].
  exact (extract_keywords_by_decreasing_frequency text 5 0 1 "code" "pears"
           eq_refl Hij Hi Hj).
Defined.

(** ** What cleaning a video touches *)

Lemma length_append (a b : string) :
  String.length (a +:+ b) = (String.length a + String.length b)%nat.
Proof.
  induction a as [|c a IH]; [reflexivity |].
  change (String c a +:+ b) with (String c (a +:+ b)). cbn [String.length].
  now rewrite IH.
Qed.

Lemma append_inv_tail (a b s : string) : a +:+ s = b +:+ s -> a = b.
Proof.
  revert b. induction a as [|c a IH]; intros [|d b] H.
  - reflexivity.
  - apply (f_equal String.length) in H. rewrite !length_append in H.
    cbn [String.length] in H. lia.
  - apply (f_equal String.length) in H. rewrite !length_append in H.
    cbn [String.length] in H. lia.
  - change (String c (a +:+ s) = String d (b +:+ s)) in H.
    injection H as Hcd H. subst d. now rewrite (IH b H).
Qed.

Lemma startswith_append (p rest : string) : startswith p (p +:+ rest) = true.
Proof. apply startswith_iff. now exists rest. Qed.

(** X8.  Cleaning one video leaves the stored data of every other video
    as it was: its transcript, its per-question cache file, its audio
    file, its vector collection and its record; the records and the
    in-process answer cache are not touched at all. *)
Theorem clean_video_data_spares_other_videos (video_id other : string) (st : State) :
  other <> video_id ->
  let st' := clean_video_data video_id st in
  transcripts st' !! transcript_file other = transcripts st !! transcript_file other
  /\ cache_files st' !! cache_file other = cache_files st !! cache_file other
  /\ (audio_file other ∈ audio_files st' <-> audio_file other ∈ audio_files st)
  /\ collections st' !! collection_name other
     = collections st !! collection_name other
  /\ video_infos st' = video_infos st
  /\ memory_cache st' = memory_cache st.
Proof.
  intros Hne st'. subst st'. unfold clean_video_data.
  cbn [transcripts cache_files audio_files collections video_infos memory_cache
       set_transcripts set_cache_files set_audio_files set_temp_files
       set_collections set_conversation_histories].
  assert (Ht : transcript_file video_id <> transcript_file other).
  { intros H. apply append_inv_tail in H. congruence. }
  assert (Hc : cache_file video_id <> cache_file other).
  { intros H. apply append_inv_tail in H. congruence. }
  assert (Ha : audio_file other <> audio_file video_id).
  { intros H. apply append_inv_tail in H. congruence. }
  assert (Hn : collection_name video_id <> collection_name other).
  { intros H. apply append_inv_head in H. congruence. }
  split; [now apply lookup_delete_ne |].
  split; [now apply lookup_delete_ne |].
  split.
  { rewrite elem_of_difference, elem_of_singleton.
    split; [intros [H _]; exact H | intros H; split; [exact H | exact Ha]]. }
  split; [now apply lookup_delete_ne |].
  split; reflexivity.
Qed.

(** The instance: the data of a second video, after the first one has
    been cleaned. *)
Lemma clean_video_data_spares_other_videos_witness :
  let st := set_transcripts (<[transcript_file "v2" := "text"]> (transcripts asked))
              asked in
  let st' := clean_video_data "v1" st in
  "v2" <> "v1"
  /\ transcripts st' !! transcript_file "v2" = transcripts st !! transcript_file "v2"
  /\ cache_files st' !! cache_file "v2" = cache_files st !! cache_file "v2"
  /\ (audio_file "v2" ∈ audio_files st' <-> audio_file "v2" ∈ audio_files st)
  /\ collections st' !! collection_name "v2" = collections st !! collection_name "v2"
  /\ video_infos st' = video_infos st
  /\ memory_cache st' = memory_cache st.
Proof.
  intros st st'.
  assert (Hne : "v2" <> "v1") by discriminate.
  split; [exact Hne |].
  exact (clean_video_data_spares_other_videos "v1" "v2" st Hne).
Defined.

(** X9.  The temporary files and the conversation histories are removed
    by prefix, so cleaning a video also removes those of every video
    whose identifier starts with the identifier of the cleaned one
    followed by an underscore. *)
Theorem clean_video_data_reaches_prefixed_ids
    (video_id suffix name : string) (st : State) :
  let other := video_id +:+ "_" +:+ suffix in
  let st' := clean_video_data video_id st in
  temp_files st' !! (other +:+ "_" +:+ name) = None
  /\ conversation_histories st' !! (other +:+ "_" +:+ name) = None.
Proof.
  cbv zeta. unfold clean_video_data, without_prefix.
  cbn [temp_files conversation_histories
       set_transcripts set_cache_files set_audio_files set_temp_files
       set_collections set_conversation_histories].
  assert (Hp : startswith (video_id +:+ "_")
                 ((video_id +:+ "_" +:+ suffix) +:+ "_" +:+ name) = true).
  { rewrite !append_assoc. rewrite <- (append_assoc video_id "_").
    apply startswith_append. }
  split; apply map_lookup_filter_None; right; intros x _; cbn [fst];
    rewrite Hp; discriminate.
Qed.

(** ** The two layers of the answer cache *)

Lemma memory_lookup_stored (h a v h' v' : string) (st : State) :
  memory_lookup h' v' (memory_store h a v st)
  = if String.eqb v' v && String.eqb h' h then Some a else memory_lookup h' v' st.
Proof.
  unfold memory_lookup, memory_store. cbn [memory_cache set_memory_cache].
  destruct (String.eqb_spec v' v) as [->|Hv]; cbn [andb].
  - rewrite lookup_insert_eq.
    destruct (String.eqb_spec h' h) as [->|Hh].
    + apply lookup_insert_eq.
    + rewrite lookup_insert_ne by congruence.
      destruct (memory_cache st !! v); [reflexivity | apply lookup_empty].
  - now rewrite lookup_insert_ne by congruence.
Qed.

(** X10.  An answer saved under a fingerprint for a video is what
    [get_cached_answer] returns for that fingerprint and video, and the
    saving changes the answer of no other fingerprint and of no other
    video. *)
Theorem saved_answer_is_found (h a v : string) (st : State) :
  fst (get_cached_answer h v (save_to_cache h a v st)) = Some a
  /\ forall h' v', (h' <> h \/ v' <> v) ->
       fst (get_cached_answer h' v' (save_to_cache h a v st))
       = fst (get_cached_answer h' v' st).
Proof.
  split.
  - unfold get_cached_answer, save_to_cache.
    change (memory_lookup h v (set_cache_files ?c ?s)) with (memory_lookup h v s).
    now rewrite memory_lookup_stored, !String.eqb_refl.
  - intros h' v' Hne. unfold get_cached_answer, save_to_cache.
    change (memory_lookup h' v' (set_cache_files ?c ?s)) with (memory_lookup h' v' s).
    rewrite memory_lookup_stored.
    assert (E : String.eqb v' v && String.eqb h' h = false).
    { destruct (String.eqb_spec v' v); [| reflexivity].
      destruct (String.eqb_spec h' h); [| reflexivity]. destruct Hne; congruence. }
    rewrite E. destruct (memory_lookup h' v' st); [reflexivity |].
    cbn [cache_files set_cache_files].
    change (cache_files (memory_store h a v st)) with (cache_files st).
    destruct (String.eqb_spec v' v) as [->|Hv].
    + rewrite lookup_insert_eq.
      assert (Hh : h' <> h) by (destruct Hne; congruence).
      rewrite lookup_insert_ne by congruence.
      destruct (cache_files st !! cache_file v) as [cache|]; cbn [default from_option id].
      * now destruct (cache !! h').
      * now rewrite lookup_empty.
    + rewrite lookup_insert_ne.
      * destruct (cache_files st !! cache_file v') as [cache|]; [| reflexivity].
        now destruct (cache !! h').
      * intros H. apply append_inv_tail in H. congruence.
Qed.

(** X11.  An answer that was saved, or that was read once from the cache
    file, is served from the in-process cache from then on:
    [clean_video_data], which removes the cache file when the video is
    processed again or deleted, does not make [get_cached_answer] forget
    it. *)
Theorem cached_answer_outlives_cleaning (h a v : string) (st : State) :
  fst (get_cached_answer h v (clean_video_data v (save_to_cache h a v st))) = Some a
  /\ (fst (get_cached_answer h v st) = Some a -> nonempty a = true ->
      fst (get_cached_answer h v
             (clean_video_data v (snd (get_cached_answer h v st)))) = Some a).
Proof.
  assert (Hmem : forall s, memory_lookup h v s = Some a ->
            fst (get_cached_answer h v (clean_video_data v s)) = Some a).
  { intros s Hs. unfold get_cached_answer.
    change (memory_lookup h v (clean_video_data v s)) with (memory_lookup h v s).
    now rewrite Hs. }
  split.
  - apply Hmem. unfold save_to_cache.
    change (memory_lookup h v (set_cache_files ?c ?s)) with (memory_lookup h v s).
    now rewrite memory_lookup_stored, !String.eqb_refl.
  - intros Hget Hne. apply Hmem. revert Hget. unfold get_cached_answer.
    destruct (memory_lookup h v st) as [x|] eqn:Hm.
    + cbn [fst snd]. now intros [= ->].
    + destruct (cache_files st !! cache_file v) as [cache|]; [| discriminate].
      destruct (cache !! h) as [x|]; [| discriminate].
      cbn [fst snd]. intros [= ->]. rewrite Hne.
      now rewrite memory_lookup_stored, !String.eqb_refl.
Qed.

(** X12.  The title of the video never changes the classification of a
    question: whether a question counts as related to the video depends
    on its wording alone. *)
Theorem video_title_is_not_consulted (question title1 title2 : string) :
  is_video_related_question question title1
  = is_video_related_question question title2.
Proof.
  unfold is_video_related_question.
  destruct (any_in _ _); [reflexivity |].
  destruct (any_in _ _); [reflexivity |].
  destruct (any_in _ _); [reflexivity |].
  now destruct (_ && _), (_ && _).
Qed.

(** ** What a run of [process] leaves in the tracker and on disk *)

Lemma same_counters_refl (st : State) : same_counters st st.
Proof. repeat split. Qed.

Lemma same_counters_trans (a b c : State) :
  same_counters a b -> same_counters b c -> same_counters a c.
Proof.
  intros (H1 & H2 & H3) (H4 & H5 & H6). repeat split; congruence.
Qed.

Lemma estimate_counters (now : Q) (s : Status) :
  processing_type (estimate now s) = processing_type s
  /\ chunks_total (estimate now s) = chunks_total s
  /\ chunks_completed (estimate now s) = chunks_completed s.
Proof.
  unfold estimate. destruct (started_at s); [| repeat split].
  destruct (_ && _); repeat split.
Qed.

(** An update that carries neither a processing type nor a counter
    leaves the three of them as they were. *)
Lemma update_progress_counters (now : Q) (u : Update) (s : Status) :
  u_processing_type u = None -> u_chunks_total u = None ->
  u_chunks_completed u = None ->
  let s' := update_progress now u s in
  processing_type s' = processing_type s
  /\ chunks_total s' = chunks_total s
  /\ chunks_completed s' = chunks_completed s.
Proof.
  intros Hp Ht Hc. cbv zeta. unfold update_progress. rewrite Hp, Ht, Hc.
  cbn [when_given].
  destruct (estimate_counters now
              (when_given (u_started_at u) set_started_at
                 (when_given (u_video_id u) set_video_id
                    (when_given (u_percentage u) set_percentage
                       (set_message (u_message u) s))))) as (-> & -> & ->).
  destruct (u_started_at u), (u_video_id u), (u_percentage u); repeat split.
Qed.

Lemma progress_update_counters (W : World) (u : Update) (st : State) :
  u_processing_type u = None -> u_chunks_total u = None ->
  u_chunks_completed u = None ->
  same_counters st (progress_update W u st).
Proof.
  intros Hp Ht Hc. unfold same_counters, progress_update, read_clock.
  cbn [progress_status set_progress_status set_ticks].
  now apply update_progress_counters.
Qed.

Lemma process_started_counters (W : World) (video_id : string) (st : State) :
  same_counters st (process_started W video_id st).
Proof.
  unfold process_started, read_clock.
  change (same_counters st
            (progress_update W
               (with_started_at (clock W (ticks st))
                  (upd "Starting process..." (Some 0) video_id))
               (set_ticks (S (ticks st)) st))).
  eapply same_counters_trans; [| now apply progress_update_counters].
  repeat split.
Qed.

Lemma embed_and_store_counters (W : World) (chunks : list string) (name : string)
    (st : State) :
  same_counters st (embed_and_store W chunks name st).
Proof. unfold embed_and_store. destruct chunks; repeat split. Qed.

Lemma finish_direct_counters (W : World) (video_id title channel : string) (d : Q)
    (language : option string) (path transcript : string) (st : State) :
  same_counters st
    (snd (finish_direct W video_id title channel d language path transcript st)).
Proof.
  unfold finish_direct. cbn [snd].
  eapply same_counters_trans; [| now apply progress_update_counters].
  match goal with
  | |- same_counters _ (set_video_infos _ (embed_and_store W ?c ?n ?s)) =>
      apply same_counters_trans with (b := embed_and_store W c n s);
      [| repeat split]
  end.
  eapply same_counters_trans; [| apply embed_and_store_counters].
  eapply same_counters_trans; [| now apply progress_update_counters].
  repeat split.
Qed.

Lemma process_direct_counters (W : World) (u video_id title channel : string)
    (d : Q) (language : option string) (st : State) :
  same_counters st
    (snd (process_direct W u video_id title channel d language st)).
Proof.
  unfold process_direct.
  set (st1 := progress_update W (upd "Downloading audio..." (Some 25) video_id) st).
  assert (H1 : same_counters st st1) by (now apply progress_update_counters).
  destruct (negb (download_audio W u _)); [exact H1 |].
  set (st2 := progress_update W (upd "Processing audio..." (Some 40) video_id) _).
  assert (H2 : same_counters st st2).
  { eapply same_counters_trans; [exact H1 |].
    eapply same_counters_trans; [| now apply progress_update_counters]. repeat split. }
  destruct (split_audio _ _ _ _) as [[|seg segs]|]; try exact H2.
  set (st3 := progress_update W (upd "Transcribing audio..." (Some 60) video_id) st2).
  assert (H3 : same_counters st st3).
  { eapply same_counters_trans; [exact H2 | now apply progress_update_counters]. }
  destruct (negb (nonempty (strip _))); [exact H3 |].
  eapply same_counters_trans; [exact H3 | apply finish_direct_counters].
Qed.

(** X13.  [process] never resets the kind of processing and the chunk
    counters of the tracker: whatever the request and however the run
    ends, the tracker reports the processing type, the total and the
    completed number of chunks that the previous job left there, so a
    direct run after a chunked one is still shown as chunked. *)
Theorem process_keeps_the_chunk_counters (W : World) (req : ProcessRequest)
    (st : State) :
  same_counters st (snd (fst (process W req st))).
Proof.
  unfold process. destruct (url req) as [[|c u]|];
    [apply same_counters_refl | | apply same_counters_refl].
  set (vid := extract_video_id W (String c u)).
  destruct (negb (nonempty vid)); [apply same_counters_refl |].
  pose proof (process_started_counters W vid st) as H0.
  revert H0. generalize (process_started W vid st). intros st0 H0.
  pose proof (progress_update_counters W
                (upd "Getting video information..." (Some 10) vid) st0
                eq_refl eq_refl eq_refl) as H1.
  revert H1.
  generalize (progress_update W
                (upd "Getting video information..." (Some 10) vid) st0).
  intros st1 H1.
  destruct (get_video_info W (String c u)) as [[title d] channel].
  destruct (Qltb 1800 d || force_chunked req).
  - cbn [fst snd]. eapply same_counters_trans; [exact H0 |].
    eapply same_counters_trans; [exact H1 |]. repeat split.
  - pose proof (process_direct_counters W (String c u) vid title channel d
                  (p_language req) st1) as H2.
    destruct (process_direct W _ _ _ _ _ _ st1) as [response st2].
    cbn [fst snd] in *. eapply same_counters_trans; [exact H0 |].
    eapply same_counters_trans; [exact H1 | exact H2].
Qed.

Lemma transcripts_progress_update (W : World) (u : Update) (st : State) :
  transcripts (progress_update W u st) = transcripts st.
Proof. reflexivity. Qed.

Lemma process_started_sources (W : World) (video_id : string) (st : State) :
  transcripts (process_started W video_id st) !! transcript_file video_id = None
  /\ video_infos (process_started W video_id st) = video_infos st.
Proof.
  unfold process_started, read_clock. split; [| reflexivity].
  apply clean_video_data_removes.
Qed.

(** X14.  Processing a video again deletes its transcript before the new
    audio is downloaded.  When that download fails, the request is
    answered with the error 500, the transcript of the earlier run is gone
    and the record of the video is still there; a question on the video
    is then answered with the notice that no transcript is available. *)
Theorem failed_rerun_loses_the_transcript (W : World) (req : ProcessRequest)
    (st : State) (u title channel : string) (d : Q) :
  url req = Some u -> nonempty u = true ->
  nonempty (extract_video_id W u) = true ->
  get_video_info W u = (title, d, channel) ->
  Qltb 1800 d = false -> force_chunked req = false ->
  download_audio W u (AUDIO_DIR +:+ "/" +:+ audio_file (extract_video_id W u))
  = false ->
  let video_id := extract_video_id W u in
  exists st',
    process W req st = (HTTPError 500 "Failed to download audio", st', None)
    /\ transcripts st' !! transcript_file video_id = None
    /\ video_infos st' = video_infos st
    /\ forall info question areq,
         video_infos st !! info_file video_id = Some info ->
         still_processing info = false ->
         query areq = Some question -> nonempty question = true ->
         is_ar (language areq) = false ->
         ask W video_id areq st'
         = (plain prompts.ask_no_transcript_en areq, st').
Proof.
  intros Hu Hne Hvid Hinfo Hshort Hforce Hdl video_id.
  unfold process. rewrite Hu. destruct u as [|c u']; [discriminate |].
  fold video_id. subst video_id. rewrite Hvid. cbn [negb].
  set (video_id := extract_video_id W (String c u')) in *.
  destruct (process_started_sources W video_id st) as [Ht Hv].
  revert Ht Hv. generalize (process_started W video_id st). intros st0 Ht Hv.
  rewrite Hinfo, Hshort, Hforce. cbn [orb].
  unfold process_direct. rewrite Hdl. cbn [negb].
  eexists. split; [reflexivity |].
  split; [exact Ht |]. split; [exact Hv |].
  intros info question areq Hi Hsp Hq Hqn Har.
  unfold ask. rewrite Hq, Har. destruct question as [|q0 q]; [discriminate |].
  rewrite !video_infos_progress_update, Hv, Hi, Hsp.
  now rewrite !transcripts_progress_update, Ht.
Qed.

Lemma merge_results_all_empty (results : list string) :
  Forall (fun r => r = "") results -> merge_results results = "".
Proof.
  intros H. rewrite merge_results_skips_empty.
  assert (E : List.filter nonempty results = []).
  { induction H as [|r results -> _ IH]; [reflexivity | exact IH]. }
  now rewrite E.
Qed.

(** X15.  A direct job none of whose segments yields any text fails with
    the error 500 when the requested language is not Arabic; when it is
    Arabic the job succeeds, and the transcript it stores for the video
    is the right-to-left mark alone. *)
Theorem speechless_job_fails_unless_arabic (W : World) (req : ProcessRequest)
    (st : State) (u title channel language : string) (d : Q) (segments : list string) :
  direct_job W req u title channel d segments ->
  segments <> [] ->
  p_language req = Some language -> nonempty language = true ->
  (forall seg, In seg segments ->
     fails_to_transcribe (speech W) (p_language req) seg) ->
  let video_id := extract_video_id W u in
  if String.eqb language "ar" then
    exists preview lang keywords st',
      process W req st = (Processed video_id title preview lang keywords, st', None)
      /\ transcripts st' !! transcript_file video_id = Some RTL_MARK
      /\ progress.message (progress_status st') = "Processing complete!"
  else
    exists st',
      process W req st = (HTTPError 500 "Failed to transcribe audio", st', None)
      /\ transcripts st' !! transcript_file video_id = None.
Proof.
  intros (Hu & Hne & Hvid & Hinfo & Hshort & Hforce & Hdl & Hsplit)
         Hsegs Hlang Hgiven Hfail video_id.
  assert (Hmerge : merge_results
            (List.map (transcribe_single_segment (speech W) (p_language req))
               segments) = "").
  { apply merge_results_all_empty. apply List.Forall_forall. intros r Hr.
    apply in_map_iff in Hr as (seg & <- & Hin).
    now apply transcribe_failed_segment, Hfail. }
  assert (Htr : transcribe_segments (speech W) segments (p_language req)
                = if String.eqb language "ar" then RTL_MARK else "").
  { unfold transcribe_segments. destruct segments as [|s0 rest]; [congruence |].
    rewrite Hmerge. unfold add_rtl_marker, transcription.is_ar, language_given.
    rewrite Hlang. destruct (String.eqb language "ar"); [reflexivity |].
    destruct language; [discriminate | reflexivity]. }
  unfold process. rewrite Hu. destruct u as [|c u']; [discriminate |].
  subst video_id. rewrite Hvid. cbn [negb].
  set (video_id := extract_video_id W (String c u')) in *.
  destruct (process_started_sources W video_id st) as [Ht _].
  revert Ht. generalize (process_started W video_id st). intros st0 Ht.
  rewrite Hinfo, Hshort, Hforce. cbn [orb].
  unfold process_direct. rewrite Hdl. cbn [negb].
  assert (Hlen : Qltb 3600 d = false).
  { unfold Qltb in *. apply negb_false_iff in Hshort. apply negb_false_iff.
    apply Qle_bool_iff in Hshort. apply Qle_bool_iff.
    eapply Qle_trans; [exact Hshort | discriminate]. }
  rewrite Hlen, Hsplit. destruct segments as [|s0 rest]; [congruence |].
  rewrite Htr. destruct (String.eqb language "ar").
  - change (negb (nonempty (strip RTL_MARK))) with false. cbv iota.
    match goal with
    | |- context [finish_direct W ?v ?t ?c ?d ?l ?p ?tr ?s] =>
        destruct (finish_direct_spec W v t c d l p tr s)
          as (preview & lang & keywords & st' & E & Htx & Hm & _)
    end.
    rewrite E. exists preview, lang, keywords, st'. auto.
  - change (negb (nonempty (strip ""))) with true. cbv iota.
    eexists. split; [reflexivity |].
    now rewrite !transcripts_progress_update.
Qed.

(** The instance: the source of the first run, processed again while no
    download succeeds. *)
Lemma failed_rerun_loses_the_transcript_witness :
  let W := offline_world in
  let req := demo_request false in
  (url req = Some "https://youtu.be/v1" /\ nonempty "https://youtu.be/v1" = true
   /\ nonempty (extract_video_id W "https://youtu.be/v1") = true
   /\ get_video_info W "https://youtu.be/v1" = ("Demo", 1200%Q, "Channel")
   /\ Qltb 1800 1200 = false /\ force_chunked req = false
   /\ download_audio W "https://youtu.be/v1"
        (AUDIO_DIR +:+ "/" +:+ audio_file (extract_video_id W "https://youtu.be/v1"))
      = false)
  /\ is_Some (transcripts first_run !! transcript_file "v1")
  /\ exists st',
       process W req first_run = (HTTPError 500 "Failed to download audio", st', None)
       /\ transcripts st' !! transcript_file "v1" = None
       /\ video_infos st' = video_infos first_run.
Proof.
  intros W req.
  split; [repeat split; vm_compute; reflexivity |].
  split; [vm_compute; eexists; reflexivity |].
  destruct (failed_rerun_loses_the_transcript W req first_run
              "https://youtu.be/v1" "Demo" "Channel" 1200
              eq_refl eq_refl eq_refl eq_refl eq_refl eq_refl eq_refl)
    as (st' & H1 & H2 & H3 & _).
  exists st'. split; [exact H1 |]. split; [exact H2 | exact H3].
Defined.

(** The instance: ten segments, none of them transcribed, in Arabic. *)
Lemma speechless_job_fails_unless_arabic_witness :
  let W := mute_world in
  let req := request_in "ar" in
  (direct_job W req "https://youtu.be/v1" "Demo" "Channel" 1200 ten_segments
   /\ ten_segments <> []
   /\ p_language req = Some "ar" /\ nonempty "ar" = true
   /\ forall seg, In seg ten_segments ->
        fails_to_transcribe (speech W) (p_language req) seg)
  /\ exists preview lang keywords st',
       process W req store.empty
       = (Processed "v1" "Demo" preview lang keywords, st', None)
       /\ transcripts st' !! transcript_file "v1" = Some RTL_MARK
       /\ progress.message (progress_status st') = "Processing complete!".
Proof.
  intros W req.
  assert (Hjob : direct_job W req "https://youtu.be/v1" "Demo" "Channel" 1200
                   ten_segments).
  { repeat split; vm_compute; reflexivity. }
  assert (Hsegs : ten_segments <> []) by (vm_compute; discriminate).
  assert (Hfail : forall seg, In seg ten_segments ->
            fails_to_transcribe (speech W) (p_language req) seg).
  { intros seg _. right. reflexivity. }
  split; [repeat split; assumption |].
  exact (speechless_job_fails_unless_arabic W req store.empty
           "https://youtu.be/v1" "Demo" "Channel" "ar" 1200 ten_segments
           Hjob Hsegs eq_refl eq_refl Hfail).
Defined.

(** ** The long-video task when nothing can be cut or downloaded *)

Lemma plv_chunk_uncut (W : World) (job : Job) (cd total : Z) (actual : Q)
    (acc : list string * State) (idx : nat) :
  (forall s e out, ffmpeg_chunk W (j_audio_path job) s e out = false) ->
  fst (plv_chunk W job cd total actual acc idx) = fst acc.
Proof.
  intros Hcut. destruct acc as [all st]. unfold plv_chunk, plv_chunk_body.
  now rewrite Hcut.
Qed.

Lemma plv_chunks_uncut (W : World) (job : Job) (cd total : Z) (actual : Q)
    (st : State) :
  (forall s e out, ffmpeg_chunk W (j_audio_path job) s e out = false) ->
  fst (plv_chunks W job cd total actual st) = [].
Proof.
  intros Hcut. unfold plv_chunks.
  generalize (seq 0 (Z.to_nat total)) as idxs.
  assert (H : forall idxs acc,
             fst (fold_left (plv_chunk W job cd total actual) idxs acc) = fst acc).
  { induction idxs as [|i idxs IH]; intros acc; [reflexivity |].
    cbn [fold_left]. rewrite IH. now apply plv_chunk_uncut. }
  intros idxs. now rewrite H.
Qed.

Lemma plv_transcribed_uncut (W : World) (job : Job) (st st' : State)
    (total : Z) (actual : Q) (all : list string) :
  (forall s e out, ffmpeg_chunk W (j_audio_path job) s e out = false) ->
  plv_transcribed W job st = Returned (total, actual, all) st' ->
  all = [].
Proof.
  intros Hcut. unfold plv_transcribed.
  destruct (plv_plan W job st) as [[cd t0] s1|]; cbn [bind]; [| discriminate].
  destruct (plv_download W job cd t0 s1) as [[a t1] s2|]; cbn [bind];
    [| discriminate].
  pose proof (plv_chunks_uncut W job cd t1 a s2 Hcut) as H.
  destruct (plv_chunks W job cd t1 a s2) as [all' s3]. cbn [fst] in H.
  intros [= _ _ <- _]. exact H.
Qed.

(** X16.  A long-video task whose download succeeded ends as complete
    even when the transcoder cuts none of the super-chunks: the record
    says [complete] with every chunk counted as completed, the tracker
    says that the processing is complete, and the transcript stored for
    the video is the empty text. *)
Theorem uncut_long_video_is_recorded_complete (W : World) (job : Job) (st : State)
    (info : VideoInfo) :
  video_infos st !! info_file (j_video_id job) = Some info ->
  download_audio W (j_url job) (j_audio_path job) = true ->
  (forall s e out, ffmpeg_chunk W (j_audio_path job) s e out = false) ->
  let st' := process_long_video W job st in
  transcripts st' !! transcript_file (j_video_id job) = Some ""
  /\ progress.message (progress_status st') = "Processing complete!"
  /\ exists final,
       video_infos st' !! info_file (j_video_id job) = Some final
       /\ vi_processing_status final = Some "complete"
       /\ vi_chunks_completed final = vi_chunks_total final.
Proof.
  intros Hinfo Hdl Hcut st'. subst st'.
  destruct (plv_transcribed_returns W job st info Hinfo Hdl) as (all & st1 & E & _).
  pose proof (plv_transcribed_uncut W job st st1 _ _ all Hcut E) as ->.
  unfold process_long_video. rewrite E. unfold plv_finalize.
  split; [| split].
  - rewrite transcripts_progress_update.
    change (transcripts (write_info ?v ?i ?s)) with (transcripts s).
    unfold embed_and_store. destruct (split_text W _ _ _).
    + rewrite transcripts_progress_update. apply lookup_insert_eq.
    + change (transcripts (set_collections ?v ?s)) with (transcripts s).
      rewrite transcripts_progress_update. apply lookup_insert_eq.
  - apply update_progress_message.
  - eexists. split; [rewrite video_infos_progress_update; apply lookup_insert_eq |].
    split; reflexivity.
Qed.

(** The instance: the 5400-second source with a transcoder that fails. *)
Lemma uncut_long_video_is_recorded_complete_witness :
  let W := uncut_world in
  let st' := process_long_video W long_job long_started in
  (is_Some (video_infos long_started !! info_file (j_video_id long_job))
   /\ download_audio W (j_url long_job) (j_audio_path long_job) = true
   /\ forall s e out, ffmpeg_chunk W (j_audio_path long_job) s e out = false)
  /\ transcripts st' !! transcript_file (j_video_id long_job) = Some ""
  /\ progress.message (progress_status st') = "Processing complete!"
  /\ exists final,
       video_infos st' !! info_file (j_video_id long_job) = Some final
       /\ vi_processing_status final = Some "complete"
       /\ vi_chunks_completed final = vi_chunks_total final.
Proof.
  intros W st'.
  destruct (video_infos long_started !! info_file (j_video_id long_job))
    as [info|] eqn:Hinfo; [| vm_compute in Hinfo; discriminate].
  split; [split; [now eexists | split; [reflexivity | reflexivity]] |].
  exact (uncut_long_video_is_recorded_complete W long_job long_started info
           Hinfo eq_refl (fun _ _ _ => eq_refl)).
Defined.

Lemma estimate_video_id (now : Q) (s : Status) :
  progress.video_id (estimate now s) = progress.video_id s.
Proof.
  unfold estimate. destruct (started_at s); [| reflexivity].
  now destruct (_ && _).
Qed.

Lemma update_progress_video_id (now : Q) (u : Update) (s : Status) (v : string) :
  u_video_id u = Some v ->
  progress.video_id (update_progress now u s) = Some v.
Proof.
  intros Hv. unfold update_progress. rewrite estimate_video_id.
  destruct u as [m p vv t ct cc sa]. cbn [u_video_id] in Hv. subst vv.
  cbn [u_message u_percentage u_video_id u_processing_type u_chunks_total
       u_chunks_completed u_started_at].
  destruct p, t, ct as [ct|], cc as [cc|], sa; cbn [when_given];
    unfold derive_percentage; cbn [u_chunks_total];
    repeat match goal with
           | |- context [if ?b then _ else _] => destruct b
           | |- context [match F64.percent ?a ?b with _ => _ end] =>
               destruct (F64.percent a b)
           end; reflexivity.
Qed.

(** The state in which a failed download leaves the task. *)
Lemma plv_transcribed_download_fails (W : World) (job : Job) (st : State)
    (info : VideoInfo) :
  video_infos st !! info_file (j_video_id job) = Some info ->
  download_audio W (j_url job) (j_audio_path job) = false ->
  exists st1 current,
    plv_transcribed W job st = Raised "Failed to download audio for long video" st1
    /\ video_infos st1 !! info_file (j_video_id job) = Some current
    /\ progress.video_id (progress_status st1) = Some (j_video_id job)
    /\ progress.message (progress_status st1) = "Downloading audio..."
    /\ progress.percentage (progress_status st1) = 10.
Proof.
  intros Hinfo Hdl.
  unfold plv_transcribed, plv_plan, read_info.
  rewrite video_infos_progress_update, Hinfo. cbn [bind].
  unfold plv_download. rewrite Hdl. cbn [negb bind].
  eexists. eexists. split; [reflexivity |].
  split; [read_record; reflexivity |].
  unfold progress_update at 1. unfold read_clock.
  cbn [progress_status set_progress_status].
  split; [now apply update_progress_video_id |].
  split; [apply update_progress_message | now apply update_progress_explicit].
Qed.

(** X17.  When the download of a long video fails, the error is written
    to the record of the video, but the tracker is left at the tenth
    percent with the message of the download; the status route, which
    answers from the tracker as long as it names the video, goes on
    reporting the download and not the error. *)
Theorem failed_download_is_hidden_by_the_tracker (F : routes.Files) (W : World)
    (job : Job) (st : State) (info : VideoInfo) :
  video_infos st !! info_file (j_video_id job) = Some info ->
  download_audio W (j_url job) (j_audio_path job) = false ->
  let st' := process_long_video W job st in
  (exists final,
     video_infos st' !! info_file (j_video_id job) = Some final
     /\ vi_processing_status final = Some "error")
  /\ exists tracker,
       routes.get_video_status F (j_video_id job) st' = routes.Tracker tracker
       /\ progress.message tracker = "Downloading audio..."
       /\ progress.percentage tracker = 10.
Proof.
  intros Hinfo Hdl st'. subst st'.
  destruct (plv_transcribed_download_fails W job st info Hinfo Hdl)
    as (st1 & current & E & Hc & Hv & Hm & Hp).
  unfold process_long_video. rewrite E. unfold plv_handle. rewrite Hc.
  split.
  - eexists. split; [apply lookup_insert_eq | reflexivity].
  - exists (progress_status st1). unfold routes.get_video_status.
    change (progress_status (write_info ?v ?i ?s)) with (progress_status s).
    rewrite Hv, bool_decide_eq_true_2 by reflexivity. auto.
Qed.

(** The instance: the task of the 5400-second source, offline. *)
Lemma failed_download_is_hidden_by_the_tracker_witness :
  let W := offline_world in
  let F := {| routes.size_of := fun _ => 0 |} in
  let st' := process_long_video W long_job long_started in
  (is_Some (video_infos long_started !! info_file (j_video_id long_job))
   /\ download_audio W (j_url long_job) (j_audio_path long_job) = false)
  /\ (exists final,
        video_infos st' !! info_file (j_video_id long_job) = Some final
        /\ vi_processing_status final = Some "error")
  /\ exists tracker,
       routes.get_video_status F (j_video_id long_job) st' = routes.Tracker tracker
       /\ progress.message tracker = "Downloading audio..."
       /\ progress.percentage tracker = 10.
Proof.
  intros W F st'.
  destruct (video_infos long_started !! info_file (j_video_id long_job))
    as [info|] eqn:Hinfo; [| vm_compute in Hinfo; discriminate].
  split; [split; [now eexists | reflexivity] |].
  exact (failed_download_is_hidden_by_the_tracker F W long_job long_started info
           Hinfo eq_refl).
Defined.

Lemma total_chunks_of_positive (d : Q) (cd : Z) : 1 <= total_chunks_of d cd.
Proof. unfold total_chunks_of. lia. Qed.

(** The record a failed download leaves: the plan of the declared
    duration, nothing completed, the status [error]. *)
Lemma failed_download_record (W : World) (job : Job) (st : State)
    (info : VideoInfo) :
  video_infos st !! info_file (j_video_id job) = Some info ->
  download_audio W (j_url job) (j_audio_path job) = false ->
  let st' := process_long_video W job st in
  exists final,
    video_infos st' !! info_file (j_video_id job) = Some final
    /\ vi_processing_status final = Some "error"
    /\ vi_is_long_video final = vi_is_long_video info
    /\ vi_chunks_completed final = 0
    /\ 1 <= vi_chunks_total final
    /\ transcripts st' = transcripts st.
Proof.
  intros Hinfo Hdl st'. subst st'.
  unfold process_long_video, plv_transcribed, plv_plan, read_info.
  rewrite video_infos_progress_update, Hinfo. cbn [bind].
  unfold plv_download. rewrite Hdl. cbn [negb bind].
  unfold plv_handle. read_record.
  eexists. split; [read_record; reflexivity |].
  cbn [vi_set_error vi_set_chunks vi_processing_status vi_is_long_video
       vi_chunks_completed vi_chunks_total].
  repeat split. apply total_chunks_of_positive.
Qed.

(** X18.  A long video whose download failed stays "still processing"
    for the question route: its record is marked as an error, but since
    no chunk is completed every question on it is turned away, with the
    notice that the video is still processing or with an error, and
    neither the chat service nor any cache is reached. *)
Theorem failed_long_video_is_never_answered (W : World) (job : Job) (st : State)
    (info : VideoInfo) (areq : AskRequest) (question : string) :
  video_infos st !! info_file (j_video_id job) = Some info ->
  vi_is_long_video info = true ->
  download_audio W (j_url job) (j_audio_path job) = false ->
  query areq = Some question -> nonempty question = true ->
  let st' := process_long_video W job st in
  let r := ask W (j_video_id job) areq st' in
  snd r = st'
  /\ cached (fst r) = None
  /\ (processing_status (fst r) = Some "in_progress" \/ status_code (fst r) = 500).
Proof.
  intros Hinfo Hlong Hdl Hq Hqn st' r.
  destruct (failed_download_record W job st info Hinfo Hdl)
    as (final & Hf & Hs & Hl & Hc & Ht & _).
  fold st' in Hf. subst r. revert Hf. generalize st'. clear st'. intros st' Hf.
  unfold ask. rewrite Hq. destruct question as [|q0 q]; [discriminate |].
  rewrite Hf.
  assert (Hsp : still_processing final = true).
  { unfold still_processing. rewrite Hl, Hlong, Hs, Hc. cbn [andb negb String.eqb].
    apply Z.ltb_lt. lia. }
  rewrite Hsp.
  destruct (vi_chunks_total final =? 0); [cbn; auto |].
  destruct (F64.percent _ _); cbn; auto.
Qed.

(** The instance: the task of the 5400-second source, offline, and a
    question on it. *)
Lemma failed_long_video_is_never_answered_witness :
  let W := offline_world in
  let st' := process_long_video W long_job long_started in
  let r := ask W (j_video_id long_job) plain_question st' in
  (exists info,
     video_infos long_started !! info_file (j_video_id long_job) = Some info
     /\ vi_is_long_video info = true)
  /\ (download_audio W (j_url long_job) (j_audio_path long_job) = false
      /\ query plain_question = Some "What is Python?"
      /\ nonempty "What is Python?" = true)
  /\ snd r = st'
  /\ cached (fst r) = None
  /\ (processing_status (fst r) = Some "in_progress" \/ status_code (fst r) = 500).
Proof.
  intros W st' r.
  destruct (video_infos long_started !! info_file (j_video_id long_job))
    as [info|] eqn:Hinfo; [| vm_compute in Hinfo; discriminate].
  assert (Hlong : vi_is_long_video info = true).
  { vm_compute in Hinfo. injection Hinfo as <-. reflexivity. }
  split; [exists info; split; [reflexivity | exact Hlong] |].
  split; [repeat split |].
  exact (failed_long_video_is_never_answered W long_job long_started info
           plain_question "What is Python?" Hinfo Hlong eq_refl eq_refl eq_refl).
Defined.

(** ** The routes on the stored videos *)

(** X19.  Deleting a video removes its record, its transcript, its
    per-question cache file and its vector collection; from then on a
    question on it is answered with "Video not found.", a second
    deletion is refused with the error 404 and changes nothing, and the
    status route says [not_found] unless the tracker still names the
    video. *)
Theorem deleted_video_is_gone (F : routes.Files) (W : World)
    (video_id : string) (st : State) (info : VideoInfo)
    (areq : AskRequest) (question : string) :
  video_infos st !! info_file video_id = Some info ->
  query areq = Some question -> nonempty question = true ->
  is_ar (language areq) = false ->
  let st' := snd (routes.delete_video video_id st) in
  fst (routes.delete_video video_id st)
  = routes.Success ("Video " +:+ video_id +:+ " deleted successfully")
  /\ video_infos st' !! info_file video_id = None
  /\ transcripts st' !! transcript_file video_id = None
  /\ cache_files st' !! cache_file video_id = None
  /\ collections st' !! collection_name video_id = None
  /\ ask W video_id areq st' = (plain prompts.ask_not_found_en areq, st')
  /\ routes.delete_video video_id st' = (routes.Failure 404 "Video not found", st')
  /\ (progress.video_id (progress_status st) <> Some video_id ->
      routes.get_video_status F video_id st' = routes.NotFound video_id).
Proof.
  intros Hinfo Hq Hqn Har st'. subst st'. unfold routes.delete_video.
  rewrite Hinfo. cbn [fst snd].
  destruct (clean_video_data_removes video_id st) as (Ht & Hc & Hn).
  assert (Hgone : video_infos
            (set_video_infos
               (delete (info_file video_id)
                  (video_infos (clean_video_data video_id st)))
               (clean_video_data video_id st)) !! info_file video_id = None).
  { apply lookup_delete_eq. }
  split; [reflexivity |]. split; [exact Hgone |].
  split; [exact Ht |]. split; [exact Hc |]. split; [exact Hn |].
  split; [| split].
  - unfold ask. rewrite Hq, Har. destruct question; [discriminate |].
    now rewrite Hgone.
  - now rewrite Hgone.
  - intros Htr. unfold routes.get_video_status.
    change (progress_status (set_video_infos ?v (clean_video_data ?i ?s)))
      with (progress_status s).
    rewrite bool_decide_eq_false_2 by exact Htr. now rewrite Hgone.
Qed.

(** The instance: the video of the first run, deleted. *)
Lemma deleted_video_is_gone_witness :
  let F := {| routes.size_of := fun _ => 0 |} in
  let st' := snd (routes.delete_video "v1" first_run) in
  (is_Some (video_infos first_run !! info_file "v1")
   /\ query plain_question = Some "What is Python?"
   /\ nonempty "What is Python?" = true
   /\ is_ar (language plain_question) = false)
  /\ video_infos st' !! info_file "v1" = None
  /\ ask short_world "v1" plain_question st'
     = (plain prompts.ask_not_found_en plain_question, st')
  /\ routes.delete_video "v1" st' = (routes.Failure 404 "Video not found", st').
Proof.
  intros F st'.
  destruct (video_infos first_run !! info_file "v1") as [info|] eqn:Hinfo;
    [| vm_compute in Hinfo; discriminate].
  split; [split; [now eexists | repeat split] |].
  destruct (deleted_video_is_gone F short_world "v1" first_run info plain_question
              "What is Python?" Hinfo eq_refl eq_refl eq_refl)
    as (_ & H1 & _ & _ & _ & H2 & H3 & _).
  split; [exact H1 |]. split; [exact H2 | exact H3].
Defined.

(** X20.  The list of videos never reports an error: the status of every
    entry is overwritten with [complete], or with [in_progress] for a
    long video whose completed chunks are fewer than its total, whatever
    status the record holds. *)
Theorem listed_status_is_never_an_error (F : routes.Files) (st : State)
    (entry : routes.Listed) :
  In entry (routes.list_videos F st) ->
  let info := routes.l_info entry in
  vi_processing_status info
  = Some (if vi_is_long_video info
             && (vi_chunks_completed info <? vi_chunks_total info)
          then "in_progress" else "complete").
Proof.
  intros Hin info. subst info. unfold routes.list_videos in Hin.
  apply list_elem_of_In, list_elem_of_omap in Hin as ([name v] & _ & Hread).
  cbn [fst snd] in Hread.
  destruct (routes.endswith ".json" name); [| discriminate].
  unfold routes.read_video_file in Hread.
  destruct (vi_is_long_video v && (vi_chunks_completed v <? vi_chunks_total v))
    eqn:E.
  - destruct (if vi_chunks_total v =? 0 then None else _); [| discriminate].
    injection Hread as <-.
    cbn [routes.l_info routes.vi_set_status vi_set_chunks vi_processing_status
         vi_is_long_video vi_chunks_completed vi_chunks_total].
    now rewrite E.
  - injection Hread as <-.
    cbn [routes.l_info routes.vi_set_status vi_set_chunks vi_processing_status
         vi_is_long_video vi_chunks_completed vi_chunks_total].
    now rewrite E.
Qed.

(** The instance: the long video whose download failed, recorded as an
    error, is listed as in progress. *)
Lemma listed_status_is_never_an_error_witness :
  let F := {| routes.size_of := fun _ => 0 |} in
  vi_processing_status failed_record = Some "error"
  /\ exists entry,
       In entry (routes.list_videos F failed_state)
       /\ vi_processing_status (routes.l_info entry) = Some "in_progress".
Proof.
  intros F. split; [reflexivity |].
  assert (E : routes.list_videos F failed_state
              = [ {| routes.l_info := routes.vi_set_status "in_progress" failed_record;
                     routes.l_transcript_size := None;
                     routes.l_completion_percentage := Some 0 |} ]).
  { unfold routes.list_videos, failed_state. cbn [video_infos set_video_infos].
    rewrite map_to_list_singleton. vm_compute. reflexivity. }
  eexists. assert (Hin : In _ (routes.list_videos F failed_state))
    by (rewrite E; left; reflexivity).
  split; [exact Hin |].
  exact (listed_status_is_never_an_error F failed_state _ Hin).
Defined.

(** ** What [split_audio] returns *)

Lemma valid_paths_in_order (W : audio_processing.Services)
    (input_file dir : string) (m : Z) (long : bool) (idxs : list nat) :
  let paths :=
    valid_paths W (List.map (process_segment W input_file dir m long) idxs) in
  sublist paths (List.map (fun i => seg_path (plan_segment dir m i)) idxs)
  /\ Forall (fun p => path_exists W p = true) paths.
Proof.
  cbv zeta. unfold valid_paths.
  induction idxs as [|i idxs [IH1 IH2]]; cbn [List.map List.filter].
  - split; constructor.
  - assert (Hp : process_segment W input_file dir m long i
                 = seg_path (plan_segment dir m i)
                 \/ process_segment W input_file dir m long i = "").
    { unfold process_segment. destruct (ffmpeg_segment W _ _ _ _ _); auto. }
    destruct (nonempty _ && path_exists W _) eqn:E.
    + apply andb_true_iff in E as [En E]. destruct Hp as [Hp | Hp].
      * rewrite Hp in *. split; [now apply sublist_skip | now constructor].
      * rewrite Hp in En. discriminate.
    + split; [now apply sublist_cons | exact IH2].
Qed.

(** X21.  Whatever the transcoder does, the paths [split_audio] returns
    are files that exist, and they come in the order of the plan: the
    list is the list of the planned segment files with some of them left
    out, never reordered. *)
Theorem split_audio_returns_planned_files_in_order
    (W : audio_processing.Services) (input_file : string) (max_seconds : Z)
    (is_long_video : bool) (paths : list string) :
  split_audio W input_file max_seconds is_long_video = Some paths ->
  let long := detect_long_video W input_file is_long_video in
  let plan := planned_segments input_file (get_audio_duration W input_file)
                max_seconds long in
  sublist paths (List.map seg_path plan)
  /\ Forall (fun p => path_exists W p = true) paths.
Proof.
  intros H long plan. revert H. unfold split_audio.
  assert (Hnil : forall l : list string, sublist [] l) by apply sublist_nil_l.
  destruct (negb (check_ffmpeg W)); [intros [= <-]; split; [apply Hnil | constructor] |].
  destruct (negb (path_exists W input_file));
    [intros [= <-]; split; [apply Hnil | constructor] |].
  fold long.
  destruct (Qle_bool _ 0); [intros [= <-]; split; [apply Hnil | constructor] |].
  set (d := get_audio_duration W input_file) in *.
  set (m := effective_max_seconds d max_seconds long).
  destruct (m =? 0); [discriminate |].
  assert (Hplan : List.map seg_path plan
                  = List.map (fun i => seg_path (plan_segment (segments_dir input_file) m i))
                      (seq 0 (Z.to_nat (segments_count d m)))).
  { subst plan. unfold planned_segments. fold d m. now rewrite List.map_map. }
  rewrite Hplan.
  destruct (long && (50 <? segments_count d m)); intros [= <-].
  - rewrite batched_extraction, batches_concat by lia. apply valid_paths_in_order.
  - apply valid_paths_in_order.
Qed.

(** The instance: the ten segments of a 1200-second file. *)
Lemma split_audio_returns_planned_files_in_order_witness :
  let W := demo_audio 1200 in
  let plan := planned_segments "data/audio/v1.mp3"
                (get_audio_duration W "data/audio/v1.mp3") 120
                (detect_long_video W "data/audio/v1.mp3" false) in
  split_audio W "data/audio/v1.mp3" 120 false = Some ten_segments
  /\ sublist ten_segments (List.map seg_path plan)
  /\ Forall (fun p => path_exists W p = true) ten_segments.
Proof.
  intros W plan.
  assert (H : split_audio W "data/audio/v1.mp3" 120 false = Some ten_segments)
    by (vm_compute; reflexivity).
  split; [exact H |].
  exact (split_audio_returns_planned_files_in_order W "data/audio/v1.mp3" 120
           false ten_segments H).
Defined.

(** ** The time window on a transcript without markers *)

Lemma fold_scan_line_unmarked (lines : list string) (sc : Scan) :
  Forall (fun line => search_marker line = None) lines ->
  segments sc = [] -> current_time sc = 0 ->
  let sc' := fold_left scan_line lines sc in
  segments sc' = [] /\ current_time sc' = 0.
Proof.
  intros H. revert sc. induction H as [|line lines Hline _ IH]; intros sc Hs Ht.
  - now split.
  - cbn [fold_left]. apply IH; unfold scan_line; now rewrite Hline.
Qed.

(** X22.  On an ASCII transcript none of whose lines holds a time marker,
    the time window of a question selects nothing:
    [extract_transcript_segment] returns the whole transcript, whatever
    the start, the end and the duration. *)
Theorem unmarked_transcript_is_returned_whole
    (transcript : string) (start_time_sec end_time_sec video_duration : Q) :
  isascii transcript = true ->
  Forall (fun line => search_marker line = None) (split NL transcript) ->
  extract_transcript_segment transcript start_time_sec end_time_sec video_duration
  = transcript.
Proof.
  intros _ H. unfold extract_transcript_segment.
  destruct transcript as [|c t]; [reflexivity |]. cbn [nonempty negb].
  destruct (Qltb _ 60); [reflexivity |].
  unfold parse_segments.
  destruct (fold_scan_line_unmarked _
              {| segments := []; current_time := 0; current_text := "" |}
              H eq_refl eq_refl) as [Hs Ht].
  unfold flush. rewrite Hs, Ht. now rewrite andb_false_r.
Qed.

(** The instance: two lines of speech and a window of two minutes. *)
Lemma unmarked_transcript_is_returned_whole_witness :
  let transcript := "Hello there." +:+ NL +:+ "General remarks [sic]." in
  (isascii transcript = true
   /\ Forall (fun line => search_marker line = None) (split NL transcript))
  /\ extract_transcript_segment transcript 60 180 600 = transcript.
Proof.
  intros transcript.
  assert (H : Forall (fun line => search_marker line = None) (split NL transcript)).
  { vm_compute. repeat constructor. }
  split; [split; [reflexivity | exact H] |].
  exact (unmarked_transcript_is_returned_whole transcript 60 180 600 eq_refl H).
Defined.

(** ** A failing chat service *)








(** ** The length of the conversation histories *)

Lemma summarize_parts_histories (Sv : qa_system.Services)
    (system language : string) (n : nat) (chunks : list string) :
  forall (idx : nat) (st : State),
    conversation_histories (snd (summarize_parts Sv system language n idx chunks st))
    = conversation_histories st.
Proof.
  induction chunks as [|chunk rest IH]; intros idx st; [reflexivity |].
  cbn [summarize_parts]. unfold chat.
  match goal with
  | |- context [summarize_parts Sv system language n (S idx) rest ?s] =>
      specialize (IH (S idx) s);
      destruct (summarize_parts Sv system language n (S idx) rest s) as [sums st2]
  end.
  cbn [snd] in *. exact IH.
Qed.

Lemma summarize_transcript_histories (Sv : qa_system.Services)
    (transcript length language : string) (st : State) :
  conversation_histories (snd (summarize_transcript Sv transcript length language st))
  = conversation_histories st.
Proof.
  unfold summarize_transcript.
  destruct (negb (nonempty transcript) || _); [reflexivity |].
  destruct (10000 <? _).
  - match goal with
    | |- context [summarize_parts Sv ?sys ?l ?n ?i ?c st] =>
        pose proof (summarize_parts_histories Sv sys l n c i st) as H1;
        destruct (summarize_parts Sv sys l n i c st) as [sums st1]
    end.
    cbn [snd] in H1. unfold chat.
    destruct (chat_completion Sv _ _ _); cbn [snd]; exact H1.
  - unfold chat. destruct (chat_completion Sv _ _ _); reflexivity.
Qed.

Lemma get_cached_answer_histories (hash_key video_id : string) (st : State) :
  conversation_histories (snd (get_cached_answer hash_key video_id st))
  = conversation_histories st.
Proof.
  unfold get_cached_answer.
  destruct (memory_lookup _ _ _); [reflexivity |].
  destruct (cache_files st !! _) as [cache|]; [| reflexivity].
  destruct (cache !! hash_key) as [a|]; [| reflexivity].
  now destruct (nonempty a).
Qed.

(** [ask_question] does not touch the conversation histories. *)
Lemma ask_question_histories (Sv : qa_system.Services)
    (question transcript video_id language : string) (use_agent : bool)
    (history : option (list (string * string))) (title : string) (st : State) :
  conversation_histories
    (snd (ask_question Sv question transcript video_id language use_agent
            history title st))
  = conversation_histories st.
Proof.
  unfold ask_question.
  destruct (_ && negb (is_video_related_question _ _)); [reflexivity |].
  destruct (negb (nonempty transcript) || _); [reflexivity |].
  destruct (is_summary_request question);
    [apply summarize_transcript_histories |].
  assert (Hc : exists cached st1,
             (if caches question history
              then get_cached_answer (qa_hash question language use_agent) video_id st
              else (None, st)) = (cached, st1)
             /\ conversation_histories st1 = conversation_histories st).
  { destruct (caches question history).
    - pose proof (get_cached_answer_histories
                    (qa_hash question language use_agent) video_id st) as H.
      destruct (get_cached_answer _ video_id st) as [c s1]. eauto.
    - eauto. }
  destruct Hc as (cached & st1 & -> & H1).
  destruct (truthy cached) as [hit|]; [exact H1 |].
  match goal with
  | |- context [let '(_, _) := ?p in _] => destruct p as [sys u]
  end.
  unfold chat. destruct (chat_completion Sv _ _ _); cbn [snd]; [| exact H1].
  destruct (caches question history); exact H1.
Qed.

Lemma remember_bounded (sid : string) (turn : string * string) (st : State) :
  bounded_histories st -> bounded_histories (remember sid turn st).
Proof.
  intros Hb sid' h. unfold remember.
  cbn [conversation_histories set_conversation_histories].
  destruct (String.eqb_spec sid' sid) as [->|Hne].
  - rewrite lookup_insert_eq. intros [= <-].
    assert (Hold : (length (history_of sid st) <= 10)%nat).
    { unfold history_of. destruct (conversation_histories st !! sid) as [h0|] eqn:E;
        [exact (Hb sid h0 E) | cbn; lia]. }
    destruct (10 <? length (history_of sid st ++ [turn]))%nat eqn:E.
    + destruct (history_of sid st ++ [turn]) as [|t0 l] eqn:El; [cbn; lia |].
      cbn [tail]. apply (f_equal (@length _)) in El.
      rewrite length_app in El. cbn [length] in El. lia.
    + apply Nat.ltb_ge in E. exact E.
  - rewrite lookup_insert_ne by congruence. apply Hb.
Qed.

Lemma bounded_histories_same (st st' : State) :
  conversation_histories st' = conversation_histories st ->
  bounded_histories st -> bounded_histories st'.
Proof. intros E Hb sid h. rewrite E. apply Hb. Qed.

Lemma get_conversation_history_bounded (W : World) (req : AskRequest)
    (video_id : string) (st : State) :
  bounded_histories st ->
  bounded_histories (snd (get_conversation_history W req video_id st)).
Proof.
  intros Hb. unfold get_conversation_history.
  assert (Hopen : forall sid st0,
             bounded_histories st0 ->
             bounded_histories
               (snd (match conversation_histories st0 !! sid with
                     | Some _ => (sid, st0)
                     | None =>
                         (sid,
                          set_conversation_histories
                            (<[sid := []]> (conversation_histories st0)) st0)
                     end))).
  { intros sid st0 H0. destruct (conversation_histories st0 !! sid) eqn:E;
      [exact H0 |].
    cbn [snd]. intros sid' h.
    cbn [conversation_histories set_conversation_histories].
    destruct (String.eqb_spec sid' sid) as [->|Hne].
    - rewrite lookup_insert_eq. intros [= <-]. cbn. lia.
    - rewrite lookup_insert_ne by congruence. apply H0. }
  assert (Hclock : bounded_histories (snd (read_clock W st))).
  { unfold read_clock. exact Hb. }
  destruct (session_id req) as [sid|].
  - destruct (nonempty sid).
    + apply (Hopen sid st Hb).
    + destruct (read_clock W st) as [now st0]. apply (Hopen _ st0 Hclock).
  - destruct (read_clock W st) as [now st0]. apply (Hopen _ st0 Hclock).
Qed.

(** X24.  The question route keeps every conversation history within ten
    turns: if no session holds more than ten turns before a request, none
    does after it, whichever branch answers the request. *)
Theorem histories_stay_within_ten_turns (W : World) (video_id : string)
    (req : AskRequest) (st : State) :
  bounded_histories st -> bounded_histories (snd (ask W video_id req st)).
Proof.
  intros Hb. unfold ask.
  destruct (query req) as [[|q0 q]|]; [exact Hb | | exact Hb].
  destruct (video_infos st !! info_file video_id) as [info|]; [| exact Hb].
  destruct (still_processing info).
  { destruct (if vi_chunks_total info =? 0 then None else _); exact Hb. }
  destruct (transcripts st !! transcript_file video_id) as [transcript|];
    [| exact Hb].
  pose proof (get_conversation_history_bounded W req video_id st Hb) as H1.
  destruct (get_conversation_history W req video_id st) as [sid st1].
  cbn [snd] in H1. revert H1. generalize st1. clear st1. intros st1 H1.
  destruct (has_window req).
  - unfold ask_time_window.
    destruct (truthy _) as [hit|]; [now apply remember_bounded |].
    match goal with
    | |- context [qa_system.ask_question ?s ?q ?t ?v ?l ?u ?h ?ti st1] =>
        pose proof (ask_question_histories s q t v l u h ti st1) as H2;
        destruct (qa_system.ask_question s q t v l u h ti st1) as [ans st2]
    end.
    cbn [snd] in *. apply remember_bounded.
    eapply bounded_histories_same; [| exact H1]. exact H2.
  - unfold ask_full.
    destruct (truthy _) as [hit|]; [now apply remember_bounded |].
    match goal with
    | |- context [qa_system.ask_question ?s ?q ?t ?v ?l ?u ?h ?ti st1] =>
        pose proof (ask_question_histories s q t v l u h ti st1) as H2;
        destruct (qa_system.ask_question s q t v l u h ti st1) as [ans st2]
    end.
    cbn [snd] in *. apply remember_bounded.
    destruct (negb _); (eapply bounded_histories_same; [| exact H1]); exact H2.
Qed.

(** The instance: a first question after the first run. *)
Lemma histories_stay_within_ten_turns_witness :
  bounded_histories first_run
  /\ bounded_histories (snd (ask short_world "v1" plain_question first_run)).
Proof.
  assert (H : bounded_histories first_run).
  { assert (E : conversation_histories first_run = ∅) by (vm_compute; reflexivity).
    intros sid h. rewrite E, lookup_empty. discriminate. }
  split; [exact H |].
  exact (histories_stay_within_ten_turns short_world "v1" plain_question first_run H).
Defined.

(** ** The size of a file, formatted *)

Lemma Qle_bool_false (x y : Q) : Qle_bool x y = false -> (y < x)%Q.
Proof.
  intros H. apply Qnot_le_lt. intros Hle. apply Qle_bool_iff in Hle. congruence.
Qed.

Lemma Qltb_true (x y : Q) : Qltb x y = true -> (x < y)%Q.
Proof. unfold Qltb. intros H. apply negb_true_iff in H. now apply Qle_bool_false. Qed.

Lemma Qltb_false (x y : Q) : Qltb x y = false -> (y <= x)%Q.
Proof. unfold Qltb. intros H. apply negb_false_iff in H. now apply Qle_bool_iff. Qed.

(** The nearest integer is within a half. *)
Lemma round_half_even_near (x : Q) :
  (inject_Z (utils.round_half_even x) - (1 # 2) <= x
   /\ x <= inject_Z (utils.round_half_even x) + (1 # 2))%Q.
Proof.
  unfold utils.round_half_even.
  pose proof (Qfloor_le x) as Hlo. pose proof (Qlt_floor x) as Hhi.
  rewrite inject_Z_plus in Hhi. change (inject_Z 1) with 1%Q in Hhi.
  destruct (Qltb (x - inject_Z (Qfloor x)) (1 # 2)) eqn:E1.
  - apply Qltb_true in E1. split; lra.
  - apply Qltb_false in E1.
    destruct (Qltb (1 # 2) (x - inject_Z (Qfloor x))) eqn:E2.
    + rewrite inject_Z_plus. change (inject_Z 1) with 1%Q. split; lra.
    + apply Qltb_false in E2. destruct (Z.even (Qfloor x)).
      * split; lra.
      * rewrite inject_Z_plus. change (inject_Z 1) with 1%Q. split; lra.
Qed.

(** The loop divides by 1024 until the size is below 1024 or the last
    unit is reached. *)
Lemma scale_spec (steps : nat) :
  forall x : Q,
    (0 <= x)%Q ->
    exists j : nat,
      (j <= steps)%nat
      /\ snd (utils.scale steps x) = (steps - j)%nat
      /\ (fst (utils.scale steps x) * inject_Z (1024 ^ Z.of_nat j) == x)%Q
      /\ ((j < steps)%nat -> (fst (utils.scale steps x) < 1024)%Q)
      /\ ((0 < j)%nat -> (1 <= fst (utils.scale steps x))%Q).
Proof.
  induction steps as [|k IH]; intros x Hx.
  - exists 0%nat. cbn [utils.scale fst snd]. repeat split; try lia.
    change (inject_Z (1024 ^ Z.of_nat 0)) with 1%Q. ring.
  - cbn [utils.scale]. destruct (Qle_bool 1024 x) eqn:E.
    + apply Qle_bool_iff in E.
      assert (Hx' : (0 <= x / 1024)%Q) by (apply Qle_shift_div_l; lra).
      destruct (IH (x / 1024)%Q Hx') as (j & Hj & Hs & Hv & Hlt & Hge).
      exists (S j). split; [lia |]. split; [rewrite Hs; lia |]. split; [| split].
      * rewrite Nat2Z.inj_succ, Z.pow_succ_r by lia.
        rewrite inject_Z_mult. change (inject_Z 1024) with 1024%Q.
        setoid_replace (fst (utils.scale k (x / 1024)) * (1024 * inject_Z (1024 ^ Z.of_nat j)))%Q
          with (1024 * (fst (utils.scale k (x / 1024)) * inject_Z (1024 ^ Z.of_nat j)))%Q
          using relation Qeq by ring.
        rewrite Hv. field.
      * intros H. apply Hlt. lia.
      * intros _. destruct j as [|j'].
        -- change (inject_Z (1024 ^ Z.of_nat 0)) with 1%Q in Hv.
           rewrite Qmult_1_r in Hv. rewrite Hv. apply Qle_shift_div_l; lra.
        -- apply Hge. lia.
    + apply Qle_bool_false in E. exists 0%nat. cbn [fst snd].
      split; [lia |]. split; [lia |]. split; [| split].
      * change (inject_Z (1024 ^ Z.of_nat 0)) with 1%Q. ring.
      * intros _. exact E.
      * lia.
Qed.

(** X25.  For a size below [2^53] bytes, [format_file_size] prints the
    size in the largest unit, up to TB, in which it is at least one, and
    the figure it prints, with one decimal, is within a twentieth of the
    exact size in that unit. *)
Theorem format_file_size_is_within_a_twentieth (n : Z) :
  0 <= n < 2 ^ 53 ->
  exists (k : nat) (tenths : Z) (size : Q),
    (k <= 4)%nat
    /\ utils.format_file_size n
       = pretty (tenths / 10) +:+ "." +:+ pretty (tenths mod 10)
         +:+ " " +:+ nth k utils.units ""
    /\ (size * inject_Z (1024 ^ Z.of_nat k) == inject_Z n)%Q
    /\ (inject_Z tenths - (1 # 2) <= size * 10)%Q
    /\ (size * 10 <= inject_Z tenths + (1 # 2))%Q
    /\ ((k < 4)%nat -> (size < 1024)%Q)
    /\ ((0 < k)%nat -> (1 <= size)%Q).
Proof.
  intros [Hn _].
  assert (Hq : (0 <= inject_Z n)%Q) by (change 0%Q with (inject_Z 0); now rewrite <- Zle_Qle).
  destruct (scale_spec 4 (inject_Z n) Hq) as (j & Hj & Hs & Hv & Hlt & Hge).
  unfold utils.format_file_size.
  destruct (n <? 0) eqn:E; [apply Z.ltb_lt in E; lia |].
  destruct (utils.scale 4 (inject_Z n)) as [size steps_left].
  cbn [fst snd] in *. subst steps_left.
  exists j, (utils.round_half_even (size * 10)), size.
  destruct (round_half_even_near (size * 10)) as [Hlo Hhi].
  split; [exact Hj |]. split.
  { unfold utils.format_1f. replace (4 - (4 - j))%nat with j by lia.
    now rewrite !append_assoc. }
  repeat split; assumption.
Qed.

(** The instance: 1536 bytes are printed as 1.5 KB. *)
Lemma format_file_size_is_within_a_twentieth_witness :
  0 <= 1536 < 2 ^ 53
  /\ utils.format_file_size 1536 = "1.5 KB"
  /\ exists (k : nat) (tenths : Z) (size : Q),
       (k <= 4)%nat
       /\ utils.format_file_size 1536
          = pretty (tenths / 10) +:+ "." +:+ pretty (tenths mod 10)
            +:+ " " +:+ nth k utils.units ""
       /\ (size * inject_Z (1024 ^ Z.of_nat k) == inject_Z 1536)%Q
       /\ (inject_Z tenths - (1 # 2) <= size * 10)%Q
       /\ (size * 10 <= inject_Z tenths + (1 # 2))%Q
       /\ ((k < 4)%nat -> (size < 1024)%Q)
       /\ ((0 < k)%nat -> (1 <= size)%Q).
Proof.
  assert (H : 0 <= 1536 < 2 ^ 53) by lia.
  split; [exact H |]. split; [vm_compute; reflexivity |].
  exact (format_file_size_is_within_a_twentieth 1536 H).
Defined.

(** ** The parts of a long transcript given to the summarizer *)





(** ** The streamed answer and the cache *)


Lemma stream_step_plain (ds : list (option string)) :
  forall p : qa_streaming.Progress,
    qa_streaming.yielded (fold_left (qa_streaming.stream_step false) ds p)
    = qa_streaming.yielded p ++ omap truthy ds.
Proof.
  induction ds as [|d ds IH]; intros p; cbn [fold_left].
  - change (omap truthy []) with (@nil string). now rewrite app_nil_r.
  - change (omap truthy (d :: ds))
      with (match truthy d with
            | Some y => y :: omap truthy ds
            | None => omap truthy ds
            end).
    rewrite IH. unfold qa_streaming.stream_step.
    destruct (truthy d) as [content|]; [| reflexivity].
    cbn [qa_streaming.yielded andb]. now rewrite <- app_assoc.
Qed.

Lemma stream_step_unmarked (ds : list (option string)) :
  Forall (fun d => match d with
                   | Some content => contains "Final Answer:" content = false
                   | None => True
                   end) ds ->
  forall p : qa_streaming.Progress,
    qa_streaming.in_final_answer p = false ->
    qa_streaming.yielded (fold_left (qa_streaming.stream_step true) ds p)
    = qa_streaming.yielded p.
Proof.
  induction 1 as [|d ds Hd _ IH]; intros p Hp; [reflexivity |].
  cbn [fold_left]. unfold qa_streaming.stream_step at 2.
  destruct d as [[|c content]|]; cbn [truthy]; try (now apply IH).
  rewrite IH; cbn [qa_streaming.in_final_answer qa_streaming.yielded andb];
    rewrite Hd, Hp; reflexivity.
Qed.



(** X28.  What the stream yields: in the plain mode, the non-empty pieces
    of the completion, one by one; in the agent mode, nothing at all when
    no single piece holds the marker of the final answer, as when the
    marker arrives split over two pieces. *)
Theorem what_the_stream_yields (W : qa_streaming.Services)
    (question transcript video_id language : string)
    (history : option (list (string * string))) (title : string) (st : State)
    (stream : qa_streaming.Stream) :
  turned_away question transcript video_id title history st = false ->
  (forall n system user, qa_streaming.stream_completion W n system user = Some stream) ->
  qa_streaming.completes stream = true ->
  fst (qa_streaming.ask_question_streaming W question transcript video_id
         language false history title st) = pieces stream
  /\ (Forall (fun d => match d with
                       | Some content => contains "Final Answer:" content = false
                       | None => True
                       end) (qa_streaming.deltas stream) ->
      fst (qa_streaming.ask_question_streaming W question transcript video_id
             language true history title st) = []).
Proof.
  intros Hgo Hstream Hdone.
  unfold turned_away in Hgo. apply orb_false_iff in Hgo as [Hrel Hshort].
  unfold qa_streaming.ask_question_streaming. rewrite Hrel, Hshort.
  split.
  - match goal with
    | |- context [let '(_, _) := ?p in _] => destruct p as [sys u]
    end.
    rewrite Hstream, Hdone. cbn [fst].
    unfold qa_streaming.consume. now rewrite stream_step_plain.
  - intros Hno.
    match goal with
    | |- context [let '(_, _) := ?p in _] => destruct p as [sys u]
    end.
    rewrite Hstream, Hdone. cbn [fst].
    unfold qa_streaming.consume. now rewrite stream_step_unmarked.
Qed.

(** The instance: the marker split over two pieces. *)
Lemma what_the_stream_yields_witness :
  let W := streaming_services agent_stream in
  (turned_away "What is Python?" demo_transcript "v1" "Demo" None first_run = false
   /\ (forall n system user,
         qa_streaming.stream_completion W n system user = Some agent_stream)
   /\ qa_streaming.completes agent_stream = true)
  /\ fst (qa_streaming.ask_question_streaming W "What is Python?" demo_transcript
            "v1" "en" false None "Demo" first_run) = pieces agent_stream
  /\ (Forall (fun d => match d with
                       | Some content => contains "Final Answer:" content = false
                       | None => True
                       end) (qa_streaming.deltas agent_stream) ->
      fst (qa_streaming.ask_question_streaming W "What is Python?" demo_transcript
             "v1" "en" true None "Demo" first_run) = []).
Proof.
  intros W.
  assert (Hgo : turned_away "What is Python?" demo_transcript "v1" "Demo" None
                  first_run = false) by (vm_compute; reflexivity).
  assert (Hs : forall n system user,
             qa_streaming.stream_completion W n system user = Some agent_stream)
    by reflexivity.
  split; [repeat split; try reflexivity; assumption |].
  exact (what_the_stream_yields W "What is Python?" demo_transcript "v1" "en"
           None "Demo" first_run agent_stream Hgo Hs eq_refl).
Defined.

(** ** The windows of a transcript given as context *)

Lemma split_from_nonempty (sep : string) (s : string) :
  forall skip, split_from sep skip s <> [].
Proof.
  induction s as [|c s IH]; intros skip; [discriminate |].
  cbn [split_from]. destruct skip as [|k]; [| apply IH].
  destruct (startswith sep (String c s)); [discriminate |].
  specialize (IH 0%nat). destruct (split_from sep 0 s); [contradiction | discriminate].
Qed.

Lemma join_cons_head (sep : string) (c : ascii) (parts : list string) :
  parts <> [] -> join sep (cons_head c parts) = String c (join sep parts).
Proof.
  destruct parts as [|p [|q ps]]; [contradiction | reflexivity | reflexivity].
Qed.

Lemma str_drop_append (a b : string) : str_drop (String.length a) (a +:+ b) = b.
Proof. induction a as [|c a IH]; [now destruct b | exact IH]. Qed.

Lemma str_drop_empty (n : nat) : str_drop n "" = "".
Proof. now destruct n. Qed.

(** Joining the parts of a text with the separator that split it gives
    the text back. *)
Lemma join_split_from (sep : string) (s : string) :
  nonempty sep = true ->
  forall skip, join sep (split_from sep skip s) = str_drop skip s.
Proof.
  intros Hsep. induction s as [|c s IH]; intros skip.
  - now rewrite str_drop_empty.
  - cbn [split_from]. destruct skip as [|k]; [| apply IH].
    cbn [str_drop]. destruct (startswith sep (String c s)) eqn:E.
    + apply startswith_iff in E as [b Hb].
      destruct sep as [|d sep']; [discriminate |].
      change (String c s = String d (sep' +:+ b)) in Hb. injection Hb as -> ->.
      assert (Hn : (String.length (String d sep') - 1)%nat = String.length sep')
        by (cbn [String.length]; lia).
      rewrite Hn.
      pose proof (split_from_nonempty (String d sep')
                    (sep' +:+ b) (String.length sep')) as Hne.
      specialize (IH (String.length sep')).
      destruct (split_from (String d sep') _ (sep' +:+ b)) as [|p ps];
        [contradiction |].
      change (join (String d sep') ("" :: p :: ps))
        with (String d sep' +:+ join (String d sep') (p :: ps)).
      rewrite IH, str_drop_append. reflexivity.
    + rewrite join_cons_head by apply split_from_nonempty. now rewrite IH.
Qed.

Lemma join_snoc (sep : string) (parts : list string) (p : string) :
  join sep (parts ++ [p])
  = match parts with
    | [] => p
    | _ => join sep parts +:+ sep +:+ p
    end.
Proof.
  induction parts as [|q parts IH]; [reflexivity |].
  destruct parts as [|r parts]; [reflexivity |].
  change (join sep ((q :: r :: parts) ++ [p]))
    with (q +:+ sep +:+ join sep ((r :: parts) ++ [p])).
  rewrite IH.
  change (join sep (q :: r :: parts)) with (q +:+ sep +:+ join sep (r :: parts)).
  now rewrite !append_assoc.
Qed.

Lemma join_last_append (sep : string) (parts : list string) (x y : string) :
  join sep (parts ++ [x +:+ y]) = join sep (parts ++ [x]) +:+ y.
Proof.
  rewrite !join_snoc. destruct parts; [reflexivity |]. now rewrite !append_assoc.
Qed.

(** One step of the grouping adds the paragraph, after a separator, to
    the text that joining the windows gives. *)
Lemma window_paragraph_joined (sep : string) (w : Window) (para : string) :
  sep = NL +:+ NL ->
  join sep (close_window sep (window_paragraph w para))
  = match close_window sep w with
    | [] => para
    | _ => join sep (close_window sep w) +:+ sep +:+ para
    end.
Proof.
  intros ->. destruct w as [chs cur size].
  unfold window_paragraph, close_window.
  cbn [current_chunk qa_system.chunks current_size].
  destruct cur as [|p ps].
  - cbn [length Nat.eqb negb]. rewrite andb_false_r.
    cbn [current_chunk qa_system.chunks app]. apply join_snoc.
  - cbn [length Nat.eqb negb]. rewrite andb_true_r.
    destruct (max_chunk_size <? _)%nat;
      cbn [current_chunk qa_system.chunks app].
    + rewrite join_snoc.
      destruct (chs ++ [join (NL +:+ NL) (p :: ps)]) eqn:E;
        [now destruct chs | reflexivity].
    + change (p :: ps ++ [para]) with ((p :: ps) ++ [para]).
      rewrite (join_snoc _ (p :: ps)). rewrite join_last_append.
      destruct (chs ++ [join (NL +:+ NL) (p :: ps)]) eqn:E;
        [now destruct chs | reflexivity].
Qed.

Lemma window_paragraph_open (sep : string) (w : Window) (para : string) :
  close_window sep (window_paragraph w para) <> [].
Proof.
  unfold close_window, window_paragraph. cbn [current_chunk].
  destruct (current_chunk _ ++ [para]) eqn:E.
  - now destruct (current_chunk _) in E.
  - intros H. now destruct (qa_system.chunks _) in H.
Qed.

Lemma fold_window_paragraph_joined (paras : list string) :
  forall w : Window,
    join (NL +:+ NL)
      (close_window (NL +:+ NL) (fold_left window_paragraph paras w))
    = match paras, close_window (NL +:+ NL) w with
      | [], _ => join (NL +:+ NL) (close_window (NL +:+ NL) w)
      | _, [] => join (NL +:+ NL) paras
      | _, _ => join (NL +:+ NL) (close_window (NL +:+ NL) w)
                +:+ (NL +:+ NL) +:+ join (NL +:+ NL) paras
      end.
Proof.
  induction paras as [|p ps IH]; intros w; [reflexivity |].
  cbn [fold_left]. rewrite IH.
  pose proof (window_paragraph_open (NL +:+ NL) w p) as Hopen.
  rewrite (window_paragraph_joined (NL +:+ NL) w p eq_refl).
  destruct ps as [|q ps].
  - now destruct (close_window (NL +:+ NL) w).
  - destruct (close_window (NL +:+ NL) (window_paragraph w p)); [contradiction |].
    change (join (NL +:+ NL) (p :: q :: ps))
      with (p +:+ (NL +:+ NL) +:+ join (NL +:+ NL) (q :: ps)).
    destruct (close_window (NL +:+ NL) w); [reflexivity |].
    now rewrite !append_assoc.
Qed.

(** X29.  The context cut out of the transcript when the index gives
    nothing never holds more than five windows; and for an ASCII
    transcript of at most 10000 characters that gives fewer than five,
    nothing is left out: the windows, joined by empty lines, are the
    transcript. *)
Theorem transcript_windows_are_few_and_lose_nothing (transcript : string) :
  (length (transcript_windows transcript) <= 5)%nat
  /\ (isascii transcript = true ->
      (10000 <? Z.of_nat (String.length transcript)) = false ->
      (length (transcript_windows transcript) < 5)%nat ->
      join (NL +:+ NL) (transcript_windows transcript) = transcript).
Proof.
  unfold transcript_windows.
  set (windows := if 10000 <? Z.of_nat (String.length transcript) then _ else _).
  split.
  - destruct (5 <? length windows)%nat eqn:E; [| apply Nat.ltb_ge in E; exact E].
    apply Nat.ltb_lt in E. unfold last_n.
    rewrite length_app, length_take, length_drop. lia.
  - intros _ Hshort. subst windows. rewrite Hshort.
    set (windows := close_window _ _).
    destruct (5 <? length windows)%nat eqn:E.
    + apply Nat.ltb_lt in E. unfold last_n.
      rewrite length_app, length_take, length_drop. lia.
    + intros _. subst windows. rewrite fold_window_paragraph_joined.
      pose proof (split_from_nonempty (NL +:+ NL) transcript 0) as Hne.
      fold (split (NL +:+ NL) transcript) in Hne.
      destruct (split (NL +:+ NL) transcript) eqn:Es; [contradiction |].
      cbn [close_window start_window current_chunk qa_system.chunks].
      rewrite <- Es. unfold split. now rewrite join_split_from.
Qed.

(** ** Changing the language of a video *)





